(** * The UML/ER diagram editor: graph store, relationship synthesis,
      history reconciliation and offline fallback

    A shallow embedding of the TypeScript front end:

    - [store/diagramStore]  (the zustand store: [normalizeEdge], [setGraph],
      [addNodes], [addEdges], [updateNodeData], [removeNode], ...);
    - [components/DiagramCanvas] ([handleSaveTable], [onConnect] with its
      local [toIdentifier]);
    - [components/ChatPanel] ([applyGraphToCanvas], [loadHistory],
      [handleDeleteEntry], [handleClearHistory], [handleProcessImage],
      [handleGenerate], [buildFallbackDiagram]).

    Conventions of the embedding.

    - A JavaScript string is a [string]; each [ascii] stands for one UTF-16
      code unit in the range U+0000..U+00FF (Latin-1), on which
      [toLowerCase], [trim] and the regular-expression classes used by the
      code are closed.
    - A property that may be missing ([undefined] or [null]) is an [option];
      [a ?? b] is [orElse a b].
    - A JavaScript [Map] is an association list in insertion order.
    - History identifiers are integers ([Z]); canvas coordinates are exact
      rationals ([Qc]).
    - A zustand [set] call is one function on the state; an [async] handler
      is a function of the state and of the outcome of each awaited call,
      returning the new state together with the list of requests sent. *)

From Stdlib Require Import ZArith NArith QArith Qcanon String Ascii List Lia.
From stdpp Require Import base option list strings numbers pretty.

Local Open Scope string_scope.
Local Open Scope list_scope.

(** ** JavaScript values and strings *)

Module JS.

(** [a ?? b] *)
Definition orElse {A : Type} (a b : option A) : option A :=
  match a with
  | Some x => Some x
  | None => b
  end.

(** [a ?? d] with a default that is always defined *)
Definition orDefault {A : Type} (a : option A) (d : A) : A :=
  match a with
  | Some x => x
  | None => d
  end.

Definition code (c : ascii) : N := N_of_ascii c.

Definition between (lo hi : N) (c : ascii) : bool :=
  ((lo <=? code c) && (code c <=? hi))%N.

(** White space and line terminators (the class [\s], also what [trim]
    strips): TAB, LF, VT, FF, CR, SPACE and NO-BREAK SPACE. *)
Definition isSpace (c : ascii) : bool :=
  between 9 13 c || (code c =? 32)%N || (code c =? 160)%N.

Definition isLowerAZ (c : ascii) : bool := between 97 122 c.
Definition isDigit (c : ascii) : bool := between 48 57 c.
Definition isUpper (c : ascii) : bool :=
  between 65 90 c || (between 192 222 c && negb (code c =? 215)%N).

Definition lowerChar (c : ascii) : ascii :=
  if isUpper c then ascii_of_N (code c + 32) else c.

(** [s.toLowerCase()] *)
Fixpoint toLowerCase (s : string) : string :=
  match s with
  | EmptyString => EmptyString
  | String c r => String (lowerChar c) (toLowerCase r)
  end.

Fixpoint trimStart (s : string) : string :=
  match s with
  | EmptyString => EmptyString
  | String c r => if isSpace c then trimStart r else s
  end.

Fixpoint allSpace (s : string) : bool :=
  match s with
  | EmptyString => true
  | String c r => isSpace c && allSpace r
  end.

Fixpoint trimEnd (s : string) : string :=
  match s with
  | EmptyString => EmptyString
  | String c r => if allSpace s then EmptyString else String c (trimEnd r)
  end.

(** [s.trim()] *)
Definition trim (s : string) : string := trimEnd (trimStart s).

(** [s.startsWith(p)] *)
Definition startsWith (s p : string) : bool := String.prefix p s.

(** [s.includes(sub)] *)
Fixpoint includes (s sub : string) : bool :=
  String.prefix sub s ||
  match s with
  | EmptyString => false
  | String _ r => includes r sub
  end.

(** [s.replace(/\s+/g, "_")]: the scan goes left to right; a white-space
    character that starts a match emits one underscore, the following
    white-space characters belong to the same match ([inRun]). *)
Fixpoint replaceSpaceRunsFrom (inRun : bool) (s : string) : string :=
  match s with
  | EmptyString => EmptyString
  | String c r =>
      if isSpace c then
        if inRun then replaceSpaceRunsFrom true r
        else String "_" (replaceSpaceRunsFrom true r)
      else String c (replaceSpaceRunsFrom false r)
  end.

Definition replaceSpaceRuns (s : string) : string :=
  replaceSpaceRunsFrom false s.

(** The class [[a-z0-9_]] *)
Definition isIdentChar (c : ascii) : bool :=
  isLowerAZ c || isDigit c || (code c =? 95)%N.

(** [s.replace(/[^a-z0-9_]/g, "")] *)
Fixpoint keepIdentChars (s : string) : string :=
  match s with
  | EmptyString => EmptyString
  | String c r =>
      if isIdentChar c then String c (keepIdentChars r) else keepIdentChars r
  end.

(** Truthiness of a string: [""] is falsy. *)
Definition truthy (s : string) : bool :=
  match s with
  | EmptyString => false
  | String _ _ => true
  end.

(** [a || b] on strings *)
Definition orStr (a b : string) : string := if truthy a then a else b.

(** [String(n)] / template interpolation of a non-negative integer *)
Definition ofN (n : N) : string := pretty n.

End JS.

Import JS.

(** ** Data model ([types.ts]) *)

(** A canvas coordinate pair, [{ x, y }]. *)
Record XYPosition := mkPos { pos_x : Qc; pos_y : Qc }.

Record Column := mkColumn {
  col_id : string;
  col_name : string;
  col_type : string;
  col_pk : option bool;
  col_nullable : option bool
}.

Record DatabaseNodeData := mkNodeData {
  label : string;
  columns : list Column;
  isJoin : option bool;
  joinOf : option (string * string)
}.

(** [RelationshipData]; every property may be missing on an object that
    comes from outside, [kind] may hold any string. *)
Record RelationshipData := mkRel {
  rel_id : option string;
  rel_source : option string;
  rel_target : option string;
  rel_kind : option string;
  rel_sourceMult : option string;
  rel_targetMult : option string;
  rel_label : option string
}.

(** [DiagramNode = Node<DatabaseNodeData>]: the properties the editor reads
    or writes. *)
Record DiagramNode := mkNode {
  node_id : string;
  node_type : option string;
  node_position : XYPosition;
  node_data : DatabaseNodeData
}.

(** [DiagramEdge = Edge<RelationshipData>] *)
Record DiagramEdge := mkEdge {
  edge_id : option string;
  edge_source : option string;
  edge_target : option string;
  edge_sourceHandle : option string;
  edge_targetHandle : option string;
  edge_label : option string;
  edge_data : option RelationshipData
}.

Record DiagramGraph := mkGraph {
  graph_nodes : list DiagramNode;
  graph_edges : list DiagramEdge
}.

Global Instance XYPosition_eq_dec : EqDecision XYPosition.
Proof. solve_decision. Defined.
Global Instance Column_eq_dec : EqDecision Column.
Proof. solve_decision. Defined.
Global Instance DatabaseNodeData_eq_dec : EqDecision DatabaseNodeData.
Proof. solve_decision. Defined.
Global Instance RelationshipData_eq_dec : EqDecision RelationshipData.
Proof. solve_decision. Defined.
Global Instance DiagramNode_eq_dec : EqDecision DiagramNode.
Proof. solve_decision. Defined.
Global Instance DiagramEdge_eq_dec : EqDecision DiagramEdge.
Proof. solve_decision. Defined.

(** ** A JavaScript [Map] in insertion order *)

Module JSMap.
Section WithKey.
Context {K V : Type} `{EqDecision K}.

(** [m.get(k)] *)
Fixpoint get (k : K) (m : list (K * V)) : option V :=
  match m with
  | [] => None
  | (k', v) :: r => if decide (k = k') then Some v else get k r
  end.

(** [m.set(k, v)]: an existing key keeps its place, a new key goes last. *)
Fixpoint set (k : K) (v : V) (m : list (K * V)) : list (K * V) :=
  match m with
  | [] => [(k, v)]
  | (k', v') :: r =>
      if decide (k = k') then (k, v) :: r else (k', v') :: set k v r
  end.

(** [Array.from(m.values())] *)
Definition values (m : list (K * V)) : list V := map snd m.

Definition keys (m : list (K * V)) : list K := map fst m.
End WithKey.
End JSMap.

(** ** The diagram store ([store/diagramStore.ts]) *)

Record DiagramState := mkState {
  nodes : list DiagramNode;
  edges : list DiagramEdge;
  selectedRelationshipKind : string;
  selectedSourceMult : string;
  selectedTargetMult : string
}.

Definition KIND_FALLBACK : string := "simple".

Definition isRelationshipKind (value : option string) : bool :=
  match value with
  | Some v =>
      bool_decide (v = "simple") || bool_decide (v = "flechaBlanca")
      || bool_decide (v = "flechaNegra") || bool_decide (v = "segmentada")
  | None => false
  end.

(** [{} as RelationshipData] *)
Definition emptyData : RelationshipData :=
  mkRel None None None None None None None.

Definition normalizeEdge (edge : DiagramEdge) : DiagramEdge :=
  let data := orDefault (edge_data edge) emptyData in
  let kind :=
    if isRelationshipKind (rel_kind data) then rel_kind data
    else Some KIND_FALLBACK in
  {| edge_id := edge_id edge;
     edge_source := edge_source edge;
     edge_target := edge_target edge;
     edge_sourceHandle := edge_sourceHandle edge;
     edge_targetHandle := edge_targetHandle edge;
     edge_label := edge_label edge;
     edge_data := Some
       {| rel_id := orElse (rel_id data) (edge_id edge);
          rel_source := orElse (rel_source data) (edge_source edge);
          rel_target := orElse (rel_target data) (edge_target edge);
          rel_kind := kind;
          rel_sourceMult := Some (orDefault (rel_sourceMult data) "1");
          rel_targetMult := Some (orDefault (rel_targetMult data) "*");
          rel_label := Some (orDefault (rel_label data) "") |} |}.

(** The initial state of the store. *)
Definition initialState : DiagramState :=
  mkState [] [] "simple" "1" "*".

Definition withNodes (state : DiagramState) (ns : list DiagramNode) : DiagramState :=
  mkState ns (edges state) (selectedRelationshipKind state)
          (selectedSourceMult state) (selectedTargetMult state).

Definition withEdges (state : DiagramState) (es : list DiagramEdge) : DiagramState :=
  mkState (nodes state) es (selectedRelationshipKind state)
          (selectedSourceMult state) (selectedTargetMult state).

Definition setGraph (graph : DiagramGraph) (state : DiagramState) : DiagramState :=
  mkState (graph_nodes graph) (map normalizeEdge (graph_edges graph))
          (selectedRelationshipKind state)
          (selectedSourceMult state) (selectedTargetMult state).

Definition resetGraph (state : DiagramState) : DiagramState :=
  mkState [] [] (selectedRelationshipKind state)
          (selectedSourceMult state) (selectedTargetMult state).

Definition setNodes (ns : list DiagramNode) (state : DiagramState) : DiagramState :=
  withNodes state ns.

Definition setEdges (es : list DiagramEdge) (state : DiagramState) : DiagramState :=
  withEdges state (map normalizeEdge es).

(** [{ ...existing, ...node }] on nodes: [id], [position] and [data] are
    always present on the incoming node, [type] only sometimes. *)
Definition mergeNode (existing : option DiagramNode) (node : DiagramNode) : DiagramNode :=
  match existing with
  | Some old =>
      mkNode (node_id node) (orElse (node_type node) (node_type old))
             (node_position node) (node_data node)
  | None => node
  end.

(** [{ ...existing, ...edge }] on edges: a property present on the incoming
    edge wins. *)
Definition mergeEdge (existing edge : DiagramEdge) : DiagramEdge :=
  {| edge_id := orElse (edge_id edge) (edge_id existing);
     edge_source := orElse (edge_source edge) (edge_source existing);
     edge_target := orElse (edge_target edge) (edge_target existing);
     edge_sourceHandle := orElse (edge_sourceHandle edge) (edge_sourceHandle existing);
     edge_targetHandle := orElse (edge_targetHandle edge) (edge_targetHandle existing);
     edge_label := orElse (edge_label edge) (edge_label existing);
     edge_data := orElse (edge_data edge) (edge_data existing) |}.

Definition addNodes (incoming : list DiagramNode) (state : DiagramState) : DiagramState :=
  let next0 :=
    foldl (fun next node => JSMap.set (node_id node) node next) [] (nodes state) in
  let next1 :=
    foldl (fun next node =>
             JSMap.set (node_id node)
                       (mergeNode (JSMap.get (node_id node) next) node) next)
          next0 incoming in
  withNodes state (JSMap.values next1).

Definition addEdges (incoming : list DiagramEdge) (state : DiagramState) : DiagramState :=
  let next0 :=
    foldl (fun next edge => JSMap.set (edge_id edge) edge next) [] (edges state) in
  let next1 :=
    foldl (fun next edge =>
             let existing := JSMap.get (edge_id edge) next in
             JSMap.set (edge_id edge)
                       (match existing with
                        | Some old => mergeEdge old edge
                        | None => edge
                        end) next)
          next0 incoming in
  withEdges state (map normalizeEdge (JSMap.values next1)).

(** [Partial<DiagramNode>] *)
Record NodeUpdates := mkNodeUpdates {
  upd_id : option string;
  upd_type : option string;
  upd_position : option XYPosition;
  upd_data : option DatabaseNodeData
}.

Definition updateNode (nodeId : string) (updates : NodeUpdates)
    (state : DiagramState) : DiagramState :=
  withNodes state
    (map (fun node =>
            if bool_decide (node_id node = nodeId) then
              mkNode (orDefault (upd_id updates) (node_id node))
                     (orElse (upd_type updates) (node_type node))
                     (orDefault (upd_position updates) (node_position node))
                     (orDefault (upd_data updates) (node_data node))
            else node)
         (nodes state)).

Definition updateNodeData (nodeId : string) (data : DatabaseNodeData)
    (state : DiagramState) : DiagramState :=
  withNodes state
    (map (fun node =>
            if bool_decide (node_id node = nodeId) then
              mkNode (node_id node) (node_type node) (node_position node) data
            else node)
         (nodes state)).

Definition removeNode (nodeId : string) (state : DiagramState) : DiagramState :=
  mkState
    (filter (fun node => node_id node ≠ nodeId) (nodes state))
    (filter (fun edge => edge_source edge ≠ Some nodeId
                         ∧ edge_target edge ≠ Some nodeId) (edges state))
    (selectedRelationshipKind state)
    (selectedSourceMult state) (selectedTargetMult state).

Definition updateEdge (edgeId : string) (updates : DiagramEdge)
    (state : DiagramState) : DiagramState :=
  withEdges state
    (map (fun edge =>
            if bool_decide (edge_id edge = Some edgeId)
            then normalizeEdge (mergeEdge edge updates) else edge)
         (edges state)).

(** [{ ...edge.data, ...data }] *)
Definition mergeData (old : option RelationshipData) (data : RelationshipData)
    : RelationshipData :=
  let o := orDefault old emptyData in
  {| rel_id := orElse (rel_id data) (rel_id o);
     rel_source := orElse (rel_source data) (rel_source o);
     rel_target := orElse (rel_target data) (rel_target o);
     rel_kind := orElse (rel_kind data) (rel_kind o);
     rel_sourceMult := orElse (rel_sourceMult data) (rel_sourceMult o);
     rel_targetMult := orElse (rel_targetMult data) (rel_targetMult o);
     rel_label := orElse (rel_label data) (rel_label o) |}.

Definition withData (edge : DiagramEdge) (d : RelationshipData) : DiagramEdge :=
  mkEdge (edge_id edge) (edge_source edge) (edge_target edge)
         (edge_sourceHandle edge) (edge_targetHandle edge) (edge_label edge)
         (Some d).

Definition updateEdgeData (edgeId : string) (data : RelationshipData)
    (state : DiagramState) : DiagramState :=
  withEdges state
    (map (fun edge =>
            if bool_decide (edge_id edge = Some edgeId)
            then normalizeEdge (withData edge (mergeData (edge_data edge) data))
            else edge)
         (edges state)).

Definition removeEdge (edgeId : string) (state : DiagramState) : DiagramState :=
  withEdges state (filter (fun edge => edge_id edge ≠ Some edgeId) (edges state)).

Definition setSelectedRelationshipKind (kind : string) (state : DiagramState) :=
  mkState (nodes state) (edges state) kind
          (selectedSourceMult state) (selectedTargetMult state).
Definition setSelectedSourceMult (mult : string) (state : DiagramState) :=
  mkState (nodes state) (edges state) (selectedRelationshipKind state)
          mult (selectedTargetMult state).
Definition setSelectedTargetMult (mult : string) (state : DiagramState) :=
  mkState (nodes state) (edges state) (selectedRelationshipKind state)
          (selectedSourceMult state) mult.

(** ** The canvas controller ([components/DiagramCanvas.tsx]) *)

(** A JavaScript number that is an integer literal in the source. *)
Definition num (z : Z) : Qc := Q2Qc (inject_Z z).

(** [Math.max(a, b)] *)
Definition numMax (a b : Qc) : Qc := if decide (a ≤ b)%Qc then b else a.

Record CanvasState := mkCanvas {
  store : DiagramState;
  editingNode : option DiagramNode;
  isEditorOpen : bool;
  editingEdge : option DiagramEdge;
  isRelationshipEditorOpen : bool
}.

Definition findNode (id : string) (ns : list DiagramNode) : option DiagramNode :=
  List.find (fun node => bool_decide (node_id node = id)) ns.

Definition handleDeleteNode (nodeId : string) (c : CanvasState) : CanvasState :=
  let st := removeNode nodeId (store c) in
  if bool_decide (node_id <$> editingNode c = Some nodeId)
  then mkCanvas st None false (editingEdge c) (isRelationshipEditorOpen c)
  else mkCanvas st (editingNode c) (isEditorOpen c)
                (editingEdge c) (isRelationshipEditorOpen c).

Definition handleSaveTable (tableName : string) (cols : list Column)
    (c : CanvasState) : CanvasState :=
  match editingNode c with
  | None => c
  | Some editing =>
      let payload := mkNodeData tableName cols None None in
      let exists_ :=
        existsb (fun node => bool_decide (node_id node = node_id editing))
                (nodes (store c)) in
      let st :=
        if exists_ then updateNodeData (node_id editing) payload (store c)
        else addNodes [mkNode (node_id editing) (node_type editing)
                              (node_position editing) payload] (store c) in
      mkCanvas st None false (editingEdge c) (isRelationshipEditorOpen c)
  end.

(** The connection handed over by the rendering surface. *)
Record Connection := mkConnection {
  conn_source : option string;
  conn_target : option string;
  conn_sourceHandle : option string;
  conn_targetHandle : option string
}.

(** The [toIdentifier] helper local to [onConnect]. *)
Definition toIdentifier (value : string) : string :=
  orStr (keepIdentChars (replaceSpaceRuns (toLowerCase (trim value))))
        "relacion".

(** [present v]: the value is not falsy (neither missing nor [""]). *)
Definition present (v : option string) : option string :=
  match v with
  | Some s => if truthy s then Some s else None
  | None => None
  end.

Section OnConnect.
(** The two readings of [Date.now()] taken by the handler. *)
Variables (now1 now2 : N).
Variables (source target : string).
Variable (state : DiagramState).

Definition sourceNode := findNode source (nodes state).
Definition targetNode := findNode target (nodes state).
Definition sourceLabel : string :=
  orDefault (label ∘ node_data <$> sourceNode) source.
Definition targetLabel : string :=
  orDefault (label ∘ node_data <$> targetNode) target.

Definition joinId : string :=
  "join-" +:+ source +:+ "-" +:+ target +:+ "-" +:+ ofN now1.
Definition joinLabel : string := sourceLabel +:+ "_" +:+ targetLabel.

Definition sourcePosition : XYPosition :=
  orDefault (node_position <$> sourceNode) (mkPos (num 100) (num 100)).
Definition targetPosition : XYPosition :=
  orDefault (node_position <$> targetNode)
            (mkPos (pos_x sourcePosition + num 200) (pos_y sourcePosition)).
Definition joinPosition : XYPosition :=
  mkPos ((pos_x sourcePosition + pos_x targetPosition) / num 2)
        (numMax (pos_y sourcePosition) (pos_y targetPosition) + num 200).

Definition joinColumns : list Column :=
  [ mkColumn (joinId +:+ "-id") "id" "INT" (Some true) (Some false);
    mkColumn (joinId +:+ "-" +:+ source)
             (toIdentifier sourceLabel +:+ "_id") "INT" None (Some false);
    mkColumn (joinId +:+ "-" +:+ target)
             (toIdentifier targetLabel +:+ "_id") "INT" None (Some false) ].

Definition joinNode : DiagramNode :=
  mkNode joinId (Some "databaseNode") joinPosition
         (mkNodeData joinLabel joinColumns (Some true)
                     (Some (sourceLabel, targetLabel))).

Definition leftEdgeId : string :=
  "edge-" +:+ source +:+ "-" +:+ joinId +:+ "-" +:+ ofN now2.
Definition rightEdgeId : string :=
  "edge-" +:+ joinId +:+ "-" +:+ target +:+ "-" +:+ ofN now2.

Definition leftEdge : DiagramEdge :=
  mkEdge (Some leftEdgeId) (Some source) (Some joinId) None None (Some "")
    (Some (mkRel (Some leftEdgeId) (Some source) (Some joinId)
                 (Some "simple") (Some (selectedSourceMult state))
                 (Some "1") (Some ""))).
Definition rightEdge : DiagramEdge :=
  mkEdge (Some rightEdgeId) (Some joinId) (Some target) None None (Some "")
    (Some (mkRel (Some rightEdgeId) (Some joinId) (Some target)
                 (Some "simple") (Some "1")
                 (Some (selectedTargetMult state)) (Some ""))).

Definition isManyToMany : bool :=
  bool_decide (selectedRelationshipKind state = "segmentada")
  && bool_decide (selectedSourceMult state = "*")
  && bool_decide (selectedTargetMult state = "*").

Definition directEdgeId : string :=
  "edge-" +:+ source +:+ "-" +:+ target +:+ "-" +:+ ofN now1.

Definition directEdge (sh th : option string) : DiagramEdge :=
  mkEdge (Some directEdgeId) (Some source) (Some target) sh th (Some "")
    (Some (mkRel (Some directEdgeId) (Some source) (Some target)
                 (Some (selectedRelationshipKind state))
                 (Some (selectedSourceMult state))
                 (Some (selectedTargetMult state)) (Some ""))).

(** The body of [onConnect] once both endpoints are known. *)
Definition connect (sh th : option string) : DiagramState :=
  if isManyToMany then
    addEdges [leftEdge; rightEdge] (addNodes [joinNode] state)
  else
    addEdges [directEdge sh th] state.
End OnConnect.

Definition onConnect (now1 now2 : N) (connection : Connection)
    (state : DiagramState) : DiagramState :=
  match present (conn_source connection), present (conn_target connection) with
  | Some source, Some target =>
      connect now1 now2 source target state
              (conn_sourceHandle connection) (conn_targetHandle connection)
  | _, _ => state
  end.

(** ** The chat panel ([components/ChatPanel.tsx]) *)

Definition DEFAULT_PROMPT : string :=
  "Crea tablas Usuario(id, nombre, email) y Post(id, user_id, titulo). Relacion 1:N".

Definition HISTORY_LIMIT : Z := 20.

(** A graph as it arrives from a service or from the history: [nodes] and
    [edges] may fail [Array.isArray]. *)
Record RawGraph := mkRaw {
  raw_nodes : option (list DiagramNode);
  raw_edges : option (list DiagramEdge)
}.

Definition rawGraph (g : DiagramGraph) : RawGraph :=
  mkRaw (Some (graph_nodes g)) (Some (graph_edges g)).

Record ApiHistoryItem := mkItem {
  item_id : Z;
  item_user_id : Z;
  item_prompt : string;
  item_graph : RawGraph;
  item_created_at : string
}.

(** [PromptHistoryEntry] *)
Record PromptHistoryEntry := mkHistoryEntry {
  entry_id : Z;
  entry_userId : Z;
  entry_prompt : string;
  entry_graph : RawGraph;
  entry_createdAt : string
}.

(** The body of a reply of [/ai/vision]. *)
Record VisionResponse := mkVision {
  vision_graph : RawGraph;
  vision_history_id : option Z;
  vision_prompt : option string
}.

(** The body of a reply of [/ai/generate] is read as a [DiagramGraph];
    [gen_history_id] stands for a history id the body may carry besides
    the graph, which the handler never reads. *)
Record GenerateResponse := mkGenerate {
  gen_nodes : option (list DiagramNode);
  gen_edges : option (list DiagramEdge);
  gen_history_id : option Z
}.

(** What a rejected request carries: [isAxiosError(err)],
    [err.response?.data?.detail] and [err.message]. *)
Record ApiError := mkError {
  err_isAxios : bool;
  err_detail : option string;
  err_message : option string
}.

Inductive Outcome (A : Type) : Type :=
| Resolved (value : A)
| Rejected (err : ApiError).
Arguments Resolved {A} value.
Arguments Rejected {A} err.

Inductive Request : Type :=
| GetHistory (limit : Z)
| DeleteHistoryEntry (historyId : Z)
| DeleteHistory
| PostVision (prompt : option string) (history_id : option Z)
| PostGenerate (prompt : string) (graph : DiagramGraph) (history_id : option Z).

Record ChatState := mkChat {
  prompt : string;
  isLoading : bool;
  error : option string;
  history : list PromptHistoryEntry;
  isHistoryLoading : bool;
  historyError : option string;
  deletingId : option Z;
  isClearingHistory : bool;
  activeHistoryId : option Z;
  activeHistoryIdRef : option Z
}.

(** The panel state, the diagram store it writes to, and the requests sent
    so far (latest last). *)
Record World := mkWorld {
  chat : ChatState;
  diagram : DiagramState;
  sent : list Request
}.

(** *** A state monad for the handlers *)

Definition Action (A : Type) : Type := World → A * World.

Global Instance Action_ret : MRet Action := λ A x w, (x, w).
Global Instance Action_bind : MBind Action := λ A B f m w,
  let '(a, w') := m w in f a w'.

Definition exec {A : Type} (m : Action A) (w : World) : World := snd (m w).
Definition result {A : Type} (m : Action A) (w : World) : A := fst (m w).

Definition getChat : Action ChatState := λ w, (chat w, w).
Definition modifyChat (f : ChatState → ChatState) : Action unit :=
  λ w, (tt, mkWorld (f (chat w)) (diagram w) (sent w)).
Definition modifyDiagram (f : DiagramState → DiagramState) : Action unit :=
  λ w, (tt, mkWorld (chat w) (f (diagram w)) (sent w)).
Definition send (r : Request) : Action unit :=
  λ w, (tt, mkWorld (chat w) (diagram w) (sent w ++ [r])).

Definition setPrompt (v : string) : Action unit :=
  modifyChat (λ c, mkChat v (isLoading c) (error c) (history c)
    (isHistoryLoading c) (historyError c) (deletingId c)
    (isClearingHistory c) (activeHistoryId c) (activeHistoryIdRef c)).
Definition setIsLoading (v : bool) : Action unit :=
  modifyChat (λ c, mkChat (prompt c) v (error c) (history c)
    (isHistoryLoading c) (historyError c) (deletingId c)
    (isClearingHistory c) (activeHistoryId c) (activeHistoryIdRef c)).
Definition setError (v : option string) : Action unit :=
  modifyChat (λ c, mkChat (prompt c) (isLoading c) v (history c)
    (isHistoryLoading c) (historyError c) (deletingId c)
    (isClearingHistory c) (activeHistoryId c) (activeHistoryIdRef c)).
(** [setHistory(f)] with an updater function; [setHistory(v)] is
    [updateHistory (λ _, v)]. *)
Definition updateHistory (f : list PromptHistoryEntry → list PromptHistoryEntry) : Action unit :=
  modifyChat (λ c, mkChat (prompt c) (isLoading c) (error c) (f (history c))
    (isHistoryLoading c) (historyError c) (deletingId c)
    (isClearingHistory c) (activeHistoryId c) (activeHistoryIdRef c)).
Definition setHistory (v : list PromptHistoryEntry) : Action unit :=
  updateHistory (λ _, v).
Definition setIsHistoryLoading (v : bool) : Action unit :=
  modifyChat (λ c, mkChat (prompt c) (isLoading c) (error c) (history c)
    v (historyError c) (deletingId c)
    (isClearingHistory c) (activeHistoryId c) (activeHistoryIdRef c)).
Definition setHistoryError (v : option string) : Action unit :=
  modifyChat (λ c, mkChat (prompt c) (isLoading c) (error c) (history c)
    (isHistoryLoading c) v (deletingId c)
    (isClearingHistory c) (activeHistoryId c) (activeHistoryIdRef c)).
Definition setDeletingId (v : option Z) : Action unit :=
  modifyChat (λ c, mkChat (prompt c) (isLoading c) (error c) (history c)
    (isHistoryLoading c) (historyError c) v
    (isClearingHistory c) (activeHistoryId c) (activeHistoryIdRef c)).
Definition setIsClearingHistory (v : bool) : Action unit :=
  modifyChat (λ c, mkChat (prompt c) (isLoading c) (error c) (history c)
    (isHistoryLoading c) (historyError c) (deletingId c)
    v (activeHistoryId c) (activeHistoryIdRef c)).
Definition setActiveHistoryId (v : option Z) : Action unit :=
  modifyChat (λ c, mkChat (prompt c) (isLoading c) (error c) (history c)
    (isHistoryLoading c) (historyError c) (deletingId c)
    (isClearingHistory c) v (activeHistoryIdRef c)).
(** [activeHistoryIdRef.current = v] *)
Definition setActiveHistoryIdRef (v : option Z) : Action unit :=
  modifyChat (λ c, mkChat (prompt c) (isLoading c) (error c) (history c)
    (isHistoryLoading c) (historyError c) (deletingId c)
    (isClearingHistory c) (activeHistoryId c) v).

(** The effect [activeHistoryIdRef.current = activeHistoryId], run after a
    render in which the pointer changed. *)
Definition syncActiveHistoryIdRef : Action unit :=
  c ← getChat; setActiveHistoryIdRef (activeHistoryId c).

(** *** [applyGraphToCanvas] *)

(** [rnd i] is the text [Math.random().toString(36).slice(2)] drawn while
    the edge at index [i] is visited. *)
Definition sanitizeEdge (rnd : nat → string) (i : nat) (edge : DiagramEdge)
    : DiagramEdge :=
  let baseData := orDefault (edge_data edge) emptyData in
  withData edge
    {| rel_id := Some (orDefault (orElse (rel_id baseData) (edge_id edge))
                                 ("edge-" +:+ rnd i));
       rel_source := orElse (rel_source baseData) (edge_source edge);
       rel_target := orElse (rel_target baseData) (edge_target edge);
       rel_kind := Some (orDefault (rel_kind baseData) "simple");
       rel_sourceMult := Some (orDefault (rel_sourceMult baseData) "1");
       rel_targetMult := Some (orDefault (rel_targetMult baseData) "*");
       rel_label := Some (orDefault (rel_label baseData) "") |}.

Definition applyGraphToCanvas (rnd : nat → string) (graph : RawGraph)
    : Action unit :=
  let safeNodes := orDefault (raw_nodes graph) [] in
  let safeEdges := orDefault (raw_edges graph) [] in
  let sanitizedEdges := imap (sanitizeEdge rnd) safeEdges in
  modifyDiagram (setGraph (mkGraph safeNodes sanitizedEdges)).

(** *** The offline fallback generator *)

Definition buildNode (id label_ : string) (cols : list Column)
    (position : XYPosition) (extra : option bool * option (string * string))
    : DiagramNode :=
  mkNode id (Some "databaseNode") position
         (mkNodeData label_ cols (fst extra) (snd extra)).

Definition noExtra : option bool * option (string * string) := (None, None).

Definition buildEdge (id source target sourceMult targetMult kind label_ : string)
    : DiagramEdge :=
  mkEdge (Some id) (Some source) (Some target) None None (Some label_)
    (Some (mkRel (Some id) (Some source) (Some target) (Some kind)
                 (Some sourceMult) (Some targetMult) (Some label_))).

(** A column literal [{ id, name, type, pk: true, nullable }]. *)
Definition pkCol (id name type : string) (nullable : bool) : Column :=
  mkColumn id name type (Some true) (Some nullable).
(** A column literal [{ id, name, type, nullable }]. *)
Definition col (id name type : string) (nullable : bool) : Column :=
  mkColumn id name type None (Some nullable).

Definition buildSupermarketDiagram : DiagramGraph :=
  mkGraph
    [ buildNode "node-productos" "Productos"
        [ pkCol "prod-id" "id" "INT" false;
          col "prod-nombre" "nombre" "VARCHAR(120)" false;
          col "prod-precio" "precio" "DECIMAL(10,2)" false;
          col "prod-stock" "stock" "INT" false ]
        (mkPos (num 460) (num 140)) noExtra;
      buildNode "node-categorias" "Categorias"
        [ pkCol "cat-id" "id" "INT" false;
          col "cat-nombre" "nombre" "VARCHAR(120)" false;
          col "cat-descripcion" "descripcion" "TEXT" true ]
        (mkPos (num 180) (num 80)) noExtra;
      buildNode "node-proveedores" "Proveedores"
        [ pkCol "prov-id" "id" "INT" false;
          col "prov-nombre" "nombre" "VARCHAR(150)" false;
          col "prov-telefono" "telefono" "VARCHAR(50)" true;
          col "prov-email" "email" "VARCHAR(120)" true ]
        (mkPos (num 760) (num 80)) noExtra;
      buildNode "node-clientes" "Clientes"
        [ pkCol "cli-id" "id" "INT" false;
          col "cli-nombre" "nombre" "VARCHAR(150)" false;
          col "cli-email" "email" "VARCHAR(150)" true;
          col "cli-telefono" "telefono" "VARCHAR(50)" true ]
        (mkPos (num 180) (num 360)) noExtra;
      buildNode "node-empleados" "Empleados"
        [ pkCol "emp-id" "id" "INT" false;
          col "emp-nombre" "nombre" "VARCHAR(150)" false;
          col "emp-rol" "rol" "VARCHAR(80)" false ]
        (mkPos (num 760) (num 360)) noExtra;
      buildNode "node-ventas" "Ventas"
        [ pkCol "ven-id" "id" "INT" false;
          col "ven-fecha" "fecha" "DATETIME" false;
          col "ven-total" "total" "DECIMAL(10,2)" false;
          col "ven-cliente" "cliente_id" "INT" false;
          col "ven-empleado" "empleado_id" "INT" false ]
        (mkPos (num 460) (num 360)) noExtra;
      buildNode "node-detalle-venta" "DetalleVenta"
        [ pkCol "det-id" "id" "INT" false;
          col "det-venta" "venta_id" "INT" false;
          col "det-producto" "producto_id" "INT" false;
          col "det-cantidad" "cantidad" "INT" false;
          col "det-precio" "precio_unitario" "DECIMAL(10,2)" false ]
        (mkPos (num 460) (num 560))
        (Some true, Some ("Ventas", "Productos"));
      buildNode "node-inventario" "Inventario"
        [ pkCol "inv-id" "id" "INT" false;
          col "inv-producto" "producto_id" "INT" false;
          col "inv-sucursal" "sucursal" "VARCHAR(80)" false;
          col "inv-stock" "stock_actual" "INT" false ]
        (mkPos (num 900) (num 360)) noExtra ]
    [ buildEdge "edge-cat-productos" "node-categorias" "node-productos" "1" "*" "simple" "";
      buildEdge "edge-prov-productos" "node-proveedores" "node-productos" "1" "*" "simple" "";
      buildEdge "edge-productos-inventario" "node-productos" "node-inventario" "1" "*" "simple" "";
      buildEdge "edge-clientes-ventas" "node-clientes" "node-ventas" "1" "*" "simple" "";
      buildEdge "edge-empleados-ventas" "node-empleados" "node-ventas" "1" "*" "simple" "";
      buildEdge "edge-ventas-detalle" "node-ventas" "node-detalle-venta" "1" "*" "simple" "";
      buildEdge "edge-productos-detalle" "node-productos" "node-detalle-venta" "1" "*" "simple" "" ].

Definition buildDefaultDiagram : DiagramGraph :=
  mkGraph
    [ buildNode "node-usuario-ai" "Usuario"
        [ pkCol "u-id" "id" "INT" false;
          col "u-nombre" "nombre" "VARCHAR(100)" false;
          col "u-email" "email" "VARCHAR(150)" false ]
        (mkPos (num 200) (num 140)) noExtra;
      buildNode "node-post-ai" "Post"
        [ pkCol "p-id" "id" "INT" false;
          col "p-user" "user_id" "INT" false;
          col "p-title" "titulo" "VARCHAR(200)" false ]
        (mkPos (num 520) (num 200)) noExtra ]
    [ buildEdge "edge-usuario-post-ai" "node-usuario-ai" "node-post-ai"
                "1" "*" "simple" "Usuario crea Post" ].

Definition buildFallbackDiagram (prompt_ : string) : option DiagramGraph :=
  let text := toLowerCase prompt_ in
  if includes text "supermercado" || includes text "supermarket" then
    Some buildSupermarketDiagram
  else if includes text "usuario" || includes text "post" then
    Some buildDefaultDiagram
  else None.

(** *** History handlers *)

(** Nothing to do (an early [return], or an absent [else]). *)
Definition skip : Action unit := mret tt.

(** Run an action and drop its value. *)
Definition discard {A : Type} (m : Action A) : Action unit := m;; mret tt.

Definition toEntry (item : ApiHistoryItem) : PromptHistoryEntry :=
  mkHistoryEntry (item_id item) (item_user_id item) (item_prompt item)
                 (item_graph item) (item_created_at item).

(** [mapped.some((entry) => entry.id === currentActive)] guarded by
    [currentActive !== null] *)
Definition occursIn (currentActive : option Z) (mapped : list PromptHistoryEntry) : bool :=
  match currentActive with
  | Some a => existsb (λ entry, bool_decide (entry_id entry = a)) mapped
  | None => false
  end.

(** [mapped.length > 0 ? mapped[0].id : null] *)
Definition firstId (mapped : list PromptHistoryEntry) : option Z :=
  match mapped with
  | entry :: _ => Some (entry_id entry)
  | [] => None
  end.

(** [loadHistory(options)]; [outcome] is what [api.get("/ai/history")]
    settles to, [None] inside it a body that is not an array. *)
Definition loadHistory (preserveNullSelection : bool)
    (outcome : Outcome (option (list ApiHistoryItem)))
    : Action (list PromptHistoryEntry) :=
  setIsHistoryLoading true;;
  setHistoryError None;;
  send (GetHistory HISTORY_LIMIT);;
  mapped ←
    match outcome with
    | Resolved data =>
        let records := orDefault data [] in
        let mapped := map toEntry records in
        setHistory mapped;;
        c ← getChat;
        let currentActive := activeHistoryIdRef c in
        let nextActive :=
          if occursIn currentActive mapped then currentActive
          else if preserveNullSelection && bool_decide (currentActive = None)
               then None
               else firstId mapped in
        setActiveHistoryId nextActive;;
        setActiveHistoryIdRef nextActive;;
        mret mapped
    | Rejected _ =>
        setHistoryError (Some "No se pudo cargar el historial.");;
        mret []
    end;
  setIsHistoryLoading false;;
  mret mapped.

(** The effect that fetches the history when the panel mounts. *)
Definition mountEffect (outcome : Outcome (option (list ApiHistoryItem)))
    : Action unit :=
  discard (loadHistory false outcome).

Definition handleHistorySelect (rnd : nat → string) (entry : PromptHistoryEntry)
    : Action unit :=
  applyGraphToCanvas rnd (entry_graph entry);;
  setPrompt (entry_prompt entry);;
  setError None;;
  setActiveHistoryId (Some (entry_id entry)).

(** [confirmed] is the value of
    [typeof window === "undefined" || window.confirm(...)]. *)
Definition handleDeleteEntry (historyId : Z) (confirmed : bool)
    (deleted : Outcome unit)
    (reloaded : Outcome (option (list ApiHistoryItem))) : Action unit :=
  c ← getChat;
  if isClearingHistory c then skip
  else if negb confirmed then skip
  else
    setDeletingId (Some historyId);;
    setHistoryError None;;
    send (DeleteHistoryEntry historyId);;
    match deleted with
    | Resolved _ => discard (loadHistory true reloaded)
    | Rejected _ => setHistoryError (Some "No se pudo eliminar la entrada.")
    end;;
    setDeletingId None.

(** [handleClearHistory] up to its [await]: the result tells whether the
    request was sent. *)
Definition handleClearHistory_begin (confirmed : bool) : Action bool :=
  c ← getChat;
  if (length (history c) =? 0)%nat then mret false
  else if negb confirmed then mret false
  else
    setIsClearingHistory true;;
    setHistoryError None;;
    send DeleteHistory;;
    mret true.

(** [handleClearHistory] from the point where [api.delete] settles. *)
Definition handleClearHistory_settle (cleared : Outcome unit) : Action unit :=
  match cleared with
  | Resolved _ =>
      setHistory [];;
      setActiveHistoryId None;;
      setActiveHistoryIdRef None;;
      setPrompt DEFAULT_PROMPT
  | Rejected _ => setHistoryError (Some "No se pudo limpiar el historial.")
  end;;
  setIsClearingHistory false;;
  setDeletingId None.

Definition handleClearHistory (confirmed : bool) (cleared : Outcome unit)
    : Action unit :=
  started ← handleClearHistory_begin confirmed;
  if (started : bool) then handleClearHistory_settle cleared else skip.

Definition handleNewConversation : Action unit :=
  setPrompt "";;
  setError None;;
  setActiveHistoryId None;;
  setActiveHistoryIdRef None.

(** *** Generation handlers *)

(** [if (historyIdFromResponse)]: a number is truthy unless it is [0]. *)
Definition truthyId (id : option Z) : bool :=
  match id with
  | Some z => negb (z =? 0)%Z
  | None => false
  end.

(** [historyIdFromResponse === activeHistoryId] under
    [activeHistoryId !== null] *)
Definition sameId (reported active : option Z) : bool :=
  match active with
  | Some a => bool_decide (reported = Some a)
  | None => false
  end.

Definition patchEntry (active : option Z) (newPrompt : PromptHistoryEntry → string)
    (graph : RawGraph) (entry : PromptHistoryEntry) : PromptHistoryEntry :=
  if bool_decide (Some (entry_id entry) = active) then
    mkHistoryEntry (entry_id entry) (entry_userId entry) (newPrompt entry)
                   graph (entry_createdAt entry)
  else entry.

(** The picked file: only its MIME type is read. *)
Record File := mkFile { file_type : string }.

Definition handleProcessImage (rnd : nat → string) (file : option File)
    (answered : Outcome VisionResponse)
    (reloaded : Outcome (option (list ApiHistoryItem))) : Action unit :=
  match file with
  | None => skip
  | Some f =>
      if negb (startsWith (file_type f) "image/") then
        setError (Some "Selecciona un archivo de imagen (png, jpg, svg, etc.).")
      else
        c ← getChat;
        let trimmedPrompt := trim (prompt c) in
        let active := activeHistoryId c in
        let continuingConversation := bool_decide (active ≠ None) in
        setIsLoading true;;
        setError None;;
        send (PostVision (present (Some trimmedPrompt))
                         (if continuingConversation then active else None));;
        match answered with
        | Resolved data =>
            let graph := vision_graph data in
            let historyIdFromResponse := vision_history_id data in
            let promptFromResponse :=
              orDefault (vision_prompt data) trimmedPrompt in
            applyGraphToCanvas rnd graph;;
            setPrompt (orStr promptFromResponse trimmedPrompt);;
            setError None;;
            (if continuingConversation && sameId historyIdFromResponse active
             then
               updateHistory
                 (map (patchEntry active
                         (λ entry, orStr promptFromResponse (entry_prompt entry))
                         graph))
             else discard (loadHistory false reloaded));;
            (if truthyId historyIdFromResponse then
               setActiveHistoryId historyIdFromResponse;;
               setActiveHistoryIdRef historyIdFromResponse
             else skip)
        | Rejected err =>
            let message :=
              match present (err_detail err) with
              | Some detail => detail
              | None => orDefault (err_message err)
                                  "No se pudo interpretar la imagen."
              end in
            setError (Some message)
        end;;
        setIsLoading false
  end.

(** The [edges] part of the payload of [/ai/generate]:
    [{ id, source, target, label, data }]. *)
Definition edgePayload (edge : DiagramEdge) : DiagramEdge :=
  mkEdge (edge_id edge) (edge_source edge) (edge_target edge) None None
         (edge_label edge) (edge_data edge).

Definition handleGenerate (rnd : nat → string)
    (answered : Outcome GenerateResponse)
    (reloaded : Outcome (option (list ApiHistoryItem))) : Action unit :=
  c ← getChat;
  let trimmed := trim (prompt c) in
  if negb (truthy trimmed) then
    setError (Some "Escribe un prompt para generar el diagrama.")
  else
    let active := activeHistoryId c in
    let continuingConversation := bool_decide (active ≠ None) in
    setIsLoading true;;
    setError None;;
    (λ w, send (PostGenerate trimmed
                  (mkGraph (nodes (diagram w))
                           (map edgePayload (edges (diagram w))))
                  (if continuingConversation then active else None)) w);;
    match answered with
    | Resolved data =>
        let graph :=
          mkGraph (orDefault (gen_nodes data) []) (orDefault (gen_edges data) []) in
        if (length (graph_nodes graph) =? 0)%nat
           && (length (graph_edges graph) =? 0)%nat
        then setError (Some "La respuesta no contiene nodos ni relaciones.")
        else
          applyGraphToCanvas rnd (rawGraph graph);;
          setError None;;
          if continuingConversation then
            updateHistory
              (map (patchEntry active (λ _, trimmed) (rawGraph graph)))
          else discard (loadHistory false reloaded)
    | Rejected err =>
        match (if err_isAxios err then present (err_detail err) else None) with
        | Some detail => setError (Some detail)
        | None =>
            match buildFallbackDiagram trimmed with
            | Some fallback =>
                applyGraphToCanvas rnd (rawGraph fallback);;
                setError (Some "Backend no disponible; se genero un diseno local.")
            | None =>
                setError (Some (orDefault (err_message err)
                                  "No fue posible generar el diagrama."))
            end
        end
    end;;
    setIsLoading false.

(** * Vocabulary of the properties *)

(** ** Normalized edges *)

Definition validKinds : list string :=
  ["simple"; "flechaBlanca"; "flechaNegra"; "segmentada"].

(** What the normalizer reads: the nested data, or an empty bundle. *)
Definition givenData (edge : DiagramEdge) : RelationshipData :=
  orDefault (edge_data edge) emptyData.

(** [Populated edge out]: [out] carries the data bundle the contract of the
    normalizer promises for the input [edge]. *)
Definition Populated (edge out : DiagramEdge) : Prop :=
  ∃ d k,
    edge_data out = Some d
    ∧ rel_kind d = Some k ∧ k ∈ validKinds
    ∧ k = match rel_kind (givenData edge) with
          | Some k0 => if bool_decide (k0 ∈ validKinds) then k0 else "simple"
          | None => "simple"
          end
    ∧ rel_sourceMult d
      = Some (match rel_sourceMult (givenData edge) with Some m => m | None => "1" end)
    ∧ rel_targetMult d
      = Some (match rel_targetMult (givenData edge) with Some m => m | None => "*" end)
    ∧ rel_label d
      = Some (match rel_label (givenData edge) with Some l => l | None => "" end)
    ∧ rel_id d
      = match rel_id (givenData edge) with Some i => Some i | None => edge_id edge end
    ∧ rel_source d
      = match rel_source (givenData edge) with Some s => Some s | None => edge_source edge end
    ∧ rel_target d
      = match rel_target (givenData edge) with Some t => Some t | None => edge_target edge end.

(** An edge is normalized when the normalizer produced it. *)
Definition Normalized (e : DiagramEdge) : Prop := ∃ e0, e = normalizeEdge e0.

(** ** Partial update of an entity, as specified *)

(** The update as the specification words it: a partial update in which
    the supplied fields replace the old ones and the fields that are not
    supplied ([isJoin], [joinOf]) keep their old value. *)
Definition patchNodeData (old patch : DatabaseNodeData) : DatabaseNodeData :=
  mkNodeData (label patch) (columns patch)
             (orElse (isJoin patch) (isJoin old))
             (orElse (joinOf patch) (joinOf old)).

Definition updateNodeData_partial (nodeId : string) (data : DatabaseNodeData)
    (state : DiagramState) : DiagramState :=
  withNodes state
    (map (fun node =>
            if bool_decide (node_id node = nodeId) then
              mkNode (node_id node) (node_type node) (node_position node)
                     (patchNodeData (node_data node) data)
            else node)
         (nodes state)).

(** ** Identifier fragments, as specified, and words *)

(** Letters and digits: [[A-Za-z0-9]]. *)
Definition isAlnum (c : ascii) : bool :=
  isLowerAZ c || between 65 90 c || isDigit c.

(** Every run of characters outside [[A-Za-z0-9]] becomes one underscore. *)
Fixpoint collapseNonAlnumFrom (inRun : bool) (s : string) : string :=
  match s with
  | EmptyString => EmptyString
  | String c r =>
      if isAlnum c then String c (collapseNonAlnumFrom false r)
      else if inRun then collapseNonAlnumFrom true r
           else String "_" (collapseNonAlnumFrom true r)
  end.

(** The fragment as the specification words it: the lower-cased label in
    which every run of characters that are neither letters nor digits is
    collapsed to one underscore, or "relacion" when nothing is left. *)
Definition toIdentifier_spec (value : string) : string :=
  orStr (collapseNonAlnumFrom false (toLowerCase value)) "relacion".

(** The words of a string: its maximal runs of characters that are not
    white space. *)
Definition startsWord (s : string) : bool :=
  match s with
  | EmptyString => false
  | String c _ => negb (isSpace c)
  end.

Fixpoint words (s : string) : list string :=
  match s with
  | EmptyString => []
  | String c r =>
      if isSpace c then words r
      else if startsWord r then
             match words r with
             | w :: ws => String c w :: ws
             | [] => [String c EmptyString]
             end
           else String c EmptyString :: words r
  end.

Fixpoint allChars (p : ascii → bool) (s : string) : bool :=
  match s with
  | EmptyString => true
  | String c r => p c && allChars p r
  end.


(** ** Keywords of the fallback generator *)

(** The prompt mentions a keyword: the keyword is a substring of the
    prompt, letter case apart. *)
Definition mentions (prompt_ kw : string) : Prop :=
  ∃ pre post, toLowerCase prompt_ = pre +:+ kw +:+ post.

(** ** History reconciliation, as specified *)

(** [PatchedInPlace a newPrompt graph old new]: [new] is [old] with the
    prompt and graph of the entries whose id is [a] replaced, every other
    entry and the length of the list unchanged. *)
Definition PatchedInPlace (a : Z) (newPrompt : PromptHistoryEntry → string)
    (graph : RawGraph) (old new : list PromptHistoryEntry) : Prop :=
  length new = length old
  ∧ (∀ i e, old !! i = Some e → entry_id e ≠ a → new !! i = Some e)
  ∧ (∀ i e, old !! i = Some e → entry_id e = a →
       new !! i = Some (mkHistoryEntry a (entry_userId e) (newPrompt e) graph
                                       (entry_createdAt e))).

(** A history request is among the requests sent between [w] and [w']. *)
Definition Refetched (w w' : World) : Prop :=
  GetHistory HISTORY_LIMIT ∈ drop (length (sent w)) (sent w').

(** The rule as the specification words it, for a call that started in
    [w], ended in [w'] and whose response reports the id [reported] and
    carries [graph]: patch in place when the pointer is set and the
    response reports that same id; otherwise refetch and adopt the
    reported id when there is one. *)
Definition ReconciledAsSpecified (reported : option Z) (graph : RawGraph)
    (newPrompt : PromptHistoryEntry → string) (w w' : World) : Prop :=
  match activeHistoryId (chat w) with
  | Some a =>
      if bool_decide (reported = Some a) then
        PatchedInPlace a newPrompt graph (history (chat w)) (history (chat w'))
        ∧ activeHistoryId (chat w') = Some a
      else
        Refetched w w'
        ∧ (∀ r, reported = Some r → activeHistoryId (chat w') = Some r)
  | None =>
      Refetched w w'
      ∧ (∀ r, reported = Some r → activeHistoryId (chat w') = Some r)
  end.

(** [/ai/generate] answered with neither nodes nor edges. *)
Definition emptyResponse (data : GenerateResponse) : bool :=
  (length (orDefault (gen_nodes data) []) =? 0)%nat
  && (length (orDefault (gen_edges data) []) =? 0)%nat.

Definition responseGraph (data : GenerateResponse) : DiagramGraph :=
  mkGraph (orDefault (gen_nodes data) []) (orDefault (gen_edges data) []).

(** The request [handleGenerate] sends from [w]. *)
Definition generateRequest (w : World) : Request :=
  PostGenerate (trim (prompt (chat w)))
               (mkGraph (nodes (diagram w)) (map edgePayload (edges (diagram w))))
               (activeHistoryId (chat w)).

(** The request [handleProcessImage] sends from [w]. *)
Definition visionRequest (w : World) : Request :=
  PostVision (present (Some (trim (prompt (chat w))))) (activeHistoryId (chat w)).

(** The prompt a vision reply carries, or else the one that was sent. *)
Definition promptFromResponse (data : VisionResponse) (w : World) : string :=
  orDefault (vision_prompt data) (trim (prompt (chat w))).

(** A click on a history entry, followed by the effect that mirrors the
    pointer into its reference. *)
Definition selectEntry (rnd : nat → string) (entry : PromptHistoryEntry)
    : Action unit :=
  handleHistorySelect rnd entry;; syncActiveHistoryIdRef.

(** ** Sample stores, panels and responses *)

(** A store with two tables and the join entity between them. *)
Definition enrollmentStore : DiagramState :=
  mkState
    [ buildNode "n1" "Alumno" [pkCol "n1-id" "id" "INT" false]
                (mkPos (num 0) (num 0)) noExtra;
      buildNode "n2" "Curso" [pkCol "n2-id" "id" "INT" false]
                (mkPos (num 400) (num 0)) noExtra;
      buildNode "join-n1-n2-1" "Alumno_Curso"
                [pkCol "join-n1-n2-1-id" "id" "INT" false]
                (mkPos (num 200) (num 200))
                (Some true, Some ("Alumno", "Curso")) ]
    [] "simple" "1" "*".

(** What [handleSaveTable] hands to [updateNodeData] when the join entity
    is renamed. *)
Definition renamePayload : DatabaseNodeData :=
  mkNodeData "Inscripcion" [pkCol "join-n1-n2-1-id" "id" "INT" false] None None.

Definition clienteNode : DiagramNode :=
  buildNode "c" "Cliente" [pkCol "c-id" "id" "INT" false]
            (mkPos (num 100) (num 50)) noExtra.

Definition pedidoNode : DiagramNode :=
  buildNode "p" "Pedido" [pkCol "p-id" "id" "INT" false]
            (mkPos (num 500) (num 120)) noExtra.

(** The scenario of the specification: two tables "Cliente" and "Pedido"
    and a many-to-many tool selection. *)
Definition clientePedidoStore : DiagramState :=
  mkState [clienteNode; pedidoNode] [] "segmentada" "*" "*".

Definition clientePedidoConnection : Connection :=
  mkConnection (Some "c") (Some "p") None None.

(** The panel as it is first rendered, over an empty canvas. *)
Definition initialChat : ChatState :=
  mkChat DEFAULT_PROMPT false None [] false None None false None None.

Definition initialWorld : World := mkWorld initialChat initialState [].

(** Two entries as the history service lists them, newest first. *)
Definition sampleItems : list ApiHistoryItem :=
  [ mkItem 7 1 "Crea tablas Usuario y Post" (rawGraph buildDefaultDiagram)
           "2025-01-02T10:00:00";
    mkItem 3 1 "Diagrama de un supermercado" (rawGraph buildSupermarketDiagram)
           "2025-01-01T09:00:00" ].

(** A panel that shows [sampleItems] with entry 7 active, over the canvas
    of that entry. *)
Definition activeWorld : World :=
  mkWorld
    (mkChat "Agrega una tabla Comentario" false None (map toEntry sampleItems)
            false None None false (Some 7%Z) (Some 7%Z))
    (setGraph buildDefaultDiagram initialState) [].

Definition noRandom : nat → string := λ _, "".

(** A generated graph with one more table. *)
Definition generatedGraph : DiagramGraph :=
  mkGraph
    (graph_nodes buildDefaultDiagram ++
     [ buildNode "node-comentario-ai" "Comentario"
         [pkCol "c-id" "id" "INT" false] (mkPos (num 520) (num 400)) noExtra ])
    (graph_edges buildDefaultDiagram).

Definition generatedResponse (reported : option Z) : GenerateResponse :=
  mkGenerate (Some (graph_nodes generatedGraph))
             (Some (graph_edges generatedGraph)) reported.

Definition pngFile : File := mkFile "image/png".

(** * The rest of the front end *)

(** ** The table editor ([components/TableEditor.tsx]) *)

Module TableEditor.

(** The edit buffer: the name and the columns being edited. *)
Record State := mkEditor { tableName : string; columns : list Column }.

(** The effect that seeds the buffer from the props. *)
Definition seed (initialTableName : string) (initialColumns : list Column)
    : State :=
  mkEditor initialTableName initialColumns.

(** [now] is the reading of [Date.now()]. *)
Definition handleAddColumn (now : N) (st : State) : State :=
  let newColumn :=
    mkColumn ("column-" +:+ ofN now)
             ("col_" +:+ ofN (N.of_nat (length (columns st) + 1)))
             "VARCHAR(255)" (Some false) (Some true) in
  mkEditor (tableName st) (columns st ++ [newColumn]).

Definition handleRemoveColumn (columnId : string) (st : State) : State :=
  mkEditor (tableName st)
          (filter (λ column, col_id column ≠ columnId) (columns st)).

(** [Partial<Column>] *)
Record ColumnUpdates := mkUpdates {
  upd_id : option string;
  upd_name : option string;
  upd_type : option string;
  upd_pk : option bool;
  upd_nullable : option bool
}.

(** [{ ...column, ...updates }] *)
Definition mergeColumn (column : Column) (updates : ColumnUpdates) : Column :=
  mkColumn (orDefault (upd_id updates) (col_id column))
           (orDefault (upd_name updates) (col_name column))
           (orDefault (upd_type updates) (col_type column))
           (orElse (upd_pk updates) (col_pk column))
           (orElse (upd_nullable updates) (col_nullable column)).

Definition handleUpdateColumn (columnId : string) (updates : ColumnUpdates)
    (st : State) : State :=
  mkEditor (tableName st)
          (map (λ column,
                  if bool_decide (col_id column = columnId)
                  then mergeColumn column updates else column)
               (columns st)).

Definition setTableName (value : string) (st : State) : State :=
  mkEditor value (columns st).

(** [columns.some((column) => column.pk)] *)
Definition hasPrimaryKey (st : State) : bool :=
  existsb (λ column, bool_decide (col_pk column = Some true)) (columns st).

(** What [handleSave] hands to [onSave]. *)
Definition savedName (st : State) : string := orStr (trim (tableName st)) "Tabla".

End TableEditor.

(** ** The relationship editor ([components/RelationshipEditor.tsx]) *)

Module RelationshipEditor.

(** The [relationship] prop, as the canvas builds it: every field is
    filled in. *)
Record Relationship := mkRelationship {
  id : string;
  source : option string;
  target : option string;
  kind : string;
  sourceMult : string;
  targetMult : string;
  label : string
}.

(** The form: the four pieces of state of the component. *)
Record Form := mkForm {
  formKind : string;
  formSourceMult : string;
  formTargetMult : string;
  formLabel : string
}.

Definition initialForm : Form := mkForm "simple" "1" "*" "".

(** The effect that copies the prop into the form. *)
Definition seed (relationship : option Relationship) (form : Form) : Form :=
  match relationship with
  | None => form
  | Some r => mkForm (kind r) (sourceMult r) (targetMult r) (label r)
  end.

(** What [handleSave] hands to [onSave]. *)
Definition handleSave (relationship : Relationship) (form : Form) : Relationship :=
  mkRelationship (id relationship) (source relationship) (target relationship)
                 (formKind form) (formSourceMult form) (formTargetMult form)
                 (formLabel form).

End RelationshipEditor.

(** ** More of the canvas controller ([components/DiagramCanvas.tsx]) *)

Definition SAMPLE_NODES : list DiagramNode :=
  [ buildNode "node-pacientes" "Pacientes"
      [ pkCol "pac-id" "id" "INT" false;
        col "pac-nombre" "nombre" "VARCHAR(150)" false;
        col "pac-fecha" "fecha_nacimiento" "DATE" false;
        col "pac-telefono" "telefono" "VARCHAR(40)" true ]
      (mkPos (num 80) (num 160)) noExtra;
    buildNode "node-doctores" "Doctores"
      [ pkCol "doc-id" "id" "INT" false;
        col "doc-nombre" "nombre" "VARCHAR(150)" false;
        col "doc-especialidad" "especialidad" "VARCHAR(120)" false;
        col "doc-telefono" "telefono" "VARCHAR(40)" true ]
      (mkPos (num 420) (num 80)) noExtra;
    buildNode "node-citas" "Citas"
      [ pkCol "cit-id" "id" "INT" false;
        col "cit-paciente" "paciente_id" "INT" false;
        col "cit-doctor" "doctor_id" "INT" false;
        col "cit-fecha" "fecha" "DATETIME" false;
        col "cit-motivo" "motivo" "VARCHAR(200)" true ]
      (mkPos (num 420) (num 260)) noExtra;
    buildNode "node-historial" "HistorialMedico"
      [ pkCol "hist-id" "id" "INT" false;
        col "hist-cita" "cita_id" "INT" false;
        col "hist-diagnostico" "diagnostico" "TEXT" false;
        col "hist-tratamiento" "tratamiento" "TEXT" true ]
      (mkPos (num 760) (num 220)) noExtra ].

Definition SAMPLE_EDGES : list DiagramEdge :=
  [ buildEdge "edge-pacientes-citas" "node-pacientes" "node-citas"
              "1" "*" "simple" "Paciente agenda Cita";
    buildEdge "edge-doctores-citas" "node-doctores" "node-citas"
              "1" "*" "simple" "Doctor atiende Citas";
    buildEdge "edge-citas-historial" "node-citas" "node-historial"
              "1" "1" "simple" "Cita genera Historial" ].

(** A copy of the sample, field by field. *)
Definition buildSampleGraph : DiagramGraph :=
  mkGraph
    (map (λ node,
            mkNode (node_id node) (node_type node)
                   (mkPos (pos_x (node_position node)) (pos_y (node_position node)))
                   (mkNodeData (label (node_data node))
                      (map (λ column,
                              mkColumn (col_id column) (col_name column)
                                       (col_type column) (col_pk column)
                                       (col_nullable column))
                           (columns (node_data node)))
                      (isJoin (node_data node)) (joinOf (node_data node))))
         SAMPLE_NODES)
    (map (λ edge, mkEdge (edge_id edge) (edge_source edge) (edge_target edge)
                         (edge_sourceHandle edge) (edge_targetHandle edge)
                         (edge_label edge) (edge_data edge))
         SAMPLE_EDGES).

(** The class [[a-z0-9]] *)
Definition isSlugChar (c : ascii) : bool := isLowerAZ c || isDigit c.

(** [s.replace(/[^a-z0-9]+/g, "-")] *)
Fixpoint replaceNonSlugRunsFrom (inRun : bool) (s : string) : string :=
  match s with
  | EmptyString => EmptyString
  | String c r =>
      if isSlugChar c then String c (replaceNonSlugRunsFrom false r)
      else if inRun then replaceNonSlugRunsFrom true r
           else String "-" (replaceNonSlugRunsFrom true r)
  end.

Definition isDash (c : ascii) : bool := (code c =? 45)%N.

(** The leading run of characters in the class [p] removed. *)
Fixpoint stripStart (p : ascii → bool) (s : string) : string :=
  match s with
  | EmptyString => EmptyString
  | String c r => if p c then stripStart p r else s
  end.

(** The trailing run of characters in the class [p] removed. *)
Fixpoint stripEnd (p : ascii → bool) (s : string) : string :=
  match s with
  | EmptyString => EmptyString
  | String c r =>
      if allChars p s then EmptyString else String c (stripEnd p r)
  end.

(** [value.toLowerCase().replace(/[^a-z0-9]+/g, "-").replace(/^-+|-+$/g, "")] *)
Definition slugifyName (value : string) : string :=
  stripEnd isDash (stripStart isDash (replaceNonSlugRunsFrom false (toLowerCase value))).

Definition handleLoadSample (c : CanvasState) : CanvasState :=
  mkCanvas (setGraph buildSampleGraph (store c)) None false None false.

Definition handleClearDiagram (c : CanvasState) : CanvasState :=
  mkCanvas (resetGraph (store c)) None false None false.

Definition handleEditNode (nodeId : string) (c : CanvasState) : CanvasState :=
  let node := findNode nodeId (nodes (store c)) in
  mkCanvas (store c) node (bool_decide (node ≠ None))
           (editingEdge c) (isRelationshipEditorOpen c).

Definition handleCloseEditor (c : CanvasState) : CanvasState :=
  mkCanvas (store c) None false (editingEdge c) (isRelationshipEditorOpen c).


(** The listener of the "edit-relationship" event. *)
Definition handleEditRelationship (edgeId : string) (c : CanvasState)
    : CanvasState :=
  match List.find (λ item, bool_decide (edge_id item = Some edgeId))
                  (edges (store c)) with
  | Some edge => mkCanvas (store c) (editingNode c) (isEditorOpen c)
                          (Some edge) true
  | None => c
  end.

(** The listener of the "delete-relationship" event. *)
Definition handleDeleteRelationship (edgeId : string) (c : CanvasState)
    : CanvasState :=
  mkCanvas (removeEdge edgeId (store c)) (editingNode c) (isEditorOpen c)
           (editingEdge c) (isRelationshipEditorOpen c).

(** The [relationship] prop built from [editingEdge]; the edge being
    edited was found by its id, so it has one. *)
Definition relationshipProp (editing : DiagramEdge)
    : option RelationshipEditor.Relationship :=
  match edge_id editing with
  | Some id =>
      let data := edge_data editing in
      Some (RelationshipEditor.mkRelationship id
              (edge_source editing) (edge_target editing)
              (orDefault (data ≫= rel_kind) "simple")
              (orDefault (data ≫= rel_sourceMult) "1")
              (orDefault (data ≫= rel_targetMult) "*")
              (orDefault (orElse (data ≫= rel_label) (edge_label editing)) ""))
  | None => None
  end.

(** [Partial<DiagramEdge>] with only a label. *)
Definition labelUpdate (l : string) : DiagramEdge :=
  mkEdge None None None None None (Some l) None.

Definition handleSaveRelationship
    (relationship : RelationshipEditor.Relationship) (c : CanvasState)
    : CanvasState :=
  let st1 :=
    updateEdge (RelationshipEditor.id relationship)
               (labelUpdate (RelationshipEditor.label relationship)) (store c) in
  let st2 :=
    updateEdgeData (RelationshipEditor.id relationship)
      (mkRel None None None
             (Some (RelationshipEditor.kind relationship))
             (Some (RelationshipEditor.sourceMult relationship))
             (Some (RelationshipEditor.targetMult relationship))
             (Some (RelationshipEditor.label relationship))) st1 in
  mkCanvas st2 (editingNode c) (isEditorOpen c) None false.

Definition handleCloseRelationshipEditor (c : CanvasState) : CanvasState :=
  mkCanvas (store c) (editingNode c) (isEditorOpen c) None false.

(** "Guardar" in the table editor: [onSave] is [handleSaveTable] and
    [onClose] is [handleCloseEditor]. *)
Definition saveTable (form : TableEditor.State) (c : CanvasState) : CanvasState :=
  handleCloseEditor
    (handleSaveTable (TableEditor.savedName form) (TableEditor.columns form) c).

(** "Guardar" in the relationship editor: [onSave] is
    [handleSaveRelationship]. *)
Definition saveRelationship (form : RelationshipEditor.Form) (c : CanvasState)
    : CanvasState :=
  match editingEdge c ≫= relationshipProp with
  | Some relationship =>
      handleSaveRelationship (RelationshipEditor.handleSave relationship form) c
  | None => c
  end.

(** What the export handler does to the outside: a dialog, a request, a
    file offered for download. *)
Inductive CanvasEffect : Type :=
| Alert (message : string)
| PostExport (name : string) (graph_nodes : list DiagramNode)
             (graph_edges : list DiagramEdge)
| Download (fileName : string).

(** [answer] is the value of [projectName]: what [window.prompt] returned
    ([None] when it was dismissed); [exported] is what the request settles
    to; [exporting] is [isExportingSpring] when the handler starts. The
    result is the final value of that flag and the effects in order. *)
Definition handleExportSpringBoot (answer : option string)
    (exported : Outcome unit) (exporting : bool) (c : CanvasState)
    : bool * list CanvasEffect :=
  if (length (nodes (store c)) =? 0)%nat then
    (exporting, [Alert "Necesitas al menos una tabla para exportar el backend."])
  else
    let trimmed := trim (orDefault answer "") in
    if negb (truthy trimmed) then (exporting, [])
    else
      let request := PostExport trimmed (nodes (store c)) (edges (store c)) in
      match exported with
      | Resolved _ =>
          let downloadName := orStr (slugifyName trimmed) "spring-export" in
          (false, [request; Download (downloadName +:+ ".zip")])
      | Rejected _ =>
          (false, [request; Alert "No se pudo generar el proyecto Spring Boot."])
      end.

(** ** The session store ([store/authStore.ts], [api.ts]) *)

Module AuthStore.

(** [RawAuthResponse["user"]] *)
Record RawUser := mkRawUser {
  raw_id : Z;
  raw_email : string;
  raw_created_at : option string
}.

Record User := mkUser { user_id : Z; user_email : string; user_createdAt : string }.

(** [AuthResponse]: either shape, every property optional. *)
Record AuthResponse := mkResponse {
  resp_token : option string;
  resp_access_token : option string;
  resp_user : option RawUser
}.

(** The persisted part of the store, and the [Authorization] header of the
    shared HTTP client that [setAuthToken] maintains. *)
Record State := mkAuth {
  token : option string;
  user : option User;
  isAuthenticated : bool;
  authorization : option string
}.

Definition initial : State := mkAuth None None false None.

Definition mapUser (raw : option RawUser) : option User :=
  match raw with
  | None => None
  | Some r => Some (mkUser (raw_id r) (raw_email r)
                           (orDefault (raw_created_at r) ""))
  end.

(** [setAuthToken] of [api.ts] *)
Definition setAuthToken (t : option string) (st : State) : State :=
  match present t with
  | Some v => mkAuth (token st) (user st) (isAuthenticated st)
                     (Some ("Bearer " +:+ v))
  | None => mkAuth (token st) (user st) (isAuthenticated st) None
  end.

Inductive Failure : Type :=
| MissingToken          (* the [Error] thrown by [setFromResponse] *)
| RequestFailed (err : ApiError).

(** [setFromResponse]: the new state, or the error thrown. *)
Definition setFromResponse (response : AuthResponse) (st : State)
    : State + Failure :=
  let t :=
    match present (resp_token response) with
    | Some v => Some v
    | None => present (resp_access_token response)
    end in
  let u := mapUser (resp_user response) in
  match t with
  | None => inr MissingToken
  | Some v =>
      let st1 := setAuthToken (Some v) st in
      inl (mkAuth (Some v) u true (authorization st1))
  end.

Inductive Request : Type :=
| PostLogin (username password : string)
| PostRegister (email password : string).

(** [login(payload)]: the request sent, and the new state or the error
    thrown. *)
Definition login (email password : string) (answered : Outcome AuthResponse)
    (st : State) : Request * (State + Failure) :=
  (PostLogin email password,
   match answered with
   | Resolved data => setFromResponse data st
   | Rejected err => inr (RequestFailed err)
   end).

Definition register (email password : string) (answered : Outcome AuthResponse)
    (st : State) : Request * (State + Failure) :=
  (PostRegister email password,
   match answered with
   | Resolved data => setFromResponse data st
   | Rejected err => inr (RequestFailed err)
   end).

Definition logout (st : State) : State :=
  setAuthToken None (mkAuth None None false (authorization st)).

End AuthStore.

(** ** The sign-in view ([components/AuthView.tsx]) *)

Module AuthView.

Inductive Mode : Type := Login | Register.

Record State := mkView {
  mode : Mode;
  email : string;
  password : string;
  confirmPassword : string;
  isLoading : bool;
  error : option string
}.

Definition initial : State :=
  mkView Login "admin@gmail.com" "123" "123" false None.

Definition withStatus (loading : bool) (err : option string) (v : State) : State :=
  mkView (mode v) (email v) (password v) (confirmPassword v) loading err.

Definition toggleMode (v : State) : State :=
  mkView (match mode v with Login => Register | Register => Login end)
         (email v) (password v) (confirmPassword v) (isLoading v) None.

(** The message shown for an error caught by [handleSubmit]. *)
Definition failureMessage (f : AuthStore.Failure) : string :=
  match f with
  | AuthStore.RequestFailed err =>
      if err_isAxios err then
        match present (err_detail err) with
        | Some detail => detail
        | None => "No se pudo completar la solicitud."
        end
      else "No se pudo completar la solicitud."
  | AuthStore.MissingToken => "No se pudo completar la solicitud."
  end.

(** [handleSubmit]: the view, the session and the request sent, if any. *)
Definition handleSubmit (answered : Outcome AuthStore.AuthResponse)
    (v : State) (session : AuthStore.State)
    : State * AuthStore.State * option AuthStore.Request :=
  match mode v with
  | Register =>
      if negb (bool_decide (password v = confirmPassword v)) then
        (withStatus (isLoading v) (Some "Las contrasenas no coinciden.") v,
         session, None)
      else
        let '(request, outcome) :=
          AuthStore.register (email v) (password v) answered session in
        match outcome with
        | inl session' => (withStatus false None v, session', Some request)
        | inr f => (withStatus false (Some (failureMessage f)) v, session,
                    Some request)
        end
  | Login =>
      let '(request, outcome) :=
        AuthStore.login (email v) (password v) answered session in
      match outcome with
      | inl session' => (withStatus false None v, session', Some request)
      | inr f => (withStatus false (Some (failureMessage f)) v, session,
                  Some request)
      end
  end.

End AuthView.

(** ** More of the chat panel ([components/ChatPanel.tsx]) *)

(** The title of a history entry in the list. *)
Definition truncatedPrompt (entry : PromptHistoryEntry) : string :=
  if (160 <? String.length (entry_prompt entry))%nat
  then String.substring 0 157 (entry_prompt entry) +:+ "..."
  else entry_prompt entry.

(** One result of the speech recognizer: [isFinal] and
    [result[0]?.transcript]. *)
Record SpeechResult := mkSpeech {
  speech_isFinal : bool;
  speech_transcript : option string
}.

(** The text gathered by [recognition.onresult] from [event.results],
    starting at [event.resultIndex]. *)
Definition finalText (resultIndex : nat) (results : list SpeechResult) : string :=
  foldl (λ text result,
           if speech_isFinal result
           then text +:+ orDefault (speech_transcript result) ""
           else text)
        "" (drop resultIndex results).

Definition onresult (resultIndex : nat) (results : list SpeechResult)
    : Action unit :=
  let trimmed := trim (finalText resultIndex results) in
  if negb (truthy trimmed) then skip
  else
    c ← getChat;
    let base := trim (prompt c) in
    setPrompt (if truthy base then base +:+ " " +:+ trimmed else trimmed).

(** * Vocabulary of the further properties *)

(** ** Upserts through an insertion-ordered map *)

Section Upsert.
Context {K V : Type} `{EqDecision K}.
Variable key : V → K.
Variable merge : option V → V → V.

(** The loop of [addNodes] and [addEdges] over the incoming list. *)
Definition upsertAll (m : list (K * V)) (l : list V) : list (K * V) :=
  foldl (λ next x, JSMap.set (key x) (merge (JSMap.get (key x) next) x) next) m l.

(** The loop that first copies the current list into the map. *)
Definition fillAll (m : list (K * V)) (l : list V) : list (K * V) :=
  foldl (λ next x, JSMap.set (key x) x next) m l.

(** Every value sits under its own key. *)
Definition KeyOk (m : list (K * V)) : Prop := Forall (λ kv, key kv.2 = kv.1) m.

End Upsert.

(** One call of an operation of [DiagramState]. *)
Inductive StoreOp : Type :=
| OpSetGraph (graph : DiagramGraph)
| OpResetGraph
| OpSetNodes (ns : list DiagramNode)
| OpSetEdges (es : list DiagramEdge)
| OpAddNodes (incoming : list DiagramNode)
| OpAddEdges (incoming : list DiagramEdge)
| OpUpdateNode (nodeId : string) (updates : NodeUpdates)
| OpUpdateNodeData (nodeId : string) (data : DatabaseNodeData)
| OpRemoveNode (nodeId : string)
| OpUpdateEdge (edgeId : string) (updates : DiagramEdge)
| OpUpdateEdgeData (edgeId : string) (data : RelationshipData)
| OpRemoveEdge (edgeId : string)
| OpSetSelectedRelationshipKind (kind : string)
| OpSetSelectedSourceMult (mult : string)
| OpSetSelectedTargetMult (mult : string).

Definition applyOp (op : StoreOp) (state : DiagramState) : DiagramState :=
  match op with
  | OpSetGraph graph => setGraph graph state
  | OpResetGraph => resetGraph state
  | OpSetNodes ns => setNodes ns state
  | OpSetEdges es => setEdges es state
  | OpAddNodes incoming => addNodes incoming state
  | OpAddEdges incoming => addEdges incoming state
  | OpUpdateNode nodeId updates => updateNode nodeId updates state
  | OpUpdateNodeData nodeId data => updateNodeData nodeId data state
  | OpRemoveNode nodeId => removeNode nodeId state
  | OpUpdateEdge edgeId updates => updateEdge edgeId updates state
  | OpUpdateEdgeData edgeId data => updateEdgeData edgeId data state
  | OpRemoveEdge edgeId => removeEdge edgeId state
  | OpSetSelectedRelationshipKind kind => setSelectedRelationshipKind kind state
  | OpSetSelectedSourceMult mult => setSelectedSourceMult mult state
  | OpSetSelectedTargetMult mult => setSelectedTargetMult mult state
  end.

(** A sequence of calls, first call first. *)
Definition runOps (ops : list StoreOp) (state : DiagramState) : DiagramState :=
  foldl (λ s op, applyOp op s) state ops.

(** The attribute bundle of an edge is complete: a valid kind, both
    multiplicities and a label. *)
Definition Complete (e : DiagramEdge) : Prop :=
  ∃ d k, edge_data e = Some d ∧ rel_kind d = Some k ∧ k ∈ validKinds
         ∧ is_Some (rel_sourceMult d) ∧ is_Some (rel_targetMult d)
         ∧ is_Some (rel_label d).


(** The [type] that a run of merges leaves, from the type [t] that was
    there. *)
Definition typeAcc (t : option string) (l : list DiagramNode) : option string :=
  foldl (λ t x, orElse (node_type x) t) t l.

(** The table "Pedido" moved, and a new table "Factura". *)
Definition movedPedido : DiagramNode :=
  mkNode "p" None (mkPos (num 640) (num 300))
         (mkNodeData "Pedido" [pkCol "p-id" "id" "INT" false] None None).

Definition facturaNode : DiagramNode :=
  buildNode "f" "Factura" [pkCol "f-id" "id" "INT" false]
            (mkPos (num 300) (num 400)) noExtra.

(** Every relationship of the store starts and ends at a table of the
    store. *)
Definition Integrity (state : DiagramState) : Prop :=
  Forall (λ e, edge_source e ∈ (Some ∘ node_id <$> nodes state)
               ∧ edge_target e ∈ (Some ∘ node_id <$> nodes state))
         (edges state).

(** The operations that neither replace the node list wholesale nor touch
    the endpoints of an edge. *)
Definition keepsEndpoints (op : StoreOp) : bool :=
  match op with
  | OpResetGraph | OpAddNodes _ | OpUpdateNodeData _ _ | OpRemoveNode _
  | OpUpdateEdgeData _ _ | OpRemoveEdge _
  | OpSetSelectedRelationshipKind _ | OpSetSelectedSourceMult _
  | OpSetSelectedTargetMult _ => true
  | OpSetGraph _ | OpSetNodes _ | OpSetEdges _ | OpAddEdges _
  | OpUpdateNode _ _ | OpUpdateEdge _ _ => false
  end.

(** The store holding the default fallback diagram. *)
Definition usuarioPostStore : DiagramState :=
  setGraph buildDefaultDiagram initialState.

(** The kind that reaches the store when [given] is written over [old]. *)
Definition mergedKind (given old : option string) : option string :=
  match given with
  | Some k => if isRelationshipKind (Some k) then Some k else Some KIND_FALLBACK
  | None => old
  end.


(** The edge with its top-level label replaced. *)
Definition withLabel (edge : DiagramEdge) (l : string) : DiagramEdge :=
  mkEdge (edge_id edge) (edge_source edge) (edge_target edge)
         (edge_sourceHandle edge) (edge_targetHandle edge) (Some l)
         (edge_data edge).

(** The kind that reaches the store when the form holds [k]. *)
Definition storedKind (k : string) : string :=
  if isRelationshipKind (Some k) then k else KIND_FALLBACK.

(** The edge after a save of [form] over it. *)
Definition savedEdge (form : RelationshipEditor.Form) (e : DiagramEdge)
    (d : RelationshipData) : DiagramEdge :=
  mkEdge (edge_id e) (edge_source e) (edge_target e)
         (edge_sourceHandle e) (edge_targetHandle e)
         (Some (RelationshipEditor.formLabel form))
         (Some (mkRel (rel_id d) (rel_source d) (rel_target d)
                      (Some (storedKind (RelationshipEditor.formKind form)))
                      (Some (RelationshipEditor.formSourceMult form))
                      (Some (RelationshipEditor.formTargetMult form))
                      (Some (RelationshipEditor.formLabel form)))).

(** The canvas over [usuarioPostStore], with no editor open. *)
Definition usuarioPostCanvas : CanvasState :=
  mkCanvas usuarioPostStore None false None false.

(** The string is empty or starts outside the class [p]. *)
Definition headOk (p : ascii → bool) (s : string) : bool :=
  match s with
  | EmptyString => true
  | String c _ => negb (p c)
  end.

(** Lower-case letters, digits and dashes, and no dash next to a dash. *)
Fixpoint singleDashes (s : string) : bool :=
  match s with
  | EmptyString => true
  | String c r =>
      if isSlugChar c then singleDashes r
      else isDash c && headOk isDash r && singleDashes r
  end.

(** A slug: words of lower-case letters and digits with single dashes
    between them. *)
Definition Slug (s : string) : Prop :=
  singleDashes s = true ∧ headOk isDash s = true ∧ stripEnd isDash s = s.

(** Everything of the panel that a history request leaves alone. *)
Definition sameDraft (c c' : ChatState) : Prop :=
  prompt c' = prompt c ∧ isLoading c' = isLoading c ∧ error c' = error c
  ∧ deletingId c' = deletingId c ∧ isClearingHistory c' = isClearingHistory c.

(** The pointer [loadHistory] chooses. *)
Definition nextActive (preserve : bool) (current : option Z)
    (mapped : list PromptHistoryEntry) : option Z :=
  if occursIn current mapped then current
  else if preserve && bool_decide (current = None) then None
       else firstId mapped.

(** The transcripts that count: those of the final results from
    [resultIndex] on. *)
Definition finalTranscripts (resultIndex : nat) (results : list SpeechResult)
    : list string :=
  (λ r, orDefault (speech_transcript r) "")
    <$> filter (λ r, speech_isFinal r = true) (drop resultIndex results).

(** [onRehydrateStorage]: what is done to the store read back from the
    storage, whose header is not persisted. *)
Definition onRehydrateStorage (st : AuthStore.State) : AuthStore.State :=
  match present (AuthStore.token st) with
  | Some v => AuthStore.setAuthToken (Some v) st
  | None => st
  end.

(** The store as the storage holds it: the header is not part of it. *)
Definition persisted (st : AuthStore.State) : AuthStore.State :=
  AuthStore.mkAuth (AuthStore.token st) (AuthStore.user st)
                   (AuthStore.isAuthenticated st) None.

(** The session and the header of the HTTP client agree: signed in exactly
    when there is a token, the token is not empty, the header is "Bearer "
    followed by the token, and there is no user without a token. *)
Definition SessionOk (st : AuthStore.State) : Prop :=
  AuthStore.isAuthenticated st = bool_decide (AuthStore.token st ≠ None)
  ∧ AuthStore.token st ≠ Some ""
  ∧ AuthStore.authorization st
    = (λ t, "Bearer " +:+ t) <$> AuthStore.token st
  ∧ (AuthStore.token st = None → AuthStore.user st = None).

(** The token [setFromResponse] takes from a response. *)
Definition responseToken (response : AuthStore.AuthResponse) : option string :=
  match present (AuthStore.resp_token response) with
  | Some v => Some v
  | None => present (AuthStore.resp_access_token response)
  end.

(** A graph whose node ids and edge ids are pairwise distinct, whose
    relationships all run between its own tables, whose tables all have a
    primary key, and that the store keeps exactly as it is. *)
Definition WellFormed (g : DiagramGraph) : Prop :=
  NoDup (node_id <$> graph_nodes g)
  ∧ NoDup (edge_id <$> graph_edges g)
  ∧ Integrity (setGraph g initialState)
  ∧ Forall (λ n, existsb (λ column, bool_decide (col_pk column = Some true))
                         (columns (node_data n)) = true)
           (graph_nodes g)
  ∧ normalizeEdge <$> graph_edges g = graph_edges g.

(** * Properties *)

(** Membership in a list given by its elements. *)
Ltac elem_of_list :=
  repeat first [ apply list_elem_of_here | apply list_elem_of_further ].

(** ** The edge normalizer *)

Lemma isRelationshipKind_valid (v : option string) :
  isRelationshipKind v = true ↔ ∃ k, v = Some k ∧ k ∈ validKinds.
Proof.
  unfold isRelationshipKind, validKinds. split.
  - destruct v as [k|]; [|discriminate]. intros H. exists k. split; [done|].
    repeat (apply orb_prop in H as [H|H]);
      apply bool_decide_eq_true in H; subst; elem_of_list.
  - intros (k & -> & Hk).
    rewrite !elem_of_cons in Hk.
    destruct Hk as [->|[->|[->|[->|Hk]]]]; try reflexivity.
    by apply elem_of_nil in Hk.
Qed.

Lemma normalizeEdge_kind (edge : DiagramEdge) :
  ∃ d, edge_data (normalizeEdge edge) = Some d
       ∧ isRelationshipKind (rel_kind d) = true.
Proof.
  eexists. split; [reflexivity|]. simpl.
  destruct (isRelationshipKind (rel_kind (orDefault (edge_data edge) emptyData)))
    eqn:Hk; [exact Hk | reflexivity].
Qed.

Lemma normalizeEdge_populated (edge : DiagramEdge) :
  Populated edge (normalizeEdge edge).
Proof.
  unfold Populated, givenData.
  set (data := orDefault (edge_data edge) emptyData).
  destruct (isRelationshipKind (rel_kind data)) eqn:Hk.
  - pose proof Hk as Hv. apply isRelationshipKind_valid in Hv as (k & Hd & Hin).
    exists (mkRel (orElse (rel_id data) (edge_id edge))
                  (orElse (rel_source data) (edge_source edge))
                  (orElse (rel_target data) (edge_target edge))
                  (Some k)
                  (Some (orDefault (rel_sourceMult data) "1"))
                  (Some (orDefault (rel_targetMult data) "*"))
                  (Some (orDefault (rel_label data) ""))), k.
    split.
    { unfold normalizeEdge. fold data. rewrite Hk, Hd. reflexivity. }
    rewrite Hd. rewrite bool_decide_eq_true_2 by done.
    repeat split; try done.
  - exists (mkRel (orElse (rel_id data) (edge_id edge))
                  (orElse (rel_source data) (edge_source edge))
                  (orElse (rel_target data) (edge_target edge))
                  (Some "simple")
                  (Some (orDefault (rel_sourceMult data) "1"))
                  (Some (orDefault (rel_targetMult data) "*"))
                  (Some (orDefault (rel_label data) ""))), "simple".
    split.
    { unfold normalizeEdge. fold data. rewrite Hk. reflexivity. }
    split; [done|]. split; [unfold validKinds; elem_of_list|].
    split.
    { destruct (rel_kind data) as [k0|] eqn:Hd; [|done].
      case_bool_decide as Hin; [|done].
      assert (isRelationshipKind (Some k0) = true) as Habs
        by (apply isRelationshipKind_valid; eauto).
      congruence. }
    repeat split; done.
Qed.

Lemma normalizeEdge_twice (e : DiagramEdge) :
  normalizeEdge (normalizeEdge e) = normalizeEdge e.
Proof.
  unfold normalizeEdge at 1 3.
  destruct (normalizeEdge_kind e) as (d & Hd & Hk).
  set (data := orDefault (edge_data e) emptyData) in *.
  assert (d = mkRel (orElse (rel_id data) (edge_id e))
                  (orElse (rel_source data) (edge_source e))
                  (orElse (rel_target data) (edge_target e))
                  (if isRelationshipKind (rel_kind data) then rel_kind data
                   else Some KIND_FALLBACK)
                  (Some (orDefault (rel_sourceMult data) "1"))
                  (Some (orDefault (rel_targetMult data) "*"))
                  (Some (orDefault (rel_label data) ""))) as Hdef.
  { unfold normalizeEdge in Hd. simpl in Hd. fold data in Hd. congruence. }
  rewrite Hd. simpl. rewrite Hk. rewrite Hdef. simpl.
  f_equal. f_equal. f_equal.
  - by destruct (rel_id data), (edge_id e).
  - by destruct (rel_source data), (edge_source e).
  - by destruct (rel_target data), (edge_target e).
Qed.

Lemma Normalized_fixed (e : DiagramEdge) : Normalized e → normalizeEdge e = e.
Proof. intros [e0 ->]. apply normalizeEdge_twice. Qed.

Lemma Forall_Normalized_map (es : list DiagramEdge) :
  Forall Normalized (map normalizeEdge es).
Proof. apply Forall_forall. intros e (e0 & -> & _)%list_elem_of_fmap. by exists e0. Qed.

(** C3. Every relationship that enters the store is normalized: the
    normalizer returns a data bundle whose kind is one of the four valid
    kinds ("simple" when the given kind is missing or not one of them),
    whose multiplicities default to "1" and "*", whose label defaults to
    the empty string and whose id, source and target come from the nested
    data when present there and from the top-level edge otherwise; an edge
    with only a top-level source and target gets kind "simple", "1", "*"
    and the empty label; and each of [setGraph], [setEdges], [addEdges],
    [updateEdge] and [updateEdgeData] passes what it writes through the
    normalizer. *)
Theorem normalizeEdge_populates_every_entering_edge :
  (∀ edge, Populated edge (normalizeEdge edge))
  ∧ (∀ s t : string,
       edge_data (normalizeEdge
                    (mkEdge None (Some s) (Some t) None None None None))
       = Some (mkRel None (Some s) (Some t)
                     (Some "simple") (Some "1") (Some "*") (Some "")))
  ∧ (∀ graph state, Forall Normalized (edges (setGraph graph state)))
  ∧ (∀ es state, Forall Normalized (edges (setEdges es state)))
  ∧ (∀ incoming state, Forall Normalized (edges (addEdges incoming state)))
  ∧ (∀ edgeId updates state,
       Forall (λ e, Normalized e ∨ (e ∈ edges state ∧ edge_id e ≠ Some edgeId))
              (edges (updateEdge edgeId updates state)))
  ∧ (∀ edgeId data state,
       Forall (λ e, Normalized e ∨ (e ∈ edges state ∧ edge_id e ≠ Some edgeId))
              (edges (updateEdgeData edgeId data state))).
Proof.
  split; [exact normalizeEdge_populated|].
  split; [reflexivity|].
  split; [intros; apply Forall_Normalized_map|].
  split; [intros; apply Forall_Normalized_map|].
  split; [intros; apply Forall_Normalized_map|].
  split.
  - intros edgeId updates state. apply Forall_forall.
    intros e (e0 & -> & Hin)%list_elem_of_fmap.
    case_bool_decide; [left; eexists; reflexivity | right; done].
  - intros edgeId data state. apply Forall_forall.
    intros e (e0 & -> & Hin)%list_elem_of_fmap.
    case_bool_decide; [left; eexists; reflexivity | right; done].
Qed.

(** C4. The normalizer is idempotent: normalizing twice is normalizing
    once, and an edge that is already normalized is returned equal to
    itself. *)
Theorem normalizeEdge_idempotent :
  (∀ e, normalizeEdge (normalizeEdge e) = normalizeEdge e)
  ∧ (∀ e, Normalized e → normalizeEdge e = e).
Proof. split; [exact normalizeEdge_twice | exact Normalized_fixed]. Qed.

(** The edge of the Usuario/Post graph, once in the store, is normalized,
    and normalizing it again gives it back. *)
Lemma normalizeEdge_idempotent_witness :
  let e := normalizeEdge
             (buildEdge "edge-usuario-post-ai" "node-usuario-ai" "node-post-ai"
                        "1" "*" "simple" "Usuario crea Post") in
  Normalized e ∧ normalizeEdge e = e.
Proof.
  intros e. assert (Normalized e) as Hn by (by eexists).
  split; [exact Hn|]. exact (proj2 normalizeEdge_idempotent e Hn).
Defined.

(** ** Removing an entity *)

(** C1. [removeNode E] is one state transition that keeps, in their order,
    exactly the nodes whose id is not [E] and exactly the edges whose
    source and target are not [E]; nothing else of the state changes, and
    no edge of the result has [E] as its source or target. *)
Theorem removeNode_cascade (state : DiagramState) (E : string) :
  let state' := removeNode E state in
  (nodes state' `sublist_of` nodes state
   ∧ ∀ n, n ∈ nodes state' ↔ n ∈ nodes state ∧ node_id n ≠ E)
  ∧ (edges state' `sublist_of` edges state
     ∧ ∀ e, e ∈ edges state'
            ↔ e ∈ edges state ∧ edge_source e ≠ Some E ∧ edge_target e ≠ Some E)
  ∧ Forall (λ e, edge_source e ≠ Some E ∧ edge_target e ≠ Some E) (edges state')
  ∧ selectedRelationshipKind state' = selectedRelationshipKind state
  ∧ selectedSourceMult state' = selectedSourceMult state
  ∧ selectedTargetMult state' = selectedTargetMult state.
Proof.
  simpl.
  split.
  { split; [apply sublist_filter|]. intros n. rewrite list_elem_of_filter. tauto. }
  split.
  { split; [apply sublist_filter|]. intros e. rewrite list_elem_of_filter. tauto. }
  split.
  { apply Forall_forall. intros e He%list_elem_of_filter. tauto. }
  done.
Qed.

(** ** Updating the data of an entity *)

Lemma updateNodeData_lookup (nodeId : string) (data : DatabaseNodeData)
    (state : DiagramState) (i : nat) (n : DiagramNode) :
  nodes state !! i = Some n →
  nodes (updateNodeData nodeId data state) !! i
  = Some (if bool_decide (node_id n = nodeId)
          then mkNode (node_id n) (node_type n) (node_position n) data
          else n).
Proof. intros Hn. simpl. rewrite list_lookup_fmap, Hn. reflexivity. Qed.

Lemma updateNodeData_absent (nodeId : string) (data : DatabaseNodeData)
    (state : DiagramState) :
  (∀ n, n ∈ nodes state → node_id n ≠ nodeId) →
  updateNodeData nodeId data state = state.
Proof.
  destruct state as [ns es k sm tm]. unfold updateNodeData, withNodes. simpl.
  intros Habs. f_equal.
  induction ns as [|n ns IH]; [reflexivity|]. simpl.
  rewrite bool_decide_eq_false_2 by (apply Habs; elem_of_list).
  f_equal. apply IH. intros m Hm. apply Habs. by apply list_elem_of_further.
Qed.

(** C7, as the code has it. [updateNodeData id data] replaces the whole
    data bundle of every node whose id is [id] by [data] (label, columns,
    [isJoin] and [joinOf] all become those of [data]) and keeps the id,
    type and position of that node; a node with another id, the edges and
    the selected tool are unchanged; when no node has the id the state is
    unchanged; and [handleSaveTable] on an entity that is in the store
    hands over a bundle with only a label and columns. *)
Theorem updateNodeData_replaces_data (nodeId : string)
    (data : DatabaseNodeData) (state : DiagramState) :
  let state' := updateNodeData nodeId data state in
  length (nodes state') = length (nodes state)
  ∧ (∀ i n, nodes state !! i = Some n → node_id n ≠ nodeId →
            nodes state' !! i = Some n)
  ∧ (∀ i n, nodes state !! i = Some n → node_id n = nodeId →
            ∃ n', nodes state' !! i = Some n'
                  ∧ node_id n' = node_id n ∧ node_type n' = node_type n
                  ∧ node_position n' = node_position n
                  ∧ node_data n' = data)
  ∧ edges state' = edges state
  ∧ selectedRelationshipKind state' = selectedRelationshipKind state
  ∧ selectedSourceMult state' = selectedSourceMult state
  ∧ selectedTargetMult state' = selectedTargetMult state
  ∧ ((∀ n, n ∈ nodes state → node_id n ≠ nodeId) → state' = state)
  ∧ (∀ (c : CanvasState) (editing : DiagramNode) tableName cols,
       editingNode c = Some editing →
       (∃ n, n ∈ nodes (store c) ∧ node_id n = node_id editing) →
       store (handleSaveTable tableName cols c)
       = updateNodeData (node_id editing)
                        (mkNodeData tableName cols None None) (store c)).
Proof.
  intros state'. subst state'.
  split; [simpl; apply length_fmap|].
  split.
  { intros i n Hn Hid. rewrite (updateNodeData_lookup _ _ _ _ _ Hn).
    by rewrite bool_decide_eq_false_2. }
  split.
  { intros i n Hn Hid. rewrite (updateNodeData_lookup _ _ _ _ _ Hn).
    rewrite bool_decide_eq_true_2 by done. eexists. split; [reflexivity|done]. }
  do 4 (split; [reflexivity|]).
  split; [apply updateNodeData_absent|].
  intros c editing tableName cols Hed (n & Hin & Hid).
  unfold handleSaveTable. rewrite Hed.
  assert (existsb (λ node, bool_decide (node_id node = node_id editing))
                  (nodes (store c)) = true) as ->; [|reflexivity].
  apply existsb_exists. exists n. split; [by apply list_elem_of_In|].
  by apply bool_decide_eq_true.
Qed.

(** Renaming the join entity of [enrollmentStore]: the two tables stay as
    they are, the join entity keeps its id and position and gets the new
    bundle. *)
Lemma updateNodeData_replaces_data_witness :
  let state' := updateNodeData "join-n1-n2-1" renamePayload enrollmentStore in
  (nodes enrollmentStore !! 0%nat
   = Some (buildNode "n1" "Alumno" [pkCol "n1-id" "id" "INT" false]
                     (mkPos (num 0) (num 0)) noExtra)
   ∧ nodes state' !! 0%nat = nodes enrollmentStore !! 0%nat)
  ∧ (node_id <$> nodes enrollmentStore !! 2%nat = Some "join-n1-n2-1"
     ∧ node_data <$> nodes state' !! 2%nat = Some renamePayload).
Proof.
  intros state'.
  pose proof (updateNodeData_replaces_data "join-n1-n2-1" renamePayload
                enrollmentStore) as H.
  cbv zeta in H. destruct H as (_ & Hother & Hsame & _).
  split.
  - split; [reflexivity|]. apply (Hother 0%nat); [reflexivity | discriminate].
  - split; [reflexivity|].
    destruct (Hsame 2%nat _ eq_refl eq_refl) as (n' & Hn' & _ & _ & _ & Hdata).
    subst state'. rewrite Hn'. simpl. by rewrite Hdata.
Defined.

(** C7, counterexample. Renaming the join entity of [enrollmentStore]
    through [updateNodeData] with a bundle that supplies only a label and
    columns does not preserve [isJoin] and [joinOf]: both are gone, so the
    operation is not the partial update of the claim. *)
Lemma updateNodeData_drops_join_fields :
  (isJoin ∘ node_data <$> findNode "join-n1-n2-1" (nodes enrollmentStore)
   = Some (Some true))
  ∧ (isJoin ∘ node_data
       <$> findNode "join-n1-n2-1"
             (nodes (updateNodeData "join-n1-n2-1" renamePayload enrollmentStore))
     = Some None)
  ∧ (joinOf ∘ node_data
       <$> findNode "join-n1-n2-1"
             (nodes (updateNodeData "join-n1-n2-1" renamePayload enrollmentStore))
     = Some None)
  ∧ updateNodeData "join-n1-n2-1" renamePayload enrollmentStore
    ≠ updateNodeData_partial "join-n1-n2-1" renamePayload enrollmentStore.
Proof.
  split; [reflexivity|]. split; [reflexivity|]. split; [reflexivity|].
  intros Heq.
  assert (isJoin ∘ node_data
            <$> findNode "join-n1-n2-1"
                  (nodes (updateNodeData_partial "join-n1-n2-1" renamePayload
                                                  enrollmentStore))
          = Some None) as Habs by (rewrite <- Heq; reflexivity).
  vm_compute in Habs. discriminate.
Qed.

(** ** Identifier fragments *)

Lemma isSpace_lowerChar (c : ascii) : isSpace (lowerChar c) = isSpace c.
Proof. destruct c as [[] [] [] [] [] [] [] []]; reflexivity. Qed.

Lemma toLowerCase_trimStart (s : string) :
  toLowerCase (trimStart s) = trimStart (toLowerCase s).
Proof.
  induction s as [|c r IH]; [reflexivity|]. simpl.
  rewrite isSpace_lowerChar. destruct (isSpace c); [exact IH | reflexivity].
Qed.

Lemma toLowerCase_allSpace (s : string) :
  allSpace (toLowerCase s) = allSpace s.
Proof.
  induction s as [|c r IH]; [reflexivity|]. simpl.
  by rewrite isSpace_lowerChar, IH.
Qed.

Lemma toLowerCase_trimEnd (s : string) :
  toLowerCase (trimEnd s) = trimEnd (toLowerCase s).
Proof.
  induction s as [|c r IH]; [reflexivity|].
  change (trimEnd (toLowerCase (String c r)))
    with (if allSpace (toLowerCase (String c r)) then EmptyString
          else String (lowerChar c) (trimEnd (toLowerCase r))).
  rewrite toLowerCase_allSpace.
  change (trimEnd (String c r))
    with (if allSpace (String c r) then EmptyString else String c (trimEnd r)).
  destruct (allSpace (String c r)); [reflexivity|]. simpl. by rewrite IH.
Qed.

Lemma toLowerCase_trim (s : string) : toLowerCase (trim s) = trim (toLowerCase s).
Proof. unfold trim. by rewrite toLowerCase_trimEnd, toLowerCase_trimStart. Qed.

Lemma words_allSpace (s : string) : allSpace s = true ↔ words s = [].
Proof.
  induction s as [|c r IH]; [done|]. simpl.
  destruct (isSpace c); simpl; [exact IH|].
  split; [discriminate|].
  destruct (startsWord r); [destruct (words r)|]; discriminate.
Qed.

Lemma words_trimStart (s : string) : words (trimStart s) = words s.
Proof.
  induction s as [|c r IH]; [reflexivity|]. simpl.
  destruct (isSpace c) eqn:Hc; [exact IH|]. simpl. by rewrite Hc.
Qed.

Lemma startsWord_trimStart (s : string) :
  trimStart s = EmptyString ∨ startsWord (trimStart s) = true.
Proof.
  induction s as [|c r IH]; [by left|]. simpl.
  destruct (isSpace c) eqn:Hc; [exact IH|]. right. simpl. by rewrite Hc.
Qed.

Lemma trimEnd_cons (c : ascii) (r : string) :
  trimEnd (String c r)
  = if allSpace (String c r) then EmptyString else String c (trimEnd r).
Proof. reflexivity. Qed.

Lemma concat_cons_cons (sep w w' : string) (ws : list string) :
  String.concat sep (w :: w' :: ws) = w +:+ sep +:+ String.concat sep (w' :: ws).
Proof. reflexivity. Qed.

(** Inside a run ([inRun = true]) the scan of the trimmed string yields the
    words joined by underscores. *)
Lemma replaceSpaceRuns_words (s : string) :
  replaceSpaceRunsFrom true (trimEnd s) = String.concat "_" (words s)
  ∧ (startsWord s = true →
     replaceSpaceRunsFrom false (trimEnd s) = String.concat "_" (words s)).
Proof.
  induction s as [|c r [IH1 IH2]]; [done|].
  rewrite trimEnd_cons.
  destruct (isSpace c) eqn:Hc.
  - split; [|simpl; rewrite Hc; discriminate].
    simpl. rewrite Hc. simpl.
    destruct (allSpace r) eqn:Hr.
    + apply words_allSpace in Hr. by rewrite Hr.
    + simpl. rewrite Hc. exact IH1.
  - assert (allSpace (String c r) = false) as -> by (simpl; by rewrite Hc).
    assert (∀ b, replaceSpaceRunsFrom b (String c (trimEnd r))
                 = String.concat "_" (words (String c r))) as Hboth.
    { intros b. simpl. rewrite Hc.
      destruct (startsWord r) eqn:Hw.
      - rewrite (IH2 eq_refl).
        destruct (words r) as [|w ws] eqn:Hws.
        + apply words_allSpace in Hws. destruct r as [|c' r']; [done|].
          simpl in Hw, Hws. destruct (isSpace c'); done.
        + destruct ws; reflexivity.
      - destruct r as [|c' r']; [reflexivity|].
        simpl in Hw. apply negb_false_iff in Hw.
        rewrite trimEnd_cons.
        destruct (allSpace (String c' r')) eqn:Hr.
        + apply words_allSpace in Hr. rewrite Hr. reflexivity.
        + rewrite trimEnd_cons, Hr in IH1.
          destruct (words (String c' r')) as [|w ws] eqn:Hws.
          { apply words_allSpace in Hws. congruence. }
          rewrite concat_cons_cons.
          simpl replaceSpaceRunsFrom. rewrite Hw.
          simpl in IH1. rewrite Hw in IH1. rewrite IH1. reflexivity. }
    split; [apply Hboth | intros _; apply Hboth].
Qed.

Lemma replaceSpaceRuns_trim (s : string) :
  replaceSpaceRuns (trim s) = String.concat "_" (words s).
Proof.
  unfold replaceSpaceRuns, trim. rewrite <- words_trimStart.
  destruct (startsWord_trimStart s) as [He|Hw].
  - rewrite He. reflexivity.
  - by apply replaceSpaceRuns_words.
Qed.

Lemma keepIdentChars_app (a b : string) :
  keepIdentChars (a +:+ b) = keepIdentChars a +:+ keepIdentChars b.
Proof.
  induction a as [|c r IH]; [reflexivity|].
  change (String c r +:+ b) with (String c (r +:+ b)). simpl.
  destruct (isIdentChar c); rewrite IH; reflexivity.
Qed.

Lemma keepIdentChars_concat (ws : list string) :
  keepIdentChars (String.concat "_" ws)
  = String.concat "_" (map keepIdentChars ws).
Proof.
  induction ws as [|w ws IH]; [reflexivity|].
  destruct ws as [|w' ws]; [reflexivity|].
  rewrite concat_cons_cons, !keepIdentChars_app, IH. reflexivity.
Qed.

Lemma keepIdentChars_allChars (s : string) :
  allChars isIdentChar (keepIdentChars s) = true.
Proof.
  induction s as [|c r IH]; [reflexivity|]. simpl.
  destruct (isIdentChar c) eqn:Hc; [simpl; by rewrite Hc|exact IH].
Qed.

Lemma toIdentifier_words (value : string) :
  toIdentifier value
  = orStr (String.concat "_" (map keepIdentChars (words (toLowerCase value))))
          "relacion".
Proof.
  unfold toIdentifier.
  by rewrite toLowerCase_trim, replaceSpaceRuns_trim, keepIdentChars_concat.
Qed.

Lemma isAlnum_not_space (c : ascii) : isAlnum c = true → isSpace c = false.
Proof. destruct c as [[] [] [] [] [] [] [] []]; vm_compute; congruence. Qed.

Lemma isAlnum_lowerChar (c : ascii) :
  isAlnum c = true →
  isAlnum (lowerChar c) = true ∧ isIdentChar (lowerChar c) = true.
Proof. destruct c as [[] [] [] [] [] [] [] []]; vm_compute; intuition congruence. Qed.

Lemma alnum_trim (s : string) : allChars isAlnum s = true → trim s = s.
Proof.
  intros Hs. unfold trim.
  assert (trimStart s = s) as ->.
  { destruct s as [|c r]; [reflexivity|]. simpl in *.
    apply andb_prop in Hs as [Hc _]. by rewrite (isAlnum_not_space c Hc). }
  induction s as [|c r IH]; [reflexivity|].
  simpl in Hs. apply andb_prop in Hs as [Hc Hr].
  rewrite trimEnd_cons. simpl. rewrite (isAlnum_not_space c Hc). simpl.
  by rewrite IH.
Qed.

Lemma alnum_replaceSpaceRuns (b : bool) (s : string) :
  allChars isAlnum s = true → replaceSpaceRunsFrom b (toLowerCase s) = toLowerCase s.
Proof.
  revert b. induction s as [|c r IH]; intros b Hs; [reflexivity|].
  simpl in Hs. apply andb_prop in Hs as [Hc Hr]. simpl.
  rewrite isSpace_lowerChar, (isAlnum_not_space c Hc). by rewrite IH.
Qed.

Lemma alnum_keepIdentChars (s : string) :
  allChars isAlnum s = true → keepIdentChars (toLowerCase s) = toLowerCase s.
Proof.
  induction s as [|c r IH]; intros Hs; [reflexivity|].
  simpl in Hs. apply andb_prop in Hs as [Hc Hr]. simpl.
  destruct (isAlnum_lowerChar c Hc) as [_ ->]. by rewrite IH.
Qed.

Lemma alnum_collapse (b : bool) (s : string) :
  allChars isAlnum s = true →
  collapseNonAlnumFrom b (toLowerCase s) = toLowerCase s.
Proof.
  revert b. induction s as [|c r IH]; intros b Hs; [reflexivity|].
  simpl in Hs. apply andb_prop in Hs as [Hc Hr]. simpl.
  destruct (isAlnum_lowerChar c Hc) as [-> _]. by rewrite IH.
Qed.

Lemma toIdentifier_alnum (value : string) :
  allChars isAlnum value = true →
  toIdentifier value = orStr (toLowerCase value) "relacion"
  ∧ toIdentifier value = toIdentifier_spec value.
Proof.
  intros Hs. unfold toIdentifier, toIdentifier_spec.
  rewrite alnum_trim by done. unfold replaceSpaceRuns.
  rewrite alnum_replaceSpaceRuns, alnum_keepIdentChars, alnum_collapse by done.
  done.
Qed.

Lemma toIdentifier_chars (value : string) :
  toIdentifier value ≠ "" ∧ allChars isIdentChar (toIdentifier value) = true.
Proof.
  unfold toIdentifier, orStr.
  pose proof (keepIdentChars_allChars
                (replaceSpaceRuns (toLowerCase (trim value)))) as Hall.
  destruct (keepIdentChars (replaceSpaceRuns (toLowerCase (trim value))));
    simpl; [split; [discriminate | reflexivity]|].
  split; [discriminate | exact Hall].
Qed.

(** C6, as the code has it. The fragment is made of the words of the
    lower-cased label (its maximal runs without white space, so leading
    and trailing white space is dropped), each stripped of every character
    other than a-z, 0-9 and underscore, joined by single underscores, or
    "relacion" when that text is empty; it is never empty and has only
    characters a-z, 0-9 and underscore; on a label made of letters and
    digits only it is the lower-cased label, as the specification words
    it; and connecting "Cliente" to "Pedido" in the many-to-many case
    names the foreign keys cliente_id and pedido_id. *)
Theorem toIdentifier_fragment (value : string) :
  toIdentifier value
  = orStr (String.concat "_" (map keepIdentChars (words (toLowerCase value))))
          "relacion"
  ∧ toIdentifier value ≠ ""
  ∧ allChars isIdentChar (toIdentifier value) = true
  ∧ (allChars isAlnum value = true →
     toIdentifier value = orStr (toLowerCase value) "relacion"
     ∧ toIdentifier value = toIdentifier_spec value)
  ∧ (col_name <$>
       concat (columns ∘ node_data <$>
                 filter (λ n, isJoin (node_data n) = Some true)
                        (nodes (onConnect 1700000000000 1700000000001
                                          clientePedidoConnection
                                          clientePedidoStore))))
    = ["id"; "cliente_id"; "pedido_id"].
Proof.
  split; [apply toIdentifier_words|].
  split; [apply toIdentifier_chars|].
  split; [apply toIdentifier_chars|].
  split; [apply toIdentifier_alnum|].
  vm_compute. reflexivity.
Qed.

(** On the label "Cliente", made of letters only, the fragment is the
    lower-cased label. *)
Lemma toIdentifier_fragment_witness :
  allChars isAlnum "Cliente" = true ∧ toIdentifier "Cliente" = "cliente".
Proof.
  split; [reflexivity|].
  destruct (toIdentifier_fragment "Cliente") as (_ & _ & _ & Halnum & _).
  destruct (Halnum eq_refl) as [-> _]. reflexivity.
Defined.

(** C6, counterexample. On "Order-Item" the code deletes the hyphen and
    yields "orderitem", where collapsing the run of non-alphanumeric
    characters to one underscore would yield "order_item"; on "a - b" it
    yields two underscores in a row. *)
Lemma toIdentifier_deletes_punctuation :
  toIdentifier "Order-Item" = "orderitem"
  ∧ toIdentifier_spec "Order-Item" = "order_item"
  ∧ toIdentifier "Order-Item" ≠ toIdentifier_spec "Order-Item"
  ∧ toIdentifier "a - b" = "a__b"
  ∧ toIdentifier_spec "a - b" = "a_b".
Proof. vm_compute. repeat split; discriminate. Qed.

(** ** History reconciliation *)

Lemma loadHistory_diagram (preserve : bool)
    (outcome : Outcome (option (list ApiHistoryItem))) (w : World) :
  diagram (exec (loadHistory preserve outcome) w) = diagram w.
Proof. destruct outcome; reflexivity. Qed.

Lemma occursIn_false (active : option Z) (mapped : list PromptHistoryEntry) :
  (∀ entry, entry ∈ mapped → Some (entry_id entry) ≠ active) →
  occursIn active mapped = false.
Proof.
  intros Hnot. destruct active as [a|]; [|reflexivity]. simpl.
  apply not_true_is_false. intros (entry & Hin & Hid)%existsb_exists.
  apply bool_decide_eq_true in Hid. apply (Hnot entry).
  - by apply list_elem_of_In.
  - by rewrite Hid.
Qed.

(** C10. A refetch without the preserve-null-selection option (the fetch
    on mount is one) that succeeds while the previously active id is not
    among the fetched entries sets the pointer, and the reference that
    mirrors it, to the id of the first fetched entry, or to null when
    nothing was fetched, and stores the fetched entries; no refetch,
    whatever its option and outcome, touches the nodes and edges of the
    store. *)
Theorem loadHistory_adopts_first_entry (w : World)
    (data : option (list ApiHistoryItem)) :
  let mapped := map toEntry (orDefault data []) in
  (∀ entry, entry ∈ mapped → Some (entry_id entry) ≠ activeHistoryIdRef (chat w)) →
  let w' := exec (loadHistory false (Resolved data)) w in
  activeHistoryId (chat w') = entry_id <$> head mapped
  ∧ activeHistoryIdRef (chat w') = entry_id <$> head mapped
  ∧ history (chat w') = mapped
  ∧ sent w' = sent w ++ [GetHistory HISTORY_LIMIT]
  ∧ exec (mountEffect (Resolved data)) w = w'
  ∧ (∀ preserve outcome w0,
       diagram (exec (loadHistory preserve outcome) w0) = diagram w0).
Proof.
  intros mapped Hnot w'.
  assert (activeHistoryId (chat w') = firstId mapped
          ∧ activeHistoryIdRef (chat w') = firstId mapped) as [Ha Hr].
  { subst w'. cbv [exec loadHistory]. simpl. fold mapped.
    rewrite (occursIn_false _ _ Hnot). done. }
  assert (firstId mapped = entry_id <$> head mapped) as Hfirst
    by (by destruct mapped).
  rewrite Ha, Hr, Hfirst.
  repeat split; try reflexivity.
  intros. apply loadHistory_diagram.
Qed.

(** The panel mounts with no active entry and the service lists two
    entries: entry 7, the newest, becomes active. *)
Lemma loadHistory_adopts_first_entry_witness :
  (∀ entry, entry ∈ map toEntry (orDefault (Some sampleItems) []) →
            Some (entry_id entry) ≠ activeHistoryIdRef (chat initialWorld))
  ∧ activeHistoryId (chat (exec (loadHistory false (Resolved (Some sampleItems)))
                                initialWorld))
    = Some 7%Z.
Proof.
  split; [intros entry _; discriminate|].
  apply (loadHistory_adopts_first_entry initialWorld (Some sampleItems)).
  intros entry _. discriminate.
Defined.

(** ** Clearing the history *)

Lemma handleDeleteEntry_while_clearing (w : World) (historyId : Z)
    (confirmed : bool) (deleted : Outcome unit)
    (reloaded : Outcome (option (list ApiHistoryItem))) :
  isClearingHistory (chat w) = true →
  handleDeleteEntry historyId confirmed deleted reloaded w = (tt, w).
Proof.
  intros Hc. cbv [handleDeleteEntry mbind Action_bind getChat].
  rewrite Hc. reflexivity.
Qed.

Lemma length_zero_false {A : Type} (l : list A) :
  l ≠ [] → (length l =? 0)%nat = false.
Proof. destruct l; [done | reflexivity]. Qed.

(** C8. A clear-all that is confirmed over a non-empty history and whose
    request succeeds sends exactly one request (delete-all), sets the
    pointer and its reference to null, the prompt to the default seed
    text, the cached history to the empty list, and leaves the store as it
    was; between the moment the request is sent and the moment it settles
    the clearing flag is up, and while that flag is up a delete-entry
    request returns at once: it sends no request and changes nothing. *)
Theorem handleClearHistory_resets (w : World) :
  history (chat w) ≠ [] →
  let w' := exec (handleClearHistory true (Resolved tt)) w in
  let busy := exec (handleClearHistory_begin true) w in
  (activeHistoryId (chat w') = None
   ∧ activeHistoryIdRef (chat w') = None
   ∧ prompt (chat w') = DEFAULT_PROMPT
   ∧ history (chat w') = []
   ∧ isClearingHistory (chat w') = false
   ∧ diagram w' = diagram w
   ∧ sent w' = sent w ++ [DeleteHistory])
  ∧ (result (handleClearHistory_begin true) w = true
     ∧ isClearingHistory (chat busy) = true
     ∧ w' = exec (handleClearHistory_settle (Resolved tt)) busy)
  ∧ (∀ historyId confirmed deleted reloaded,
       handleDeleteEntry historyId confirmed deleted reloaded busy = (tt, busy))
  ∧ (∀ w0 historyId confirmed deleted reloaded,
       isClearingHistory (chat w0) = true →
       handleDeleteEntry historyId confirmed deleted reloaded w0 = (tt, w0)).
Proof.
  intros Hne w' busy.
  pose proof (length_zero_false _ Hne) as Hlen.
  assert (handleClearHistory_begin true w
          = (true, mkWorld
               (mkChat (prompt (chat w)) (isLoading (chat w)) (error (chat w))
                       (history (chat w)) (isHistoryLoading (chat w)) None
                       (deletingId (chat w)) true (activeHistoryId (chat w))
                       (activeHistoryIdRef (chat w)))
               (diagram w) (sent w ++ [DeleteHistory]))) as Hbegin.
  { cbv [handleClearHistory_begin mbind Action_bind getChat].
    rewrite Hlen. reflexivity. }
  assert (busy = snd (handleClearHistory_begin true w)) as Hbusy by reflexivity.
  assert (w' = exec (handleClearHistory_settle (Resolved tt)) busy) as Hw'.
  { subst w'. rewrite Hbusy.
    cbv [exec handleClearHistory mbind Action_bind].
    rewrite Hbegin. reflexivity. }
  rewrite Hbegin in Hbusy. simpl in Hbusy.
  split.
  { rewrite Hw', Hbusy. repeat split; reflexivity. }
  split.
  { unfold result. rewrite Hbegin. rewrite Hbusy. repeat split; try reflexivity.
    rewrite Hw', Hbusy. reflexivity. }
  split.
  { intros. apply handleDeleteEntry_while_clearing. rewrite Hbusy. reflexivity. }
  intros. by apply handleDeleteEntry_while_clearing.
Qed.

(** Clearing the history of [activeWorld]; a delete of entry 7 requested
    meanwhile does nothing. *)
Lemma handleClearHistory_resets_witness :
  history (chat activeWorld) ≠ []
  ∧ prompt (chat (exec (handleClearHistory true (Resolved tt)) activeWorld))
    = DEFAULT_PROMPT
  ∧ handleDeleteEntry 7 true (Resolved tt) (Resolved (Some []))
                      (exec (handleClearHistory_begin true) activeWorld)
    = (tt, exec (handleClearHistory_begin true) activeWorld).
Proof.
  assert (history (chat activeWorld) ≠ []) as Hne by discriminate.
  split; [exact Hne|].
  pose proof (handleClearHistory_resets activeWorld Hne) as H.
  cbv zeta in H. destruct H as [(_ & _ & Hprompt & _) (_ & Hdelete & _)].
  split; [exact Hprompt | apply Hdelete].
Defined.

(** ** The offline fallback generator *)

Lemma prefix_app (sub s : string) :
  String.prefix sub s = true ↔ ∃ post, s = sub +:+ post.
Proof.
  revert s. induction sub as [|c sub IH]; intros s.
  - split; [intros _; by exists s | by destruct s].
  - destruct s as [|c' s]; simpl.
    + split; [discriminate | intros [post Hp]; discriminate].
    + destruct (Ascii.ascii_dec c c') as [->|Hne].
      * rewrite IH. split; intros [post Hp]; exists post.
        -- by rewrite Hp.
        -- by injection Hp.
      * split; [discriminate|]. intros [post Hp]. injection Hp. congruence.
Qed.

(** [includes] decides the substring relation. *)
Lemma includes_substring (s sub : string) :
  includes s sub = true ↔ ∃ pre post, s = pre +:+ sub +:+ post.
Proof.
  induction s as [|c r IH].
  - change (includes "" sub) with (String.prefix sub "" || false).
    rewrite orb_false_r, prefix_app. split.
    + intros [post Hp]. by exists "", post.
    + intros (pre & post & Hp). destruct pre; [by exists post|discriminate].
  - change (includes (String c r) sub)
      with (String.prefix sub (String c r) || includes r sub).
    rewrite orb_true_iff, IH, prefix_app. split.
    + intros [[post Hp]|(pre & post & Hp)].
      * by exists "", post.
      * exists (String c pre), post. by rewrite Hp.
    + intros (pre & post & Hp). destruct pre as [|c' pre].
      * left. by exists post.
      * right. exists pre, post. by injection Hp.
Qed.

Lemma mentions_includes (prompt_ kw : string) :
  mentions prompt_ kw ↔ includes (toLowerCase prompt_) kw = true.
Proof. symmetry. apply includes_substring. Qed.

Lemma not_mentions_includes (prompt_ kw : string) :
  ¬ mentions prompt_ kw ↔ includes (toLowerCase prompt_) kw = false.
Proof. rewrite mentions_includes. apply not_true_iff_false. Qed.

Lemma handleGenerate_fallback (rnd : nat → string) (err : ApiError)
    (reloaded : Outcome (option (list ApiHistoryItem))) (w : World)
    (fallback : DiagramGraph) :
  truthy (trim (prompt (chat w))) = true →
  (if err_isAxios err then present (err_detail err) else None) = None →
  buildFallbackDiagram (trim (prompt (chat w))) = Some fallback →
  let w' := exec (handleGenerate rnd (Rejected err) reloaded) w in
  diagram w'
  = setGraph (mkGraph (graph_nodes fallback)
                      (imap (sanitizeEdge rnd) (graph_edges fallback)))
             (diagram w)
  ∧ error (chat w') = Some "Backend no disponible; se genero un diseno local."
  ∧ isLoading (chat w') = false
  ∧ history (chat w') = history (chat w)
  ∧ activeHistoryId (chat w') = activeHistoryId (chat w).
Proof.
  intros Ht Hd Hf. cbv [exec handleGenerate mbind Action_bind getChat].
  rewrite Ht. cbn [negb]. cbv [setIsLoading setError modifyChat send].
  cbn [fst snd chat diagram sent]. rewrite Hd, Hf.
  repeat split; reflexivity.
Qed.

(** C9. The fallback generator is a function of the prompt alone that
    looks for its keywords as substrings of the lower-cased prompt, in
    this order: a prompt that mentions "supermercado" or "supermarket"
    gets the supermarket graph; one that mentions neither but mentions
    "usuario" or "post" gets the Usuario/Post graph, which has two nodes
    and one edge; any other prompt gets no result; two prompts equal up
    to letter case get the same result. When the generation request for
    the prompt "Crea tablas Usuario y Post" fails with no answer from the
    service, the canvas holds that two-node, one-edge graph. *)
Theorem buildFallbackDiagram_by_keyword :
  (∀ p, mentions p "supermercado" ∨ mentions p "supermarket" →
        buildFallbackDiagram p = Some buildSupermarketDiagram)
  ∧ (∀ p, ¬ mentions p "supermercado" → ¬ mentions p "supermarket" →
          mentions p "usuario" ∨ mentions p "post" →
          buildFallbackDiagram p = Some buildDefaultDiagram)
  ∧ (∀ p, ¬ mentions p "supermercado" → ¬ mentions p "supermarket" →
          ¬ mentions p "usuario" → ¬ mentions p "post" →
          buildFallbackDiagram p = None)
  ∧ (∀ p q, toLowerCase p = toLowerCase q →
            buildFallbackDiagram p = buildFallbackDiagram q)
  ∧ (label ∘ node_data <$> graph_nodes buildDefaultDiagram = ["Usuario"; "Post"]
     ∧ length (graph_edges buildDefaultDiagram) = 1)
  ∧ (∀ (w : World) rnd err reloaded,
       prompt (chat w) = "Crea tablas Usuario y Post" →
       err_detail err = None →
       let w' := exec (handleGenerate rnd (Rejected err) reloaded) w in
       nodes (diagram w') = graph_nodes buildDefaultDiagram
       ∧ edges (diagram w') = graph_edges buildDefaultDiagram
       ∧ length (nodes (diagram w')) = 2
       ∧ length (edges (diagram w')) = 1
       ∧ isLoading (chat w') = false).
Proof.
  split.
  { intros p Hp. unfold buildFallbackDiagram.
    rewrite !mentions_includes in Hp.
    destruct Hp as [-> | ->]; [reflexivity|]. by rewrite orb_true_r. }
  split.
  { intros p H1 H2 Hp. unfold buildFallbackDiagram.
    apply not_mentions_includes in H1, H2. rewrite H1, H2.
    rewrite !mentions_includes in Hp. cbn [orb].
    destruct Hp as [-> | ->]; [reflexivity|]. by rewrite orb_true_r. }
  split.
  { intros p H1 H2 H3 H4. unfold buildFallbackDiagram.
    apply not_mentions_includes in H1, H2, H3, H4.
    by rewrite H1, H2, H3, H4. }
  split.
  { intros p q Hpq. unfold buildFallbackDiagram. by rewrite Hpq. }
  split; [split; reflexivity|].
  intros w rnd err reloaded Hp Hd w'.
  destruct (handleGenerate_fallback rnd err reloaded w buildDefaultDiagram)
    as (Hg & _ & Hl & _).
  - rewrite Hp. reflexivity.
  - rewrite Hd. by destruct (err_isAxios err).
  - rewrite Hp. reflexivity.
  - fold w' in Hg, Hl. rewrite Hg. repeat split; try reflexivity. exact Hl.
Qed.

(** The prompt of the scenario mentions "usuario" and no supermarket
    keyword; with the service unreachable the canvas gets the tables
    Usuario and Post. *)
Lemma buildFallbackDiagram_by_keyword_witness :
  (¬ mentions "Crea tablas Usuario y Post" "supermercado"
   ∧ ¬ mentions "Crea tablas Usuario y Post" "supermarket"
   ∧ mentions "Crea tablas Usuario y Post" "usuario")
  ∧ buildFallbackDiagram "Crea tablas Usuario y Post" = Some buildDefaultDiagram
  ∧ (label ∘ node_data)
      <$> nodes (diagram
            (exec (handleGenerate noRandom
                     (Rejected (mkError true None (Some "Network Error")))
                     (Resolved None))
                  (mkWorld (mkChat "Crea tablas Usuario y Post" false None []
                                   false None None false None None)
                           initialState [])))
    = ["Usuario"; "Post"].
Proof.
  assert (¬ mentions "Crea tablas Usuario y Post" "supermercado") as H1
    by (apply not_mentions_includes; reflexivity).
  assert (¬ mentions "Crea tablas Usuario y Post" "supermarket") as H2
    by (apply not_mentions_includes; reflexivity).
  assert (mentions "Crea tablas Usuario y Post" "usuario") as H3
    by (apply mentions_includes; reflexivity).
  split; [done|].
  destruct buildFallbackDiagram_by_keyword as (_ & Hdefault & _ & _ & _ & Hrun).
  split; [apply Hdefault; [exact H1 | exact H2 | by left]|].
  pose proof (Hrun (mkWorld (mkChat "Crea tablas Usuario y Post" false None []
                                    false None None false None None)
                            initialState [])
                   noRandom (mkError true None (Some "Network Error"))
                   (Resolved None) eq_refl eq_refl) as H.
  cbv zeta in H. destruct H as (Hnodes & _). rewrite Hnodes. reflexivity.
Defined.

(** ** Reconciling the history after a generation or vision call *)

Lemma patchEntry_PatchedInPlace (a : Z) (newPrompt : PromptHistoryEntry → string)
    (graph : RawGraph) (old : list PromptHistoryEntry) :
  PatchedInPlace a newPrompt graph old (map (patchEntry (Some a) newPrompt graph) old).
Proof.
  split; [apply length_fmap|].
  split; intros i e He Hid; rewrite list_lookup_fmap, He; simpl; unfold patchEntry.
  - rewrite bool_decide_eq_false_2; [reflexivity | congruence].
  - rewrite bool_decide_eq_true_2; [by rewrite Hid | congruence].
Qed.

Lemma handleGenerate_continuing (rnd : nat → string) (data : GenerateResponse)
    (reloaded : Outcome (option (list ApiHistoryItem))) (w : World) (a : Z) :
  truthy (trim (prompt (chat w))) = true →
  emptyResponse data = false →
  activeHistoryId (chat w) = Some a →
  let w' := exec (handleGenerate rnd (Resolved data) reloaded) w in
  history (chat w')
  = map (patchEntry (Some a) (λ _, trim (prompt (chat w)))
                    (rawGraph (responseGraph data)))
        (history (chat w))
  ∧ activeHistoryId (chat w') = Some a
  ∧ activeHistoryIdRef (chat w') = activeHistoryIdRef (chat w)
  ∧ sent w' = sent w ++ [generateRequest w].
Proof.
  intros Ht Hne Ha. unfold emptyResponse in Hne.
  cbv [exec handleGenerate mbind Action_bind getChat].
  rewrite Ht, Ha. cbn [negb]. simpl. rewrite Hne. simpl.
  unfold generateRequest. rewrite Ha. done.
Qed.

Lemma handleGenerate_fresh (rnd : nat → string) (data : GenerateResponse)
    (reloaded : Outcome (option (list ApiHistoryItem))) (w : World) :
  truthy (trim (prompt (chat w))) = true →
  emptyResponse data = false →
  activeHistoryId (chat w) = None →
  let w' := exec (handleGenerate rnd (Resolved data) reloaded) w in
  sent w' = sent w ++ [generateRequest w; GetHistory HISTORY_LIMIT]
  ∧ activeHistoryId (chat w')
    = activeHistoryId (chat (exec (loadHistory false reloaded) w))
  ∧ history (chat w') = history (chat (exec (loadHistory false reloaded) w)).
Proof.
  intros Ht Hne Ha. unfold emptyResponse in Hne.
  cbv [exec handleGenerate mbind Action_bind getChat].
  rewrite Ht, Ha. cbn [negb]. simpl. rewrite Hne. simpl.
  unfold generateRequest. rewrite Ha.
  destruct reloaded; simpl; rewrite <- app_assoc; done.
Qed.

Lemma handleProcessImage_same (rnd : nat → string) (f : File)
    (data : VisionResponse)
    (reloaded : Outcome (option (list ApiHistoryItem))) (w : World) (a : Z) :
  startsWith (file_type f) "image/" = true →
  activeHistoryId (chat w) = Some a →
  vision_history_id data = Some a →
  let w' := exec (handleProcessImage rnd (Some f) (Resolved data) reloaded) w in
  history (chat w')
  = map (patchEntry (Some a)
                    (λ entry, orStr (promptFromResponse data w) (entry_prompt entry))
                    (vision_graph data))
        (history (chat w))
  ∧ activeHistoryId (chat w') = Some a
  ∧ sent w' = sent w ++ [visionRequest w].
Proof.
  intros Hf Ha Hr.
  cbv [exec handleProcessImage]. rewrite Hf. cbn [negb].
  cbv [mbind Action_bind getChat]. rewrite Ha, Hr. simpl.
  rewrite bool_decide_eq_true_2 by done. simpl.
  unfold visionRequest. rewrite Ha.
  destruct (a =? 0)%Z; simpl; rewrite ?Ha; done.
Qed.

Lemma handleProcessImage_other (rnd : nat → string) (f : File)
    (data : VisionResponse)
    (reloaded : Outcome (option (list ApiHistoryItem))) (w : World) :
  startsWith (file_type f) "image/" = true →
  activeHistoryId (chat w) = None
  ∨ vision_history_id data ≠ activeHistoryId (chat w) →
  let w' := exec (handleProcessImage rnd (Some f) (Resolved data) reloaded) w in
  sent w' = sent w ++ [visionRequest w; GetHistory HISTORY_LIMIT]
  ∧ activeHistoryId (chat w')
    = (if truthyId (vision_history_id data) then vision_history_id data
       else activeHistoryId (chat (exec (loadHistory false reloaded) w)))
  ∧ history (chat w') = history (chat (exec (loadHistory false reloaded) w)).
Proof.
  intros Hf Hcase.
  cbv [exec handleProcessImage]. rewrite Hf. cbn [negb].
  cbv [mbind Action_bind getChat].
  assert (bool_decide (activeHistoryId (chat w) ≠ None)
          && sameId (vision_history_id data) (activeHistoryId (chat w)) = false)
    as Hno.
  { destruct Hcase as [Ha|Hne].
    - rewrite Ha. reflexivity.
    - destruct (activeHistoryId (chat w)) as [a|]; [|reflexivity]. simpl.
      by rewrite bool_decide_eq_false_2. }
  simpl. rewrite Hno. unfold visionRequest.
  assert ((if bool_decide (activeHistoryId (chat w) ≠ None)
           then activeHistoryId (chat w) else None) = activeHistoryId (chat w))
    as -> by (by destruct (activeHistoryId (chat w))).
  destruct reloaded, (truthyId (vision_history_id data));
    simpl; rewrite <- app_assoc; done.
Qed.

Lemma Refetched_last (w w' : World) (r : Request) :
  sent w' = sent w ++ [r; GetHistory HISTORY_LIMIT] → Refetched w w'.
Proof.
  intros Hs. unfold Refetched. rewrite Hs, drop_app_length. elem_of_list.
Qed.

(** C5, as the code has it. After a successful vision call: when the
    pointer is set and the response reports that same id, the entries with
    that id get the graph of the response and its prompt (their own
    prompt when that one is empty), the other entries, the length of the
    list and the pointer are unchanged and no history request is sent;
    otherwise the history is refetched and the pointer becomes the
    reported id when that id is present and not zero, and what the
    refetch chose when it is not. After a successful generation call with
    a non-empty graph, whose response carries no id that the handler
    reads: when the pointer is set, the entries with that id get the
    submitted prompt and the generated graph, the rest is unchanged and
    no history request is sent; when the pointer is null the history is
    refetched and the pointer is what the refetch chose. Generating right
    after selecting an entry of the list patches that entry: the list
    keeps its length and the pointer stays on the entry. *)
Theorem reconcile_after_call :
  (∀ rnd f data reloaded w a,
     startsWith (file_type f) "image/" = true →
     activeHistoryId (chat w) = Some a →
     vision_history_id data = Some a →
     let w' := exec (handleProcessImage rnd (Some f) (Resolved data) reloaded) w in
     PatchedInPlace a
       (λ entry, orStr (promptFromResponse data w) (entry_prompt entry))
       (vision_graph data) (history (chat w)) (history (chat w'))
     ∧ activeHistoryId (chat w') = Some a
     ∧ sent w' = sent w ++ [visionRequest w])
  ∧ (∀ rnd f data reloaded w,
       startsWith (file_type f) "image/" = true →
       activeHistoryId (chat w) = None
       ∨ vision_history_id data ≠ activeHistoryId (chat w) →
       let w' := exec (handleProcessImage rnd (Some f) (Resolved data) reloaded) w in
       Refetched w w'
       ∧ (∀ r, vision_history_id data = Some r → r ≠ 0%Z →
               activeHistoryId (chat w') = Some r)
       ∧ (truthyId (vision_history_id data) = false →
          activeHistoryId (chat w')
          = activeHistoryId (chat (exec (loadHistory false reloaded) w))))
  ∧ (∀ rnd data reloaded w a,
       truthy (trim (prompt (chat w))) = true →
       emptyResponse data = false →
       activeHistoryId (chat w) = Some a →
       let w' := exec (handleGenerate rnd (Resolved data) reloaded) w in
       PatchedInPlace a (λ _, trim (prompt (chat w)))
         (rawGraph (responseGraph data)) (history (chat w)) (history (chat w'))
       ∧ activeHistoryId (chat w') = Some a
       ∧ sent w' = sent w ++ [generateRequest w])
  ∧ (∀ rnd data reloaded w,
       truthy (trim (prompt (chat w))) = true →
       emptyResponse data = false →
       activeHistoryId (chat w) = None →
       let w' := exec (handleGenerate rnd (Resolved data) reloaded) w in
       Refetched w w'
       ∧ activeHistoryId (chat w')
         = activeHistoryId (chat (exec (loadHistory false reloaded) w)))
  ∧ (∀ rnd rnd' entry data reloaded w,
       entry ∈ history (chat w) →
       truthy (trim (entry_prompt entry)) = true →
       emptyResponse data = false →
       let w1 := exec (selectEntry rnd entry) w in
       let w2 := exec (handleGenerate rnd' (Resolved data) reloaded) w1 in
       activeHistoryId (chat w1) = Some (entry_id entry)
       ∧ length (history (chat w2)) = length (history (chat w))
       ∧ activeHistoryId (chat w2) = Some (entry_id entry)
       ∧ sent w2 = sent w ++ [generateRequest w1]).
Proof.
  split.
  { intros rnd f data reloaded w a Hf Ha Hr w'.
    destruct (handleProcessImage_same rnd f data reloaded w a Hf Ha Hr)
      as (Hh & Hp & Hs).
    fold w' in Hh, Hp, Hs. rewrite Hh.
    split; [apply patchEntry_PatchedInPlace | done]. }
  split.
  { intros rnd f data reloaded w Hf Hcase w'.
    destruct (handleProcessImage_other rnd f data reloaded w Hf Hcase)
      as (Hs & Hp & _).
    fold w' in Hs, Hp.
    split; [by eapply Refetched_last|].
    split.
    - intros r Hr Hnz. rewrite Hp, Hr. simpl.
      by rewrite (proj2 (Z.eqb_neq r 0) Hnz).
    - intros Hfalsy. by rewrite Hp, Hfalsy. }
  split.
  { intros rnd data reloaded w a Ht Hne Ha w'.
    destruct (handleGenerate_continuing rnd data reloaded w a Ht Hne Ha)
      as (Hh & Hp & _ & Hs).
    fold w' in Hh, Hp, Hs. rewrite Hh.
    split; [apply patchEntry_PatchedInPlace | done]. }
  split.
  { intros rnd data reloaded w Ht Hne Ha w'.
    destruct (handleGenerate_fresh rnd data reloaded w Ht Hne Ha)
      as (Hs & Hp & _).
    fold w' in Hs, Hp. split; [by eapply Refetched_last | done]. }
  intros rnd rnd' entry data reloaded w Hin Ht Hne w1 w2.
  assert (activeHistoryId (chat w1) = Some (entry_id entry)) as Ha by reflexivity.
  assert (truthy (trim (prompt (chat w1))) = true) as Ht1 by exact Ht.
  destruct (handleGenerate_continuing rnd' data reloaded w1 _ Ht1 Hne Ha)
    as (Hh & Hp & _ & Hs).
  fold w2 in Hh, Hp, Hs.
  split; [exact Ha|]. split; [rewrite Hh; apply length_fmap|].
  split; [exact Hp|]. exact Hs.
Qed.

(** On [activeWorld], where entry 7 is active: a generation call and a
    vision call that reports the id 7 both leave two entries in the list
    and the pointer on 7; on [initialWorld] a generation call refetches. *)
Lemma reconcile_after_call_witness :
  (startsWith (file_type pngFile) "image/" = true
   ∧ activeHistoryId (chat activeWorld) = Some 7%Z
   ∧ truthy (trim (prompt (chat activeWorld))) = true
   ∧ truthy (trim (prompt (chat initialWorld))) = true
   ∧ activeHistoryId (chat initialWorld) = None
   ∧ emptyResponse (generatedResponse None) = false)
  ∧ length (history (chat (exec (handleGenerate noRandom
                                   (Resolved (generatedResponse None))
                                   (Resolved None)) activeWorld))) = 2
  ∧ activeHistoryId
      (chat (exec (handleProcessImage noRandom (Some pngFile)
                     (Resolved (mkVision (rawGraph generatedGraph)
                                         (Some 7%Z) None))
                     (Resolved None)) activeWorld)) = Some 7%Z
  ∧ Refetched initialWorld
      (exec (handleGenerate noRandom (Resolved (generatedResponse None))
                            (Resolved (Some sampleItems))) initialWorld).
Proof.
  split; [repeat split; reflexivity|].
  destruct reconcile_after_call as (Hvision & _ & Hgen & Hfresh & _).
  split.
  { pose proof (Hgen noRandom (generatedResponse None) (Resolved None)
                     activeWorld 7%Z eq_refl eq_refl eq_refl) as H.
    cbv zeta in H. destruct H as ((Hlen & _) & _). exact Hlen. }
  split.
  { pose proof (Hvision noRandom pngFile
                  (mkVision (rawGraph generatedGraph) (Some 7%Z) None)
                  (Resolved None) activeWorld 7%Z eq_refl eq_refl eq_refl) as H.
    cbv zeta in H. destruct H as (_ & Hptr & _). exact Hptr. }
  pose proof (Hfresh noRandom (generatedResponse None)
                (Resolved (Some sampleItems)) initialWorld
                eq_refl eq_refl eq_refl) as H.
  cbv zeta in H. destruct H as (Href & _). exact Href.
Defined.

(** C5, counterexample. With entry 7 active, a successful generation call
    whose response reports no history id, or reports the id 8, is not
    reconciled as specified: entry 7 is patched in place, no history
    request is sent and the pointer stays 7. With no active entry, a
    successful vision call whose response reports the id 0 refetches the
    history but does not adopt that id. *)
Lemma handleGenerate_never_reads_reported_id :
  sent (exec (handleGenerate noRandom (Resolved (generatedResponse None))
                             (Resolved (Some sampleItems))) activeWorld)
  = [generateRequest activeWorld]
  ∧ activeHistoryId
      (chat (exec (handleGenerate noRandom (Resolved (generatedResponse (Some 8%Z)))
                                  (Resolved (Some sampleItems))) activeWorld))
    = Some 7%Z
  ∧ ¬ ReconciledAsSpecified None (rawGraph generatedGraph)
        (λ _, trim (prompt (chat activeWorld))) activeWorld
        (exec (handleGenerate noRandom (Resolved (generatedResponse None))
                              (Resolved (Some sampleItems))) activeWorld)
  ∧ ¬ ReconciledAsSpecified (Some 8%Z) (rawGraph generatedGraph)
        (λ _, trim (prompt (chat activeWorld))) activeWorld
        (exec (handleGenerate noRandom (Resolved (generatedResponse (Some 8%Z)))
                              (Resolved (Some sampleItems))) activeWorld)
  ∧ ¬ ReconciledAsSpecified (Some 0%Z) (rawGraph generatedGraph)
        (λ entry, entry_prompt entry) initialWorld
        (exec (handleProcessImage noRandom (Some pngFile)
                 (Resolved (mkVision (rawGraph generatedGraph) (Some 0%Z) None))
                 (Resolved (Some sampleItems))) initialWorld).
Proof.
  split; [reflexivity|]. split; [reflexivity|].
  split.
  { intros [Href _]. unfold Refetched in Href.
    apply list_elem_of_In in Href. simpl in Href.
    destruct Href as [Href|[]]. discriminate. }
  split.
  { intros [_ Hadopt]. specialize (Hadopt 8%Z eq_refl). discriminate. }
  intros [_ Hadopt]. specialize (Hadopt 0%Z eq_refl). discriminate.
Qed.

(** ** Insertion-ordered maps *)

Section JSMapFacts.
Context {K V : Type} `{EqDecision K}.
Implicit Types (m : list (K * V)) (k : K) (v : V).

Lemma JSMap_get_fresh k m : k ∉ JSMap.keys m → JSMap.get k m = None.
Proof.
  induction m as [|[k' v'] m IH]; [reflexivity|]. simpl.
  rewrite not_elem_of_cons. intros [Hne Hin].
  rewrite decide_False by done. by apply IH.
Qed.

Lemma JSMap_set_fresh k v m : k ∉ JSMap.keys m → JSMap.set k v m = m ++ [(k, v)].
Proof.
  induction m as [|[k' v'] m IH]; [reflexivity|]. simpl.
  rewrite not_elem_of_cons. intros [Hne Hin].
  rewrite decide_False by done. by rewrite IH.
Qed.

Lemma JSMap_keys_app m m' : JSMap.keys (m ++ m') = JSMap.keys m ++ JSMap.keys m'.
Proof. apply map_app. Qed.

(** Filling a map from a list without repeated keys keeps the list. *)
Lemma JSMap_fill (key : V → K) (l : list V) m :
  NoDup (JSMap.keys m ++ (key <$> l)) →
  foldl (λ next x, JSMap.set (key x) x next) m l = m ++ ((λ x, (key x, x)) <$> l).
Proof.
  revert m. induction l as [|x l IH]; intros m Hnd; simpl.
  - by rewrite app_nil_r.
  - rewrite JSMap_set_fresh.
    + rewrite IH.
      * by rewrite <- app_assoc.
      * rewrite JSMap_keys_app. simpl. rewrite <- app_assoc. exact Hnd.
    + apply NoDup_app in Hnd as (_ & Hdisj & _). intros Hin.
      apply (Hdisj _ Hin). elem_of_list.
Qed.


Lemma JSMap_keys_fill (key : V → K) (l : list V) :
  JSMap.keys ((λ x, (key x, x)) <$> l) = key <$> l.
Proof.
  unfold JSMap.keys. induction l as [|x l IH]; [reflexivity|].
  simpl. f_equal. exact IH.
Qed.
End JSMapFacts.



(** ** Generated identifiers *)







(** ** Many-to-many synthesis *)



Lemma present_nonempty (s : string) : s ≠ "" → present (Some s) = Some s.
Proof. by destruct s. Qed.




(** * Further properties *)

(** ** The operations of the store as a state machine *)

Lemma Normalized_Complete (e : DiagramEdge) : Normalized e → Complete e.
Proof.
  intros [e0 ->].
  destruct (normalizeEdge_populated e0)
    as (d & k & Hd & Hk & Hin & _ & Hs & Ht & Hl & _).
  exists d, k. rewrite Hs, Ht, Hl. eauto 10.
Qed.

Lemma Forall_Normalized_filter (P : DiagramEdge → Prop)
    `{∀ e, Decision (P e)} (es : list DiagramEdge) :
  Forall Normalized es → Forall Normalized (filter P es).
Proof.
  rewrite !Forall_forall. intros Hall e He%list_elem_of_filter.
  apply Hall, He.
Qed.

Lemma Forall_Normalized_update (f : DiagramEdge → DiagramEdge) (p : DiagramEdge → bool)
    (es : list DiagramEdge) :
  Forall Normalized es →
  Forall Normalized (map (λ e, if p e then normalizeEdge (f e) else e) es).
Proof.
  rewrite !Forall_forall. intros Hall e (e0 & -> & Hin)%list_elem_of_fmap.
  destruct (p e0); [by eexists | by apply Hall].
Qed.

Lemma applyOp_Normalized (op : StoreOp) (state : DiagramState) :
  Forall Normalized (edges state) → Forall Normalized (edges (applyOp op state)).
Proof.
  intros Hall. destruct op; simpl;
    try exact Hall; try apply Forall_Normalized_map.
  - apply Forall_nil_2.
  - by apply Forall_Normalized_filter.
  - by apply (Forall_Normalized_update (λ e, mergeEdge e updates)
                (λ e, bool_decide (edge_id e = Some edgeId))).
  - by apply (Forall_Normalized_update
                (λ e, withData e (mergeData (edge_data e) data))
                (λ e, bool_decide (edge_id e = Some edgeId))).
  - by apply Forall_Normalized_filter.
Qed.

(** X1. Whatever operations of the store are called, in whatever order, on
    a store whose edges are normalized, every edge of the resulting store
    is normalized and carries a complete attribute bundle: a valid kind,
    both multiplicities and a label. The initial store is such a store. *)
Theorem runOps_edges_normalized (ops : list StoreOp) (state : DiagramState) :
  Forall Normalized (edges state) →
  Forall (λ e, Normalized e ∧ Complete e) (edges (runOps ops state)).
Proof.
  intros Hall.
  assert (Forall Normalized (edges (runOps ops state))) as Hn.
  { revert state Hall. induction ops as [|op ops IH]; intros state Hall.
    - exact Hall.
    - simpl. apply IH. by apply applyOp_Normalized. }
  eapply Forall_impl; [exact Hn|]. intros e He.
  split; [exact He | by apply Normalized_Complete].
Qed.

(** From the initial store: an edge without data is added, then given an
    unknown kind; the store still holds a complete bundle of kind
    "simple". *)
Lemma runOps_edges_normalized_witness :
  Forall Normalized (edges initialState)
  ∧ (edge_data <$>
       edges (runOps [ OpAddEdges [mkEdge (Some "e1") (Some "a") (Some "b")
                                          None None None None];
                       OpUpdateEdgeData "e1"
                         (mkRel None None None (Some "herencia") None None None) ]
                     initialState))
    = [Some (mkRel (Some "e1") (Some "a") (Some "b") (Some "simple")
                   (Some "1") (Some "*") (Some ""))]
  ∧ Forall (λ e, Normalized e ∧ Complete e)
       (edges (runOps [ OpAddEdges [mkEdge (Some "e1") (Some "a") (Some "b")
                                           None None None None];
                        OpUpdateEdgeData "e1"
                          (mkRel None None None (Some "herencia") None None None) ]
                      initialState)).
Proof.
  assert (Forall Normalized (edges initialState)) as H0 by apply Forall_nil_2.
  split; [exact H0|]. split; [reflexivity|].
  exact (runOps_edges_normalized _ initialState H0).
Defined.

(** ** Upserts through an insertion-ordered map *)

Section UpsertFacts.
Context {K V : Type} `{EqDecision K}.
Variable key : V → K.
Variable merge : option V → V → V.
Implicit Types (m : list (K * V)) (k : K) (v x : V) (l : list V).

Lemma upsertAll_cons m x l :
  upsertAll key merge m (x :: l)
  = upsertAll key merge (JSMap.set (key x) (merge (JSMap.get (key x) m) x) m) l.
Proof. reflexivity. Qed.

Lemma fillAll_cons m x l :
  fillAll key m (x :: l) = fillAll key (JSMap.set (key x) x m) l.
Proof. reflexivity. Qed.

Lemma JSMap_keys_set k v m :
  JSMap.keys (JSMap.set k v m)
  = if decide (k ∈ JSMap.keys m) then JSMap.keys m else JSMap.keys m ++ [k].
Proof.
  induction m as [|[k' v'] m IH].
  - case_decide as Hin; [by apply elem_of_nil in Hin | reflexivity].
  - change (JSMap.keys ((k', v') :: m)) with (k' :: JSMap.keys m).
    change (JSMap.set k v ((k', v') :: m))
      with (if decide (k = k') then (k, v) :: m else (k', v') :: JSMap.set k v m).
    destruct (decide (k = k')) as [Heq|Hne].
    + rewrite decide_True by (rewrite Heq; apply list_elem_of_here).
      by rewrite Heq.
    + change (JSMap.keys ((k', v') :: JSMap.set k v m))
        with (k' :: JSMap.keys (JSMap.set k v m)).
      rewrite IH. destruct (decide (k ∈ JSMap.keys m)) as [Hin|Hnin].
      * by rewrite decide_True by (by apply list_elem_of_further).
      * rewrite decide_False; [reflexivity|].
        rewrite not_elem_of_cons. done.
Qed.

Lemma JSMap_get_set k k' v m :
  JSMap.get k' (JSMap.set k v m)
  = if decide (k' = k) then Some v else JSMap.get k' m.
Proof.
  induction m as [|[k0 v0] m IH]; simpl.
  - destruct (decide (k' = k)); reflexivity.
  - destruct (decide (k = k0)) as [->|Hne]; simpl.
    + destruct (decide (k' = k0)); reflexivity.
    + destruct (decide (k' = k0)) as [->|Hne'].
      * rewrite decide_False by done. reflexivity.
      * exact IH.
Qed.

Lemma JSMap_get_Some k m : is_Some (JSMap.get k m) ↔ k ∈ JSMap.keys m.
Proof.
  induction m as [|[k' v'] m IH]; simpl.
  - split; [intros [? ?]; discriminate | intros []%elem_of_nil].
  - destruct (decide (k = k')) as [->|Hne].
    + split; [intros _; apply list_elem_of_here | eauto].
    + rewrite IH, elem_of_cons. split; [by right | by intros [?|?]].
Qed.

Lemma JSMap_get_elem k v m : JSMap.get k m = Some v → (k, v) ∈ m.
Proof.
  induction m as [|[k' v'] m IH]; simpl; [discriminate|].
  destruct (decide (k = k')) as [->|Hne].
  - intros [= ->]. apply list_elem_of_here.
  - intros Hg. apply list_elem_of_further. by apply IH.
Qed.

Lemma JSMap_NoDup_set k v m :
  NoDup (JSMap.keys m) → NoDup (JSMap.keys (JSMap.set k v m)).
Proof.
  intros Hnd. rewrite JSMap_keys_set. case_decide as Hin; [exact Hnd|].
  apply NoDup_app. split; [exact Hnd|]. split.
  - intros k' Hk' ->%list_elem_of_singleton. done.
  - apply NoDup_singleton.
Qed.

Lemma KeyOk_set k v m : key v = k → KeyOk key m → KeyOk key (JSMap.set k v m).
Proof.
  intros Hk. unfold KeyOk. induction m as [|[k' v'] m IH]; simpl.
  - intros _. by apply Forall_singleton.
  - intros [Hhd Htl]%Forall_cons. destruct (decide (k = k')) as [->|Hne].
    + apply Forall_cons. done.
    + apply Forall_cons. split; [exact Hhd | by apply IH].
Qed.

Lemma KeyOk_get k v m : KeyOk key m → JSMap.get k m = Some v → key v = k.
Proof.
  intros Hok Hg. apply JSMap_get_elem in Hg.
  unfold KeyOk in Hok. rewrite Forall_forall in Hok. exact (Hok _ Hg).
Qed.

Lemma KeyOk_keys m : KeyOk key m → key <$> JSMap.values m = JSMap.keys m.
Proof.
  unfold KeyOk, JSMap.values, JSMap.keys.
  induction m as [|[k v] m IH]; [reflexivity|].
  intros [Hhd Htl]%Forall_cons.
  change (key v :: (key <$> map snd m) = k :: map fst m).
  f_equal; [exact Hhd | by apply IH].
Qed.

(** Two maps with the same keys in the same order, without repetition, and
    the same value under every key are equal. *)
Lemma JSMap_ext m1 m2 :
  NoDup (JSMap.keys m1) →
  JSMap.keys m1 = JSMap.keys m2 →
  (∀ k, JSMap.get k m1 = JSMap.get k m2) →
  m1 = m2.
Proof.
  revert m2. induction m1 as [|[k v] m1 IH]; intros [|[k2 v2] m2] Hnd Hk Hg;
    try discriminate; [reflexivity|].
  simpl in Hk. injection Hk as -> Hk.
  pose proof (Hg k2) as Hhd. simpl in Hhd. rewrite !decide_True in Hhd by done.
  injection Hhd as ->. f_equal.
  simpl in Hnd. apply NoDup_cons in Hnd as [Hnin Hnd].
  apply IH; [exact Hnd | exact Hk|].
  intros k. pose proof (Hg k) as Hgk. simpl in Hgk.
  destruct (decide (k = k2)) as [->|Hne]; [|exact Hgk].
  rewrite !JSMap_get_fresh; [reflexivity | by rewrite <- Hk | done].
Qed.

Hypothesis merge_key :
  ∀ o x, (∀ y, o = Some y → key y = key x) → key (merge o x) = key x.

Lemma upsertAll_inv m l :
  NoDup (JSMap.keys m) → KeyOk key m →
  NoDup (JSMap.keys (upsertAll key merge m l)) ∧ KeyOk key (upsertAll key merge m l).
Proof.
  revert m. induction l as [|x l IH]; intros m Hnd Hok; [done|].
  rewrite upsertAll_cons. apply IH.
  - by apply JSMap_NoDup_set.
  - apply KeyOk_set; [|exact Hok]. apply merge_key.
    intros y Hy. by apply (KeyOk_get _ _ m).
Qed.

Lemma fillAll_inv m l :
  NoDup (JSMap.keys m) → KeyOk key m →
  NoDup (JSMap.keys (fillAll key m l)) ∧ KeyOk key (fillAll key m l).
Proof.
  revert m. induction l as [|x l IH]; intros m Hnd Hok; [done|].
  rewrite fillAll_cons. apply IH; [by apply JSMap_NoDup_set | by apply KeyOk_set].
Qed.

Lemma upsertAll_keys_elem m l k :
  k ∈ JSMap.keys (upsertAll key merge m l) ↔ k ∈ JSMap.keys m ∨ k ∈ key <$> l.
Proof.
  revert m. induction l as [|x l IH]; intros m.
  - rewrite fmap_nil, elem_of_nil. unfold upsertAll. simpl. tauto.
  - rewrite upsertAll_cons, IH, JSMap_keys_set, fmap_cons, elem_of_cons.
    case_decide as Hin.
    + split; [tauto|]. intros [?|[->|?]]; tauto.
    + rewrite elem_of_app, list_elem_of_singleton. tauto.
Qed.

Lemma fillAll_keys_elem m l k :
  k ∈ JSMap.keys (fillAll key m l) ↔ k ∈ JSMap.keys m ∨ k ∈ key <$> l.
Proof.
  revert m. induction l as [|x l IH]; intros m.
  - rewrite fmap_nil, elem_of_nil. unfold fillAll. simpl. tauto.
  - rewrite fillAll_cons, IH, JSMap_keys_set, fmap_cons, elem_of_cons.
    case_decide as Hin.
    + split; [tauto|]. intros [?|[->|?]]; tauto.
    + rewrite elem_of_app, list_elem_of_singleton. tauto.
Qed.

(** The keys already in the map keep their places; new keys go behind. *)
Lemma upsertAll_keys_prefix m l :
  JSMap.keys m `prefix_of` JSMap.keys (upsertAll key merge m l).
Proof.
  revert m. induction l as [|x l IH]; intros m; [done|].
  rewrite upsertAll_cons. etrans; [|apply IH]. rewrite JSMap_keys_set.
  case_decide; [done | by apply prefix_app_r].
Qed.

Lemma upsertAll_keys_known m l :
  (∀ x, x ∈ l → key x ∈ JSMap.keys m) →
  JSMap.keys (upsertAll key merge m l) = JSMap.keys m.
Proof.
  revert m. induction l as [|x l IH]; intros m Hall; [done|].
  rewrite upsertAll_cons.
  assert (JSMap.keys (JSMap.set (key x) (merge (JSMap.get (key x) m) x) m)
          = JSMap.keys m) as Hk.
  { rewrite JSMap_keys_set, decide_True; [done|]. apply Hall, list_elem_of_here. }
  rewrite IH; [exact Hk|]. intros y Hy. rewrite Hk.
  by apply Hall, list_elem_of_further.
Qed.

(** The value under a key after the loop: the merges of the incoming
    values with that key, in order, over what was there. *)
Lemma upsertAll_get m l k :
  JSMap.get k (upsertAll key merge m l)
  = foldl (λ acc x, Some (merge acc x)) (JSMap.get k m)
          (filter (λ x, key x = k) l).
Proof.
  revert m. induction l as [|x l IH]; intros m; [done|].
  rewrite upsertAll_cons, IH, JSMap_get_set, filter_cons.
  destruct (decide (key x = k)) as [<-|Hne].
  - by rewrite decide_True.
  - by rewrite decide_False by congruence.
Qed.

Lemma fillAll_get_other m l k :
  k ∉ key <$> l → JSMap.get k (fillAll key m l) = JSMap.get k m.
Proof.
  revert m. induction l as [|x l IH]; intros m Hk; [done|].
  rewrite fmap_cons, not_elem_of_cons in Hk. destruct Hk as [Hne Hk].
  rewrite fillAll_cons, IH by done. rewrite JSMap_get_set. by rewrite decide_False.
Qed.


End UpsertFacts.

(** ** Upserting nodes and edges *)

Lemma addNodes_upsertAll (incoming : list DiagramNode) (state : DiagramState) :
  addNodes incoming state
  = withNodes state
      (JSMap.values (upsertAll node_id mergeNode
                       (fillAll node_id [] (nodes state)) incoming)).
Proof. reflexivity. Qed.


Lemma mergeNode_key (o : option DiagramNode) (x : DiagramNode) :
  (∀ y, o = Some y → node_id y = node_id x) →
  node_id (mergeNode o x) = node_id x.
Proof. intros _. by destruct o. Qed.

Lemma orElse_same {A : Type} (a : option A) : orElse a a = a.
Proof. by destruct a. Qed.

Lemma orElse_None_r {A : Type} (a : option A) : orElse a None = a.
Proof. by destruct a. Qed.

Lemma orElse_assoc {A : Type} (a b c : option A) :
  orElse a (orElse b c) = orElse (orElse a b) c.
Proof. by destruct a. Qed.

Lemma orElse_absorb {A : Type} (a b : option A) :
  orElse a (orElse a b) = orElse a b.
Proof. by destruct a. Qed.


Lemma fill_inv {K V : Type} `{EqDecision K} (key : V → K) (l : list V) :
  NoDup (JSMap.keys (fillAll key [] l)) ∧ KeyOk key (fillAll key [] l).
Proof. apply fillAll_inv; [apply NoDup_nil_2 | apply Forall_nil_2]. Qed.

Lemma fill_NoDup {K V : Type} `{EqDecision K} (key : V → K) (l : list V) :
  NoDup (key <$> l) → fillAll key [] l = (λ x, (key x, x)) <$> l.
Proof. intros Hnd. unfold fillAll. by rewrite (JSMap_fill key). Qed.

Lemma KeyOk_refill {K V : Type} `{EqDecision K} (key : V → K) (m : list (K * V)) :
  KeyOk key m → (λ x, (key x, x)) <$> JSMap.values m = m.
Proof.
  unfold KeyOk, JSMap.values. induction m as [|[k v] m IH]; [reflexivity|].
  intros [Hhd Htl]%Forall_cons. simpl in Hhd.
  change ((key v, v) :: ((λ x, (key x, x)) <$> map snd m) = (k, v) :: m).
  rewrite Hhd. f_equal. by apply IH.
Qed.

Lemma get_fill {K V : Type} `{EqDecision K} (key : V → K) (l : list V) (x : V) :
  NoDup (key <$> l) → x ∈ l →
  JSMap.get (key x) ((λ y, (key y, y)) <$> l) = Some x.
Proof.
  induction l as [|y l IH]; [intros _ []%elem_of_nil|].
  rewrite fmap_cons. intros [Hnin Hnd]%NoDup_cons Hin.
  rewrite (fmap_cons (λ y, (key y, y))). cbn [JSMap.get].
  apply elem_of_cons in Hin as [->|Hin].
  - by rewrite decide_True.
  - rewrite decide_False; [by apply IH|].
    intros Heq. apply Hnin. rewrite <- Heq. by apply list_elem_of_fmap_2.
Qed.

Lemma filter_none {A : Type} (P : A → Prop) `{∀ x, Decision (P x)} (l : list A) :
  (∀ x, x ∈ l → ¬ P x) → filter P l = [].
Proof.
  induction l as [|x l IH]; intros Hall; [reflexivity|].
  rewrite filter_cons, decide_False by (apply Hall, list_elem_of_here).
  apply IH. intros y Hy. by apply Hall, list_elem_of_further.
Qed.

Lemma values_elem {K V : Type} (m : list (K * V)) (k : K) (v : V) :
  (k, v) ∈ m → v ∈ JSMap.values m.
Proof.
  intros Hin. unfold JSMap.values. apply list_elem_of_In, in_map_iff.
  exists (k, v). split; [reflexivity | by apply list_elem_of_In].
Qed.

Lemma findNode_values (k : string) (m : list (string * DiagramNode)) :
  KeyOk node_id m → findNode k (JSMap.values m) = JSMap.get k m.
Proof.
  unfold KeyOk, JSMap.values, findNode.
  induction m as [|[k0 v] m IH]; [reflexivity|].
  intros [Hhd Htl]%Forall_cons. simpl in Hhd. simpl.
  rewrite Hhd. destruct (decide (k = k0)) as [->|Hne].
  - by rewrite bool_decide_eq_true_2.
  - rewrite bool_decide_eq_false_2 by congruence. by apply IH.
Qed.

Lemma mergeNode_eta (o : option DiagramNode) (z : DiagramNode) :
  mergeNode o z
  = mkNode (node_id z) (orElse (node_type z) (o ≫= node_type))
           (node_position z) (node_data z).
Proof.
  destruct o as [old|]; [reflexivity|]. simpl.
  rewrite orElse_None_r. by destruct z.
Qed.

Lemma merges_type (o : option DiagramNode) (l : list DiagramNode) :
  foldl (λ acc x, Some (mergeNode acc x)) o l ≫= node_type
  = typeAcc (o ≫= node_type) l.
Proof.
  revert o. induction l as [|x l IH]; intros o; [reflexivity|].
  simpl. rewrite IH. simpl. by rewrite mergeNode_eta.
Qed.

Lemma merges_snoc (o : option DiagramNode) (l : list DiagramNode) (z : DiagramNode) :
  foldl (λ acc x, Some (mergeNode acc x)) o (l ++ [z])
  = Some (mkNode (node_id z) (typeAcc (o ≫= node_type) (l ++ [z]))
                 (node_position z) (node_data z)).
Proof.
  rewrite foldl_app. simpl. rewrite mergeNode_eta. do 2 f_equal.
  unfold typeAcc. rewrite foldl_app. simpl. f_equal.
  apply merges_type.
Qed.

Lemma typeAcc_absorb (t : option string) (l : list DiagramNode) :
  typeAcc t l = orElse (typeAcc None l) t.
Proof.
  revert t. induction l as [|x l IH]; intros t; [reflexivity|].
  unfold typeAcc in *. simpl. rewrite IH, (IH (orElse (node_type x) None)).
  by rewrite orElse_None_r, orElse_assoc.
Qed.

(** Merging the same run of nodes a second time changes nothing. *)
Lemma merges_twice (o : option DiagramNode) (l : list DiagramNode) :
  foldl (λ acc x, Some (mergeNode acc x))
        (foldl (λ acc x, Some (mergeNode acc x)) o l) l
  = foldl (λ acc x, Some (mergeNode acc x)) o l.
Proof.
  destruct (decide (l = [])) as [->|Hne]; [reflexivity|].
  destruct (proj2 (last_is_Some l) Hne) as [z Hz].
  apply last_Some in Hz as [l' ->].
  rewrite !merges_snoc. simpl. do 2 f_equal.
  rewrite (typeAcc_absorb (typeAcc _ _)), (typeAcc_absorb (o ≫= node_type)).
  apply orElse_absorb.
Qed.

(** Upserting the same nodes twice is upserting them once. *)
Lemma addNodes_twice (incoming : list DiagramNode) (state : DiagramState) :
  addNodes incoming (addNodes incoming state) = addNodes incoming state.
Proof.
  rewrite !addNodes_upsertAll.
  set (M0 := fillAll node_id [] (nodes state)).
  set (M1 := upsertAll node_id mergeNode M0 incoming).
  cbn [nodes withNodes edges selectedRelationshipKind selectedSourceMult
       selectedTargetMult].
  destruct (fill_inv node_id (nodes state)) as [Hnd0 Hok0]. fold M0 in Hnd0, Hok0.
  destruct (upsertAll_inv node_id mergeNode mergeNode_key M0 incoming Hnd0 Hok0)
    as [Hnd1 Hok1]. fold M1 in Hnd1, Hok1.
  assert (fillAll node_id [] (JSMap.values M1) = M1) as ->.
  { rewrite fill_NoDup.
    - by apply KeyOk_refill.
    - by rewrite (KeyOk_keys node_id M1 Hok1). }
  assert (upsertAll node_id mergeNode M1 incoming = M1) as ->; [|reflexivity].
  assert (JSMap.keys (upsertAll node_id mergeNode M1 incoming) = JSMap.keys M1)
    as Hkeys.
  { apply upsertAll_keys_known. intros x Hx. unfold M1.
    apply upsertAll_keys_elem. right. by apply list_elem_of_fmap_2. }
  apply JSMap_ext.
  - rewrite Hkeys. exact Hnd1.
  - exact Hkeys.
  - intros k. rewrite upsertAll_get. unfold M1. rewrite upsertAll_get.
    apply merges_twice.
Qed.

(** X2. [addNodes] is an idempotent upsert that leaves every id of the
    canvas unique: adding the same nodes a second time changes nothing;
    the ids of the result have no repetition, they are the ids of the
    store and of the incoming nodes, the ids of a store without repeated
    ids keep their order and the new ones go behind; a node of such a
    store whose id is not incoming stays as it is; under an incoming id
    the result holds the position and data of the last incoming node with
    that id; edges and tool selection are untouched. *)
Theorem addNodes_upsert (incoming : list DiagramNode) (state : DiagramState) :
  let state' := addNodes incoming state in
  addNodes incoming state' = state'
  ∧ NoDup (node_id <$> nodes state')
  ∧ (∀ k, k ∈ node_id <$> nodes state'
          ↔ k ∈ node_id <$> nodes state ∨ k ∈ node_id <$> incoming)
  ∧ (NoDup (node_id <$> nodes state) →
     (node_id <$> nodes state) `prefix_of` (node_id <$> nodes state')
     ∧ ∀ n, n ∈ nodes state → node_id n ∉ node_id <$> incoming →
            n ∈ nodes state')
  ∧ (∀ k n, last (filter (λ x, node_id x = k) incoming) = Some n →
       ∃ n', findNode k (nodes state') = Some n'
             ∧ node_id n' = k
             ∧ node_position n' = node_position n
             ∧ node_data n' = node_data n)
  ∧ edges state' = edges state
  ∧ selectedRelationshipKind state' = selectedRelationshipKind state
  ∧ selectedSourceMult state' = selectedSourceMult state
  ∧ selectedTargetMult state' = selectedTargetMult state.
Proof.
  intros state'. split; [apply addNodes_twice|].
  subst state'. rewrite addNodes_upsertAll.
  cbn [nodes edges withNodes selectedRelationshipKind selectedSourceMult
       selectedTargetMult].
  set (M0 := fillAll node_id [] (nodes state)).
  set (M1 := upsertAll node_id mergeNode M0 incoming).
  destruct (fill_inv node_id (nodes state)) as [Hnd0 Hok0]. fold M0 in Hnd0, Hok0.
  destruct (upsertAll_inv node_id mergeNode mergeNode_key M0 incoming Hnd0 Hok0)
    as [Hnd1 Hok1]. fold M1 in Hnd1, Hok1.
  rewrite (KeyOk_keys node_id M1 Hok1).
  split; [exact Hnd1|].
  split.
  { intros k. unfold M1, M0.
    rewrite upsertAll_keys_elem, fillAll_keys_elem. simpl.
    rewrite elem_of_nil. tauto. }
  split.
  { intros Hnd. assert (M0 = (λ x, (node_id x, x)) <$> nodes state) as HM0
      by (by apply fill_NoDup).
    split.
    - rewrite <- (JSMap_keys_fill node_id (nodes state)), <- HM0.
      apply upsertAll_keys_prefix.
    - intros n Hin Hnew. apply (values_elem M1 (node_id n)).
      apply JSMap_get_elem. unfold M1. rewrite upsertAll_get.
      rewrite filter_none.
      + simpl. rewrite HM0. by apply get_fill.
      + intros x Hx Heq. apply Hnew.
        rewrite <- Heq. by apply list_elem_of_fmap_2. }
  split; [|done].
  intros k n Hlast. rewrite (findNode_values k M1 Hok1).
  unfold M1. rewrite upsertAll_get.
  pose proof Hlast as Hin. apply last_Some in Hlast as [l' Hl'].
  assert (node_id n = k) as Hk.
  { assert (n ∈ filter (λ x, node_id x = k) incoming) as Hn
      by (rewrite Hl'; apply elem_of_app; right; apply list_elem_of_here).
    by apply list_elem_of_filter in Hn as [? _]. }
  rewrite Hl', merges_snoc. eexists. split; [reflexivity|]. done.
Qed.

(** Upserting a moved "Pedido" and a new "Factura" into
    [clientePedidoStore]: "Pedido" keeps its place in the list and its
    type and takes the new position, "Factura" goes last. *)
Lemma addNodes_upsert_witness :
  let state' := addNodes [movedPedido; facturaNode] clientePedidoStore in
  (NoDup (node_id <$> nodes clientePedidoStore)
   ∧ last (filter (λ x, node_id x = "p") [movedPedido; facturaNode])
     = Some movedPedido)
  ∧ node_id <$> nodes state' = ["c"; "p"; "f"]
  ∧ (node_position <$> findNode "p" (nodes state'))
    = Some (mkPos (num 640) (num 300))
  ∧ clienteNode ∈ nodes state'.
Proof.
  intros state'.
  assert (NoDup (node_id <$> nodes clientePedidoStore)) as Hnd
    by (apply (bool_decide_unpack _); vm_compute; exact I).
  split; [split; [exact Hnd | reflexivity]|].
  split; [reflexivity|].
  pose proof (addNodes_upsert [movedPedido; facturaNode] clientePedidoStore) as H.
  cbv zeta in H. destruct H as (_ & _ & _ & Hkeep & Hlast & _).
  split.
  - destruct (Hlast "p" movedPedido eq_refl) as (n' & Hfind & _ & Hpos & _).
    fold state' in Hfind. rewrite Hfind. simpl. by rewrite Hpos.
  - apply (proj2 (Hkeep Hnd)); [apply list_elem_of_here|].
    apply (bool_decide_unpack _). vm_compute. exact I.
Defined.

(** ** Upserting edges *)

Lemma normalizeEdge_id (e : DiagramEdge) : edge_id (normalizeEdge e) = edge_id e.
Proof. reflexivity. Qed.




(** ** Referential integrity of the diagram *)

Lemma addNodes_ids (incoming : list DiagramNode) (state : DiagramState) (k : string) :
  k ∈ node_id <$> nodes (addNodes incoming state)
  ↔ k ∈ node_id <$> nodes state ∨ k ∈ node_id <$> incoming.
Proof.
  rewrite addNodes_upsertAll. cbn [nodes withNodes].
  destruct (fill_inv node_id (nodes state)) as [Hnd0 Hok0].
  destruct (upsertAll_inv node_id mergeNode mergeNode_key _ incoming Hnd0 Hok0)
    as [_ Hok1].
  rewrite (KeyOk_keys node_id _ Hok1).
  rewrite upsertAll_keys_elem, fillAll_keys_elem by apply mergeNode_key.
  simpl. rewrite elem_of_nil. tauto.
Qed.

Lemma Some_id_elem (k : string) (ns : list DiagramNode) :
  Some k ∈ (Some ∘ node_id <$> ns) ↔ k ∈ node_id <$> ns.
Proof.
  rewrite !list_elem_of_fmap. split.
  - intros (n & Heq & Hin). exists n. split; [|done]. simpl in Heq. congruence.
  - intros (n & -> & Hin). by exists n.
Qed.

Lemma endpoint_elem (o : option string) (ns : list DiagramNode) :
  o ∈ (Some ∘ node_id <$> ns) ↔ ∃ k, o = Some k ∧ k ∈ node_id <$> ns.
Proof.
  split.
  - intros Hin. pose proof Hin as (n & -> & Hn)%list_elem_of_fmap.
    exists (node_id n). split; [done|]. by apply list_elem_of_fmap_2.
  - intros (k & -> & Hk). by apply Some_id_elem.
Qed.

Lemma Integrity_nodes (state : DiagramState) (ns : list DiagramNode) :
  (∀ k, k ∈ node_id <$> nodes state → k ∈ node_id <$> ns) →
  Integrity state → Integrity (withNodes state ns).
Proof.
  intros Hsub. unfold Integrity. cbn [nodes edges withNodes].
  intros Hall. eapply Forall_impl; [exact Hall|]. intros e [Hs Ht].
  apply endpoint_elem in Hs as (s & -> & Hs).
  apply endpoint_elem in Ht as (t & -> & Ht).
  split; apply Some_id_elem; by apply Hsub.
Qed.

Lemma Integrity_edges (state : DiagramState) (es : list DiagramEdge) :
  (∀ e', e' ∈ es → ∃ e, e ∈ edges state ∧ edge_source e' = edge_source e
                        ∧ edge_target e' = edge_target e) →
  Integrity state → Integrity (withEdges state es).
Proof.
  intros Hsub. unfold Integrity. cbn [nodes edges withEdges].
  rewrite !Forall_forall. intros Hall e' He'.
  destruct (Hsub e' He') as (e & He & -> & ->). by apply Hall.
Qed.

Lemma removeNode_Integrity (nodeId : string) (state : DiagramState) :
  Integrity state → Integrity (removeNode nodeId state).
Proof.
  unfold Integrity. cbn [nodes edges removeNode].
  rewrite !Forall_forall. intros Hall e [[Hs Ht] He]%list_elem_of_filter.
  destruct (Hall e He) as [Hs' Ht'].
  apply list_elem_of_fmap in Hs' as (ns & Hns & Hins).
  apply list_elem_of_fmap in Ht' as (nt & Hnt & Hint).
  split; apply list_elem_of_fmap.
  - exists ns. split; [done|]. apply list_elem_of_filter. split; [|done].
    intros Heq. apply Hs. rewrite Hns. simpl. by rewrite Heq.
  - exists nt. split; [done|]. apply list_elem_of_filter. split; [|done].
    intros Heq. apply Ht. rewrite Hnt. simpl. by rewrite Heq.
Qed.

Lemma applyOp_Integrity (op : StoreOp) (state : DiagramState) :
  keepsEndpoints op = true → Integrity state → Integrity (applyOp op state).
Proof.
  destruct op; try discriminate; intros _ Hint; cbn [applyOp].
  - apply Forall_nil_2.
  - replace (addNodes incoming state)
      with (withNodes state (nodes (addNodes incoming state))) by reflexivity.
    apply Integrity_nodes; [|done].
    intros k Hk. apply addNodes_ids. by left.
  - apply Integrity_nodes; [|done].
    intros k Hk. rewrite <- list_fmap_compose.
    erewrite list_fmap_ext; [exact Hk|].
    intros i n _. simpl. by case_bool_decide.
  - by apply removeNode_Integrity.
  - apply Integrity_edges; [|done].
    intros e' (e & -> & He)%list_elem_of_fmap. exists e. split; [done|].
    by case_bool_decide.
  - apply Integrity_edges; [|done].
    intros e' [_ He]%list_elem_of_filter. by exists e'.
  - exact Hint.
  - exact Hint.
  - exact Hint.
Qed.

(** X4. The operations that edit or delete, [resetGraph], [addNodes],
    [updateNodeData], [removeNode], [updateEdgeData], [removeEdge] and the
    three tool selectors, keep the diagram referentially intact in whatever
    order they are called: when every relationship starts and ends at a
    table of the store before, so it does after. In particular deleting a
    table never leaves a relationship dangling. *)
Theorem runOps_Integrity (ops : list StoreOp) (state : DiagramState) :
  forallb keepsEndpoints ops = true →
  Integrity state →
  Integrity (runOps ops state).
Proof.
  revert state. induction ops as [|op ops IH]; intros state Hops Hint.
  - exact Hint.
  - simpl in Hops. apply andb_prop in Hops as [Hop Hops].
    simpl. apply IH; [exact Hops|]. by apply applyOp_Integrity.
Qed.

(** On the two tables "Usuario" and "Post" and their relationship: the
    relationship is re-labelled, "Post" is deleted and a table "Tag" is
    added; the relationship went away with "Post". *)
Lemma runOps_Integrity_witness :
  let ops := [ OpUpdateEdgeData "edge-usuario-post-ai"
                 (mkRel None None None None None None (Some "escribe"));
               OpRemoveNode "node-post-ai";
               OpAddNodes [buildNode "node-tag" "Tag" [] (mkPos (num 0) (num 0))
                                     noExtra] ] in
  forallb keepsEndpoints ops = true
  ∧ Integrity usuarioPostStore
  ∧ length (edges usuarioPostStore) = 1%nat
  ∧ (node_id <$> nodes (runOps ops usuarioPostStore))
    = ["node-usuario-ai"; "node-tag"]
  ∧ edges (runOps ops usuarioPostStore) = []
  ∧ Integrity (runOps ops usuarioPostStore).
Proof.
  intros ops.
  assert (Integrity usuarioPostStore) as Hint.
  { apply Forall_cons. split; [|apply Forall_nil_2].
    split; cbn; elem_of_list. }
  split; [reflexivity|]. split; [exact Hint|]. split; [reflexivity|].
  split; [reflexivity|]. split; [reflexivity|].
  exact (runOps_Integrity ops usuarioPostStore eq_refl Hint).
Defined.

(** ** Deletions *)

Lemma removeNode_nodes (a : string) (state : DiagramState) :
  nodes (removeNode a state) = filter (λ node, node_id node ≠ a) (nodes state).
Proof. reflexivity. Qed.

Lemma state_eq (s1 s2 : DiagramState) :
  nodes s1 = nodes s2 → edges s1 = edges s2 →
  selectedRelationshipKind s1 = selectedRelationshipKind s2 →
  selectedSourceMult s1 = selectedSourceMult s2 →
  selectedTargetMult s1 = selectedTargetMult s2 →
  s1 = s2.
Proof. destruct s1, s2. simpl. congruence. Qed.

Lemma filter_all {A : Type} (P : A → Prop) `{∀ x, Decision (P x)} (l : list A) :
  Forall P l → filter P l = l.
Proof.
  induction 1 as [|x l Hx Hl IH]; [reflexivity|].
  by rewrite filter_cons_True, IH.
Qed.

(** X5. Deletions compose: deleting two tables gives the same store in
    either order, deleting a table twice is deleting it once, deleting a
    relationship and deleting a table commute, and deleting a table that is
    not on the canvas and that no relationship mentions changes nothing. *)
Theorem removeNode_compose (a b e : string) (state : DiagramState) :
  removeNode a (removeNode b state) = removeNode b (removeNode a state)
  ∧ removeNode a (removeNode a state) = removeNode a state
  ∧ removeEdge e (removeNode a state) = removeNode a (removeEdge e state)
  ∧ removeEdge e (removeEdge e state) = removeEdge e state
  ∧ ((a ∉ node_id <$> nodes state) →
     Forall (λ edge, edge_source edge ≠ Some a ∧ edge_target edge ≠ Some a)
            (edges state) →
     removeNode a state = state).
Proof.
  split; [|split; [|split; [|split]]].
  - apply state_eq; try reflexivity; cbn [nodes edges removeNode];
      rewrite !list_filter_filter; apply list_filter_iff; intros x; tauto.
  - apply state_eq; try reflexivity; cbn [nodes edges removeNode];
      rewrite !list_filter_filter; apply list_filter_iff; intros x; tauto.
  - apply state_eq; try reflexivity;
      cbn [nodes edges removeNode removeEdge withEdges].
    rewrite !list_filter_filter. apply list_filter_iff. intros x. tauto.
  - apply state_eq; try reflexivity; cbn [nodes edges removeEdge withEdges].
    rewrite !list_filter_filter. apply list_filter_iff. intros x. tauto.
  - intros Ha Hall. apply state_eq; try reflexivity; cbn [nodes edges removeNode].
    + apply filter_all, Forall_forall. intros n Hn Heq. apply Ha.
      rewrite <- Heq. by apply list_elem_of_fmap_2.
    + by apply filter_all.
Qed.

(** ** Editing the attributes of a relationship *)

(** What a normalized edge knows about its own bundle. *)
Lemma Normalized_data (e : DiagramEdge) :
  Normalized e →
  ∃ d, edge_data e = Some d
       ∧ orElse (rel_id d) (edge_id e) = rel_id d
       ∧ orElse (rel_source d) (edge_source e) = rel_source d
       ∧ orElse (rel_target d) (edge_target e) = rel_target d
       ∧ isRelationshipKind (rel_kind d) = true
       ∧ is_Some (rel_sourceMult d) ∧ is_Some (rel_targetMult d)
       ∧ is_Some (rel_label d).
Proof.
  intros [e0 ->]. eexists. split; [reflexivity|].
  cbn [rel_id rel_source rel_target rel_kind rel_sourceMult rel_targetMult
       rel_label edge_id edge_source edge_target normalizeEdge].
  set (data := orDefault (edge_data e0) emptyData).
  split; [by rewrite <- orElse_assoc, orElse_same|].
  split; [by rewrite <- orElse_assoc, orElse_same|].
  split; [by rewrite <- orElse_assoc, orElse_same|].
  split; [by destruct (isRelationshipKind (rel_kind data)) eqn:Hk|].
  eauto.
Qed.

Lemma updateEdgeData_hit (e : DiagramEdge) (d patch : RelationshipData) :
  Normalized e → edge_data e = Some d →
  normalizeEdge (withData e (mergeData (edge_data e) patch))
  = withData e
      (mkRel (orElse (rel_id patch) (rel_id d))
             (orElse (rel_source patch) (rel_source d))
             (orElse (rel_target patch) (rel_target d))
             (mergedKind (rel_kind patch) (rel_kind d))
             (orElse (rel_sourceMult patch) (rel_sourceMult d))
             (orElse (rel_targetMult patch) (rel_targetMult d))
             (orElse (rel_label patch) (rel_label d))).
Proof.
  intros Hn Hd.
  destruct (Normalized_data e Hn)
    as (d' & Hd' & Hid & Hs & Ht & Hk & [sm Hsm] & [tm Htm] & [l Hl]).
  rewrite Hd in Hd'. injection Hd' as <-.
  rewrite Hd. unfold normalizeEdge, withData, mergeData.
  cbn [edge_id edge_source edge_target edge_sourceHandle edge_targetHandle
       edge_label edge_data orDefault rel_id rel_source rel_target rel_kind
       rel_sourceMult rel_targetMult rel_label].
  f_equal. f_equal. f_equal.
  - rewrite <- orElse_assoc. by rewrite Hid.
  - rewrite <- orElse_assoc. by rewrite Hs.
  - rewrite <- orElse_assoc. by rewrite Ht.
  - unfold mergedKind. destruct (rel_kind patch) as [k|]; [reflexivity|].
    simpl. by rewrite Hk.
  - rewrite Hsm. by destruct (rel_sourceMult patch).
  - rewrite Htm. by destruct (rel_targetMult patch).
  - rewrite Hl. by destruct (rel_label patch).
Qed.

(** X6. [updateEdgeData] is a partial update. Of a store whose edges are
    normalized it rewrites only the edges with the given id, and of those
    only the attribute bundle: every field the patch supplies replaces the
    stored one, every field it leaves out keeps its stored value, and a
    supplied kind that is not one of the four valid kinds is stored as
    "simple". The edge list keeps its length and order, the top-level
    fields of the edges, the nodes and the tool selection are untouched,
    and an id that no edge carries changes nothing. *)
Theorem updateEdgeData_partial (edgeId : string) (patch : RelationshipData)
    (state : DiagramState) :
  Forall Normalized (edges state) →
  let state' := updateEdgeData edgeId patch state in
  length (edges state') = length (edges state)
  ∧ (∀ i e, edges state !! i = Some e → edge_id e ≠ Some edgeId →
            edges state' !! i = Some e)
  ∧ (∀ i e, edges state !! i = Some e → edge_id e = Some edgeId →
       ∃ d d', edge_data e = Some d
         ∧ edges state' !! i = Some (withData e d')
         ∧ rel_id d' = orElse (rel_id patch) (rel_id d)
         ∧ rel_source d' = orElse (rel_source patch) (rel_source d)
         ∧ rel_target d' = orElse (rel_target patch) (rel_target d)
         ∧ rel_kind d' = mergedKind (rel_kind patch) (rel_kind d)
         ∧ rel_sourceMult d' = orElse (rel_sourceMult patch) (rel_sourceMult d)
         ∧ rel_targetMult d' = orElse (rel_targetMult patch) (rel_targetMult d)
         ∧ rel_label d' = orElse (rel_label patch) (rel_label d))
  ∧ ((Some edgeId ∉ edge_id <$> edges state) → state' = state)
  ∧ nodes state' = nodes state
  ∧ selectedRelationshipKind state' = selectedRelationshipKind state
  ∧ selectedSourceMult state' = selectedSourceMult state
  ∧ selectedTargetMult state' = selectedTargetMult state.
Proof.
  intros Hall state'. subst state'. unfold updateEdgeData.
  cbn [nodes edges withEdges selectedRelationshipKind selectedSourceMult
       selectedTargetMult].
  split; [apply length_map|].
  split.
  { intros i e Hi Hne.
    change (map ?f ?l) with (f <$> l). rewrite list_lookup_fmap, Hi. simpl.
    by rewrite bool_decide_eq_false_2. }
  split.
  { intros i e Hi Heq.
    assert (Normalized e) as Hn.
    { eapply Forall_forall; [exact Hall|]. by eapply list_elem_of_lookup_2. }
    destruct (Normalized_data e Hn) as (d & Hd & _).
    eexists d, _. split; [exact Hd|].
    split.
    { change (map ?f ?l) with (f <$> l). rewrite list_lookup_fmap, Hi. simpl.
      rewrite bool_decide_eq_true_2 by exact Heq.
      by rewrite (updateEdgeData_hit e d patch Hn Hd). }
    repeat split. }
  split; [|done].
  intros Habsent. destruct state as [ns es k sm tm].
  unfold withEdges. cbn [nodes edges selectedRelationshipKind
                          selectedSourceMult selectedTargetMult] in *.
  f_equal. clear Hall. induction es as [|e es IH]; [reflexivity|].
  rewrite fmap_cons in Habsent. apply not_elem_of_cons in Habsent as [Hne Hrest].
  simpl. rewrite bool_decide_eq_false_2 by congruence.
  f_equal. by apply IH.
Qed.

(** The relationship of the default diagram is given the kind "herencia"
    (not a valid kind) and the multiplicity "0..1" at its source: the kind
    falls back to "simple", the source multiplicity is the new one, the
    target multiplicity and the label stay. *)
Lemma updateEdgeData_partial_witness :
  Forall Normalized (edges usuarioPostStore)
  ∧ (edge_data <$>
       edges (updateEdgeData "edge-usuario-post-ai"
                (mkRel None None None (Some "herencia") (Some "0..1") None None)
                usuarioPostStore))
    = [Some (mkRel (Some "edge-usuario-post-ai") (Some "node-usuario-ai")
                   (Some "node-post-ai") (Some "simple") (Some "0..1")
                   (Some "*") (Some "Usuario crea Post"))]
  ∧ nodes (updateEdgeData "edge-usuario-post-ai"
             (mkRel None None None (Some "herencia") (Some "0..1") None None)
             usuarioPostStore)
    = nodes usuarioPostStore.
Proof.
  assert (Forall Normalized (edges usuarioPostStore)) as Hall
    by apply Forall_Normalized_map.
  split; [exact Hall|]. split; [reflexivity|].
  pose proof (updateEdgeData_partial "edge-usuario-post-ai"
                (mkRel None None None (Some "herencia") (Some "0..1") None None)
                usuarioPostStore Hall) as H.
  cbv zeta in H. destruct H as (_ & _ & _ & _ & Hnodes & _). exact Hnodes.
Defined.

(** ** Drawing a connection *)








(** ** Editing a relationship through its editor *)

Lemma normalizeEdge_withLabel (e : DiagramEdge) (l : string) :
  normalizeEdge (withLabel e l) = withLabel (normalizeEdge e) l.
Proof. reflexivity. Qed.

Lemma updateEdge_label_hit (e : DiagramEdge) (l : string) :
  Normalized e → normalizeEdge (mergeEdge e (labelUpdate l)) = withLabel e l.
Proof.
  intros Hn.
  replace (mergeEdge e (labelUpdate l)) with (withLabel e l)
    by (by destruct e).
  by rewrite normalizeEdge_withLabel, (Normalized_fixed e Hn).
Qed.

Lemma find_edge (id : string) (es : list DiagramEdge) :
  Some id ∈ edge_id <$> es →
  ∃ e, List.find (λ item, bool_decide (edge_id item = Some id)) es = Some e
       ∧ e ∈ es ∧ edge_id e = Some id.
Proof.
  intros (e0 & Hid & Hin)%list_elem_of_fmap.
  destruct (List.find _ es) as [e|] eqn:Hfind.
  - apply find_some in Hfind as [HIn Hp]. exists e.
    split; [done|]. split; [by apply list_elem_of_In|].
    by apply bool_decide_eq_true in Hp.
  - apply list_elem_of_In in Hin.
    pose proof (find_none _ _ Hfind e0 Hin) as Hp. simpl in Hp.
    apply bool_decide_eq_false in Hp. congruence.
Qed.

Lemma save_hit (form : RelationshipEditor.Form) (e : DiagramEdge)
    (d : RelationshipData) :
  Normalized e → edge_data e = Some d →
  let e1 := withLabel e (RelationshipEditor.formLabel form) in
  normalizeEdge
    (withData e1
       (mergeData (edge_data e1)
          (mkRel None None None
                 (Some (RelationshipEditor.formKind form))
                 (Some (RelationshipEditor.formSourceMult form))
                 (Some (RelationshipEditor.formTargetMult form))
                 (Some (RelationshipEditor.formLabel form)))))
  = savedEdge form e d.
Proof.
  intros Hn Hd e1.
  assert (Normalized e1) as Hn1.
  { exists e1. unfold e1.
    by rewrite normalizeEdge_withLabel, (Normalized_fixed e Hn). }
  rewrite (updateEdgeData_hit e1 d
             (mkRel None None None
                    (Some (RelationshipEditor.formKind form))
                    (Some (RelationshipEditor.formSourceMult form))
                    (Some (RelationshipEditor.formTargetMult form))
                    (Some (RelationshipEditor.formLabel form))) Hn1 Hd).
  unfold savedEdge, withData, e1, withLabel, mergedKind, storedKind.
  cbn [edge_id edge_source edge_target edge_sourceHandle edge_targetHandle
       edge_label edge_data rel_id rel_source rel_target rel_kind
       rel_sourceMult rel_targetMult rel_label orElse].
  by destruct (isRelationshipKind (Some (RelationshipEditor.formKind form))).
Qed.

(** The store after [handleSaveRelationship], edge by edge. *)
Lemma handleSaveRelationship_edges (id : string)
    (r : RelationshipEditor.Relationship) (form : RelationshipEditor.Form)
    (c : CanvasState) :
  RelationshipEditor.id r = id →
  Forall Normalized (edges (store c)) →
  let c' := handleSaveRelationship (RelationshipEditor.handleSave r form) c in
  ∀ j e, edges (store c) !! j = Some e →
    ∃ d, edge_data e = Some d
         ∧ edges (store c') !! j
           = Some (if bool_decide (edge_id e = Some id)
                   then savedEdge form e d else e).
Proof.
  intros Hid Hall c' j e Hj.
  assert (Normalized e) as Hn.
  { eapply Forall_forall; [exact Hall|]. by eapply list_elem_of_lookup_2. }
  destruct (Normalized_data e Hn) as (d & Hd & _).
  exists d. split; [exact Hd|].
  subst c'. unfold handleSaveRelationship, updateEdgeData, updateEdge.
  cbn [store edges withEdges RelationshipEditor.handleSave
       RelationshipEditor.id RelationshipEditor.kind
       RelationshipEditor.sourceMult RelationshipEditor.targetMult
       RelationshipEditor.label].
  change (map ?f ?l) with (f <$> l).
  rewrite !list_lookup_fmap, Hj, Hid. cbn [fmap option_fmap option_map].
  destruct (decide (edge_id e = Some id)) as [Hm|Hm].
  - rewrite !(bool_decide_eq_true_2 (edge_id e = Some id)) by exact Hm.
    rewrite (updateEdge_label_hit e _ Hn).
    f_equal. by apply save_hit.
  - by rewrite !(bool_decide_eq_false_2 (edge_id e = Some id)) by exact Hm.
Qed.

(** X9. Saving the relationship editor. After the edit event for an edge
    of a store with normalized edges, "Guardar" closes the editor and
    writes the form into every edge with that id: the top-level label and
    the label of the bundle become the label of the form, the
    multiplicities become those of the form, the kind becomes the kind of
    the form ("simple" when that is not a valid kind), while id, source,
    target and handles stay. Every other edge, the nodes, the table editor
    and the length and order of the edge list are untouched. *)
Theorem saveRelationship_writes_form (id : string)
    (form : RelationshipEditor.Form) (c : CanvasState) :
  Forall Normalized (edges (store c)) →
  Some id ∈ edge_id <$> edges (store c) →
  let c' := saveRelationship form (handleEditRelationship id c) in
  editingEdge c' = None ∧ isRelationshipEditorOpen c' = false
  ∧ editingNode c' = editingNode c ∧ isEditorOpen c' = isEditorOpen c
  ∧ nodes (store c') = nodes (store c)
  ∧ length (edges (store c')) = length (edges (store c))
  ∧ (∀ j e, edges (store c) !! j = Some e → edge_id e ≠ Some id →
            edges (store c') !! j = Some e)
  ∧ (∀ j e, edges (store c) !! j = Some e → edge_id e = Some id →
       ∃ d, edge_data e = Some d
            ∧ edges (store c') !! j = Some (savedEdge form e d)).
Proof.
  intros Hall Hin c'.
  destruct (find_edge id _ Hin) as (e0 & Hfind & He0 & Hid0).
  pose (r := RelationshipEditor.mkRelationship id
                (edge_source e0) (edge_target e0)
                (orDefault (edge_data e0 ≫= rel_kind) "simple")
                (orDefault (edge_data e0 ≫= rel_sourceMult) "1")
                (orDefault (edge_data e0 ≫= rel_targetMult) "*")
                (orDefault (orElse (edge_data e0 ≫= rel_label)
                                   (edge_label e0)) "")).
  assert (c' = handleSaveRelationship (RelationshipEditor.handleSave r form)
                 (mkCanvas (store c) (editingNode c) (isEditorOpen c)
                           (Some e0) true)) as Hc'.
  { subst c'. unfold handleEditRelationship. rewrite Hfind.
    unfold saveRelationship. cbn [editingEdge mbind option_bind].
    unfold relationshipProp. by rewrite Hid0. }
  pose proof (handleSaveRelationship_edges id r form
                (mkCanvas (store c) (editingNode c) (isEditorOpen c)
                          (Some e0) true) (eq_refl id) Hall) as Hedges.
  cbv zeta in Hedges. rewrite <- Hc' in Hedges. cbn [store] in Hedges.
  split; [by rewrite Hc'|]. split; [by rewrite Hc'|].
  split; [by rewrite Hc'|]. split; [by rewrite Hc'|].
  split; [by rewrite Hc'|].
  split.
  { rewrite Hc'. unfold handleSaveRelationship, updateEdgeData, updateEdge.
    cbn [store edges withEdges]. by rewrite !length_map. }
  split.
  - intros j e Hj Hne. destruct (Hedges j e Hj) as (d & _ & Hlook).
    by rewrite bool_decide_eq_false_2 in Hlook.
  - intros j e Hj Heq. destruct (Hedges j e Hj) as (d & Hd & Hlook).
    exists d. split; [exact Hd|]. by rewrite bool_decide_eq_true_2 in Hlook.
Qed.

Lemma saveRelationship_writes_form_witness :
  let form := RelationshipEditor.mkForm "flechaBlanca" "1" "0..*" "escribe" in
  let c' := saveRelationship form
              (handleEditRelationship "edge-usuario-post-ai" usuarioPostCanvas) in
  Forall Normalized (edges (store usuarioPostCanvas))
  ∧ (Some "edge-usuario-post-ai" ∈ edge_id <$> edges (store usuarioPostCanvas))
  ∧ edges (store c')
    = [ mkEdge (Some "edge-usuario-post-ai") (Some "node-usuario-ai")
          (Some "node-post-ai") None None (Some "escribe")
          (Some (mkRel (Some "edge-usuario-post-ai") (Some "node-usuario-ai")
                       (Some "node-post-ai") (Some "flechaBlanca") (Some "1")
                       (Some "0..*") (Some "escribe"))) ]
  ∧ editingEdge c' = None.
Proof.
  intros form c'.
  assert (Forall Normalized (edges (store usuarioPostCanvas))) as Hall
    by apply Forall_Normalized_map.
  assert (Some "edge-usuario-post-ai" ∈ edge_id <$> edges (store usuarioPostCanvas))
    as Hin by (cbn; elem_of_list).
  split; [exact Hall|]. split; [exact Hin|]. split; [reflexivity|].
  pose proof (saveRelationship_writes_form "edge-usuario-post-ai" form
                usuarioPostCanvas Hall Hin) as H.
  cbv zeta in H. destruct H as (Hclosed & _). exact Hclosed.
Defined.

Lemma map_id_on {A : Type} (f : A → A) (l : list A) :
  (∀ x, x ∈ l → f x = x) → map f l = l.
Proof.
  induction l as [|x l IH]; intros Hf; [reflexivity|].
  simpl. rewrite (Hf x) by apply list_elem_of_here.
  f_equal. apply IH. intros y Hy. by apply Hf, list_elem_of_further.
Qed.

(** X10. Opening the relationship editor and saving it unchanged is the
    identity on the store: in a store with normalized edges and distinct
    edge ids, when the top-level label of the edge agrees with the label of
    its bundle, the form seeded from the edge writes back exactly what was
    there. *)
Theorem saveRelationship_round_trip (id : string) (e : DiagramEdge)
    (d : RelationshipData) (c : CanvasState) :
  Forall Normalized (edges (store c)) →
  NoDup (edge_id <$> edges (store c)) →
  e ∈ edges (store c) → edge_id e = Some id →
  edge_data e = Some d → edge_label e = rel_label d →
  let opened := handleEditRelationship id c in
  let form := RelationshipEditor.seed (editingEdge opened ≫= relationshipProp)
                                      RelationshipEditor.initialForm in
  editingEdge opened = Some e
  ∧ store (saveRelationship form opened) = store c.
Proof.
  intros Hall Hnd He Hid Hd Hlabel opened form.
  assert (Some id ∈ edge_id <$> edges (store c)) as Hin.
  { rewrite <- Hid. by apply list_elem_of_fmap_2. }
  destruct (find_edge id _ Hin) as (e0 & Hfind & He0 & Hid0).
  assert (∀ x, x ∈ edges (store c) → edge_id x = Some id → x = e) as Huniq.
  { intros x Hx Hxid.
    apply list_elem_of_lookup in Hx as [i Hi].
    apply list_elem_of_lookup in He as [j Hj].
    assert (i = j) as ->.
    { apply (NoDup_lookup _ i j (Some id) Hnd);
        rewrite list_lookup_fmap; [rewrite Hi|rewrite Hj]; simpl; congruence. }
    congruence. }
  assert (e0 = e) as -> by (by apply Huniq).
  assert (editingEdge opened = Some e) as Hopened.
  { unfold opened, handleEditRelationship. by rewrite Hfind. }
  split; [exact Hopened|].
  assert (Normalized e) as Hn by (eapply Forall_forall; [exact Hall|done]).
  destruct (Normalized_data e Hn)
    as (d' & Hd' & _ & _ & _ & Hk & [sm Hsm] & [tm Htm] & [l Hl]).
  rewrite Hd in Hd'. injection Hd' as <-.
  assert (form = RelationshipEditor.mkForm
                   (orDefault (rel_kind d) "simple") sm tm l) as Hform.
  { unfold form. rewrite Hopened. cbn [mbind option_bind].
    unfold relationshipProp. rewrite Hid, Hd. simpl.
    by rewrite Hsm, Htm, Hl. }
  pose (r := RelationshipEditor.mkRelationship id
                (edge_source e) (edge_target e)
                (orDefault (edge_data e ≫= rel_kind) "simple")
                (orDefault (edge_data e ≫= rel_sourceMult) "1")
                (orDefault (edge_data e ≫= rel_targetMult) "*")
                (orDefault (orElse (edge_data e ≫= rel_label)
                                   (edge_label e)) "")).
  assert (saveRelationship form opened
          = handleSaveRelationship (RelationshipEditor.handleSave r form) opened)
    as Hsave.
  { unfold saveRelationship. rewrite Hopened. cbn [mbind option_bind].
    unfold relationshipProp. by rewrite Hid. }
  rewrite Hsave.
  assert (store opened = store c) as Hstore
    by (unfold opened, handleEditRelationship; by rewrite Hfind).
  assert (Forall Normalized (edges (store opened))) as Hall'
    by (by rewrite Hstore).
  pose proof (handleSaveRelationship_edges id r form opened (eq_refl id) Hall')
    as Hedges.
  cbv zeta in Hedges.
  set (c' := handleSaveRelationship _ opened) in *.
  apply state_eq;
    [by subst c'; rewrite <- Hstore | | by subst c'; rewrite <- Hstore ..].
  apply list_eq. intros j.
  destruct (edges (store c) !! j) as [x|] eqn:Hj.
  - rewrite <- Hstore in Hj. destruct (Hedges j x Hj) as (dx & Hdx & Hlook).
    rewrite Hlook. f_equal. case_bool_decide as Hm; [|reflexivity].
    rewrite Hstore in Hj.
    assert (x = e) as -> by (apply Huniq; [by eapply list_elem_of_lookup_2|done]).
    rewrite Hd in Hdx. injection Hdx as <-.
    rewrite Hform. unfold savedEdge, storedKind.
    cbn [RelationshipEditor.formKind RelationshipEditor.formSourceMult
         RelationshipEditor.formTargetMult RelationshipEditor.formLabel].
    destruct e as [i s t sh th lb dt]. destruct d as [di ds dt' dk dsm dtm dl].
    cbn [edge_id edge_source edge_target edge_sourceHandle edge_targetHandle
         edge_label edge_data rel_id rel_source rel_target rel_kind
         rel_sourceMult rel_targetMult rel_label] in *.
    destruct dk as [k|]; [|discriminate Hk].
    cbn [orDefault]. rewrite Hk. congruence.
  - apply lookup_ge_None in Hj. apply lookup_ge_None.
    subst c'. unfold handleSaveRelationship, updateEdgeData, updateEdge.
    cbn [store edges withEdges]. rewrite !length_map. by rewrite Hstore.
Qed.

Lemma saveRelationship_round_trip_witness :
  let e := buildEdge "edge-usuario-post-ai" "node-usuario-ai" "node-post-ai"
                     "1" "*" "simple" "Usuario crea Post" in
  let opened := handleEditRelationship "edge-usuario-post-ai" usuarioPostCanvas in
  e ∈ edges (store usuarioPostCanvas)
  ∧ NoDup (edge_id <$> edges (store usuarioPostCanvas))
  ∧ RelationshipEditor.seed (editingEdge opened ≫= relationshipProp)
                            RelationshipEditor.initialForm
    = RelationshipEditor.mkForm "simple" "1" "*" "Usuario crea Post"
  ∧ store (saveRelationship
             (RelationshipEditor.seed (editingEdge opened ≫= relationshipProp)
                                      RelationshipEditor.initialForm) opened)
    = store usuarioPostCanvas.
Proof.
  intros e opened.
  assert (e ∈ edges (store usuarioPostCanvas)) as He by (cbn; elem_of_list).
  assert (NoDup (edge_id <$> edges (store usuarioPostCanvas))) as Hnd
    by (apply (bool_decide_unpack _); vm_compute; exact I).
  split; [exact He|]. split; [exact Hnd|]. split; [reflexivity|].
  pose proof (saveRelationship_round_trip "edge-usuario-post-ai" e _
                usuarioPostCanvas (Forall_Normalized_map _) Hnd He
                eq_refl eq_refl eq_refl) as H.
  cbv zeta in H. destruct H as [_ Hstore]. exact Hstore.
Defined.

(** ** Stripping a class of characters from both ends *)

Lemma trimStart_stripStart (s : string) : trimStart s = stripStart isSpace s.
Proof. induction s as [|c r IH]; [reflexivity|]. simpl. by rewrite IH. Qed.

Lemma allSpace_allChars (s : string) : allSpace s = allChars isSpace s.
Proof. induction s as [|c r IH]; [reflexivity|]. simpl. by rewrite IH. Qed.

Lemma stripEnd_cons (p : ascii → bool) (c : ascii) (r : string) :
  stripEnd p (String c r)
  = if allChars p (String c r) then EmptyString else String c (stripEnd p r).
Proof. reflexivity. Qed.

Lemma trimEnd_stripEnd (s : string) : trimEnd s = stripEnd isSpace s.
Proof.
  induction s as [|c r IH]; [reflexivity|].
  by rewrite trimEnd_cons, stripEnd_cons, allSpace_allChars, IH.
Qed.

Lemma stripStart_head (p : ascii → bool) (s : string) :
  headOk p (stripStart p s) = true.
Proof.
  induction s as [|c r IH]; [reflexivity|]. simpl.
  destruct (p c) eqn:Hc; [exact IH|]. simpl. by rewrite Hc.
Qed.

Lemma stripStart_fixed (p : ascii → bool) (s : string) :
  headOk p s = true → stripStart p s = s.
Proof.
  destruct s as [|c r]; [reflexivity|]. simpl. by destruct (p c).
Qed.

Lemma stripEnd_head (p : ascii → bool) (s : string) :
  headOk p s = true → headOk p (stripEnd p s) = true.
Proof.
  destruct s as [|c r]; [reflexivity|]. intros Hc. simpl in Hc.
  rewrite stripEnd_cons. cbn [allChars].
  destruct (p c) eqn:Hpc; [discriminate|]. simpl. by rewrite Hpc.
Qed.

Lemma stripEnd_allChars (p : ascii → bool) (s : string) :
  allChars p s = false → allChars p (stripEnd p s) = false.
Proof.
  induction s as [|c r IH]; [done|]. intros Hs.
  rewrite stripEnd_cons, Hs. simpl in *.
  destruct (p c); [|reflexivity]. simpl in *. by apply IH.
Qed.

Lemma stripEnd_idem (p : ascii → bool) (s : string) :
  stripEnd p (stripEnd p s) = stripEnd p s.
Proof.
  induction s as [|c r IH]; [reflexivity|].
  rewrite stripEnd_cons. destruct (allChars p (String c r)) eqn:Hs; [reflexivity|].
  rewrite stripEnd_cons.
  assert (allChars p (String c (stripEnd p r)) = false) as ->.
  { simpl in *. destruct (p c); [|reflexivity]. simpl in *.
    by apply stripEnd_allChars. }
  by rewrite IH.
Qed.

Lemma stripEnd_nonempty (p : ascii → bool) (s : string) :
  allChars p s = false → stripEnd p s ≠ EmptyString.
Proof.
  destruct s as [|c r]; [done|]. intros Hs. by rewrite stripEnd_cons, Hs.
Qed.

Lemma stripStart_allChars (p : ascii → bool) (s : string) :
  allChars p (stripStart p s) = allChars p s || negb (truthy (stripStart p s)).
Proof.
  induction s as [|c r IH]; [reflexivity|]. simpl.
  destruct (p c) eqn:Hc; simpl; [exact IH|]. by rewrite Hc.
Qed.

Lemma trim_strip (s : string) :
  trim s = stripEnd isSpace (stripStart isSpace s).
Proof. unfold trim. by rewrite trimEnd_stripEnd, trimStart_stripStart. Qed.

Lemma trim_idem (s : string) : trim (trim s) = trim s.
Proof.
  rewrite !trim_strip.
  rewrite (stripStart_fixed isSpace (stripEnd isSpace (stripStart isSpace s))).
  - apply stripEnd_idem.
  - apply stripEnd_head, stripStart_head.
Qed.

Lemma trim_allSpace (s : string) : allSpace s = true → trim s = EmptyString.
Proof.
  intros Hs. rewrite trim_strip.
  assert (allChars isSpace (stripStart isSpace s) = true) as Hall.
  { rewrite stripStart_allChars, <- allSpace_allChars, Hs. reflexivity. }
  destruct (stripStart isSpace s) as [|c r]; [reflexivity|].
  by rewrite stripEnd_cons, Hall.
Qed.

Lemma trim_not_allSpace (s : string) : allSpace s = false → trim s ≠ EmptyString.
Proof.
  intros Hs. rewrite trim_strip. apply stripEnd_nonempty.
  rewrite stripStart_allChars, <- allSpace_allChars, Hs. simpl.
  destruct (stripStart isSpace s) eqn:Hst; [|reflexivity].
  exfalso. clear -Hs Hst. induction s as [|c r IH]; [done|].
  simpl in *. destruct (isSpace c); [by apply IH|done].
Qed.

Lemma orStr_nonempty (a b : string) : b ≠ EmptyString → orStr a b ≠ EmptyString.
Proof. unfold orStr. by destruct a. Qed.

(** ** The table editor *)

(** X11. The name the table editor saves is never blank: it is the name in
    the buffer without its surrounding white space, and "Tabla" when
    nothing else is left; it has no white space at either end. *)
Theorem savedName_never_blank (st : TableEditor.State) :
  TableEditor.savedName st ≠ ""
  ∧ trim (TableEditor.savedName st) = TableEditor.savedName st
  ∧ headOk isSpace (TableEditor.savedName st) = true
  ∧ (allSpace (TableEditor.tableName st) = true →
     TableEditor.savedName st = "Tabla")
  ∧ (allSpace (TableEditor.tableName st) = false →
     TableEditor.savedName st = trim (TableEditor.tableName st))
  ∧ (∀ name, name ≠ "" → trim name = name →
     TableEditor.savedName (TableEditor.setTableName name st) = name).
Proof.
  unfold TableEditor.savedName.
  assert (∀ s, trim (orStr (trim s) "Tabla") = orStr (trim s) "Tabla") as Hidem.
  { intros s. unfold orStr. destruct (trim s) eqn:Hs; [reflexivity|].
    simpl. rewrite <- Hs. apply trim_idem. }
  split; [by apply orStr_nonempty|].
  split; [apply Hidem|].
  split.
  { rewrite <- Hidem, trim_strip. apply stripEnd_head, stripStart_head. }
  split; [intros Hs; by rewrite (trim_allSpace _ Hs)|].
  split.
  { intros Hs. pose proof (trim_not_allSpace _ Hs) as Hne.
    unfold orStr. by destruct (trim (TableEditor.tableName st)). }
  intros name Hne Htrim. cbn [TableEditor.setTableName TableEditor.tableName].
  rewrite Htrim. unfold orStr. by destruct name.
Qed.

Lemma filter_app_fresh {A : Type} (P : A → Prop) `{∀ x, Decision (P x)}
    (l : list A) (x : A) :
  Forall P l → ¬ P x → filter P (l ++ [x]) = l.
Proof.
  intros Hl Hx. rewrite filter_app, (filter_all P l Hl).
  rewrite filter_cons_False by done. by rewrite filter_nil, app_nil_r.
Qed.

(** X12. Editing the columns of the buffer. A column added and then removed
    leaves the columns as they were, provided no column already carried the
    generated id; the added column is never a primary key, so adding one
    does not change whether the table has a primary key; an update touches
    only the columns with the given id and leaves their number and order,
    an update with no field changes nothing; and none of the three touches
    the name. *)
Theorem TableEditor_column_edits (now : N) (st : TableEditor.State) :
  let newId := "column-" +:+ ofN now in
  ((newId ∉ col_id <$> TableEditor.columns st) →
   TableEditor.handleRemoveColumn newId (TableEditor.handleAddColumn now st) = st)
  ∧ TableEditor.hasPrimaryKey (TableEditor.handleAddColumn now st)
    = TableEditor.hasPrimaryKey st
  ∧ length (TableEditor.columns (TableEditor.handleAddColumn now st))
    = S (length (TableEditor.columns st))
  ∧ (∀ columnId updates,
       let st' := TableEditor.handleUpdateColumn columnId updates st in
       length (TableEditor.columns st') = length (TableEditor.columns st)
       ∧ (∀ i column, TableEditor.columns st !! i = Some column →
            col_id column ≠ columnId →
            TableEditor.columns st' !! i = Some column)
       ∧ TableEditor.tableName st' = TableEditor.tableName st)
  ∧ (∀ columnId,
       TableEditor.handleUpdateColumn columnId
         (TableEditor.mkUpdates None None None None None) st = st)
  ∧ (∀ columnId,
       Forall (λ column, col_id column ≠ columnId)
              (TableEditor.columns (TableEditor.handleRemoveColumn columnId st))).
Proof.
  intros newId. destruct st as [name cols].
  unfold TableEditor.handleRemoveColumn, TableEditor.handleAddColumn,
    TableEditor.handleUpdateColumn, TableEditor.hasPrimaryKey.
  cbn [TableEditor.tableName TableEditor.columns].
  split.
  { intros Hfresh. f_equal. apply filter_app_fresh.
    - apply Forall_forall. intros x Hx Heq. apply Hfresh.
      rewrite <- Heq. by apply list_elem_of_fmap_2.
    - cbn [col_id]. intros Hne. by apply Hne. }
  split.
  { rewrite existsb_app. simpl. by rewrite !orb_false_r. }
  split; [rewrite length_app; simpl; lia|].
  split.
  { intros columnId updates. cbn zeta.
    split; [apply length_map|]. split; [|reflexivity].
    intros i column Hi Hne. change (map ?f ?l) with (f <$> l).
    rewrite list_lookup_fmap, Hi. simpl. by rewrite bool_decide_eq_false_2. }
  split.
  { intros columnId. f_equal. apply map_id_on. intros x _.
    case_bool_decide; [|reflexivity]. by destruct x. }
  intros columnId. apply Forall_forall.
  by intros x [Hx _]%list_elem_of_filter.
Qed.

(** ** Creating and editing a table on the canvas *)

Lemma existsb_node_id (id : string) (ns : list DiagramNode) :
  existsb (λ node, bool_decide (node_id node = id)) ns = true
  ↔ id ∈ node_id <$> ns.
Proof.
  rewrite existsb_exists, list_elem_of_fmap. split.
  - intros (n & Hin & Hp). exists n.
    apply bool_decide_eq_true in Hp. split; [done|]. by apply list_elem_of_In.
  - intros (n & -> & Hin). exists n. split; [by apply list_elem_of_In|].
    by apply bool_decide_eq_true.
Qed.




Lemma findNode_elem (id : string) (ns : list DiagramNode) :
  id ∈ node_id <$> ns →
  ∃ n, findNode id ns = Some n ∧ n ∈ ns ∧ node_id n = id.
Proof.
  intros (n0 & Hid & Hin)%list_elem_of_fmap. unfold findNode.
  destruct (List.find _ ns) as [n|] eqn:Hfind.
  - apply find_some in Hfind as [HIn Hp]. exists n.
    split; [done|]. split; [by apply list_elem_of_In|].
    by apply bool_decide_eq_true in Hp.
  - apply list_elem_of_In in Hin.
    pose proof (find_none _ _ Hfind n0 Hin) as Hp. simpl in Hp.
    apply bool_decide_eq_false in Hp. congruence.
Qed.

Lemma findNode_absent (id : string) (ns : list DiagramNode) :
  id ∉ node_id <$> ns → findNode id ns = None.
Proof.
  intros Hid. unfold findNode.
  destruct (List.find _ ns) as [n|] eqn:Hfind; [|reflexivity].
  apply find_some in Hfind as [HIn Hp]. apply bool_decide_eq_true in Hp.
  exfalso. apply Hid. rewrite <- Hp. apply list_elem_of_fmap_2.
  by apply list_elem_of_In.
Qed.

(** X14. Editing a table that is on the canvas, then "Guardar". The editor
    opens on the node with the given id; saving gives every node with that
    id the saved name (never blank) and the columns of the buffer, keeps
    the ids, the types and the positions of all nodes in their order,
    leaves the other nodes and the edges as they were, and closes the
    editor. For an id that is not on the canvas the editor does not open,
    and saving changes nothing. *)
Theorem handleEditNode_then_save (id : string) (form : TableEditor.State)
    (c : CanvasState) :
  let opened := handleEditNode id c in
  let saved := saveTable form opened in
  store opened = store c
  ∧ ((id ∈ node_id <$> nodes (store c)) →
     isEditorOpen opened = true
     ∧ (∃ n, editingNode opened = Some n ∧ n ∈ nodes (store c) ∧ node_id n = id)
     ∧ (node_id <$> nodes (store saved)) = (node_id <$> nodes (store c))
     ∧ (node_type <$> nodes (store saved)) = (node_type <$> nodes (store c))
     ∧ (node_position <$> nodes (store saved))
       = (node_position <$> nodes (store c))
     ∧ (∀ i n, nodes (store c) !! i = Some n →
          nodes (store saved) !! i
          = Some (if bool_decide (node_id n = id)
                  then mkNode (node_id n) (node_type n) (node_position n)
                         (mkNodeData (TableEditor.savedName form)
                                     (TableEditor.columns form) None None)
                  else n)))
  ∧ ((id ∉ node_id <$> nodes (store c)) →
     isEditorOpen opened = false ∧ editingNode opened = None
     ∧ store saved = store c)
  ∧ edges (store saved) = edges (store c)
  ∧ editingNode saved = None ∧ isEditorOpen saved = false.
Proof.
  intros opened saved.
  split; [reflexivity|].
  destruct (decide (id ∈ node_id <$> nodes (store c))) as [Hin|Hout].
  - destruct (findNode_elem id _ Hin) as (n & Hfind & Hn & Hid).
    assert (saved
            = mkCanvas
                (updateNodeData id
                   (mkNodeData (TableEditor.savedName form)
                               (TableEditor.columns form) None None) (store c))
                None false (editingEdge c) (isRelationshipEditorOpen c)) as ->.
    { unfold saved, saveTable, handleSaveTable, opened, handleEditNode.
      rewrite Hfind. cbn [editingNode store editingEdge isRelationshipEditorOpen].
      rewrite Hid. rewrite (proj2 (existsb_node_id id _) Hin). reflexivity. }
    unfold opened, handleEditNode. rewrite Hfind.
    cbn [store editingNode isEditorOpen nodes edges updateNodeData withNodes].
    split; [|split; [done|done]].
    intros _. split; [reflexivity|].
    split; [by exists n|].
    change (map ?f ?l) with (f <$> l).
    split.
    { rewrite <- list_fmap_compose. apply list_fmap_ext.
      intros i x _. simpl. by case_bool_decide. }
    split.
    { rewrite <- list_fmap_compose. apply list_fmap_ext.
      intros i x _. simpl. by case_bool_decide. }
    split.
    { rewrite <- list_fmap_compose. apply list_fmap_ext.
      intros i x _. simpl. by case_bool_decide. }
    intros i x Hi. rewrite list_lookup_fmap, Hi. reflexivity.
  - pose proof (findNode_absent id _ Hout) as Hfind.
    assert (saved = mkCanvas (store c) None false (editingEdge c)
                             (isRelationshipEditorOpen c)) as ->.
    { unfold saved, saveTable, handleSaveTable, opened, handleEditNode.
      rewrite Hfind. reflexivity. }
    unfold opened, handleEditNode. rewrite Hfind.
    cbn [store editingNode isEditorOpen].
    split; [done|]. split; [|done]. intros _. done.
Qed.

(** X15. Opening the table editor on an ordinary table and saving it
    unchanged is the identity on the canvas: with distinct node ids, when
    the label of the node is not blank and has no surrounding white space
    and the node is not a join entity, the buffer seeded from the node
    writes back exactly what was there. *)
Theorem saveTable_round_trip (n : DiagramNode) (c : CanvasState) :
  NoDup (node_id <$> nodes (store c)) →
  n ∈ nodes (store c) →
  label (node_data n) ≠ "" → trim (label (node_data n)) = label (node_data n) →
  isJoin (node_data n) = None → joinOf (node_data n) = None →
  let opened := handleEditNode (node_id n) c in
  let form := TableEditor.seed (label (node_data n)) (columns (node_data n)) in
  editingNode opened = Some n
  ∧ store (saveTable form opened) = store c.
Proof.
  intros Hnd Hn Hne Htrim Hj Hjo opened form.
  assert (node_id n ∈ node_id <$> nodes (store c)) as Hin
    by (by apply list_elem_of_fmap_2).
  destruct (findNode_elem _ _ Hin) as (n0 & Hfind & Hn0 & Hid).
  assert (∀ x, x ∈ nodes (store c) → node_id x = node_id n → x = n) as Huniq.
  { intros x Hx Hxid.
    apply list_elem_of_lookup in Hx as [i Hi].
    pose proof Hn as [j Hj']%list_elem_of_lookup.
    assert (i = j) as ->.
    { apply (NoDup_lookup _ i j (node_id n) Hnd);
        rewrite list_lookup_fmap; [rewrite Hi|rewrite Hj']; simpl; congruence. }
    congruence. }
  assert (n0 = n) as -> by (by apply Huniq).
  assert (editingNode opened = Some n) as Hopened
    by (unfold opened, handleEditNode; by rewrite Hfind).
  split; [exact Hopened|].
  unfold saveTable, handleSaveTable. rewrite Hopened.
  assert (store opened = store c) as -> by reflexivity.
  rewrite (proj2 (existsb_node_id (node_id n) _) Hin).
  cbn [handleCloseEditor store].
  unfold TableEditor.savedName, form, TableEditor.seed.
  cbn [TableEditor.tableName TableEditor.columns].
  rewrite Htrim. replace (orStr (label (node_data n)) "Tabla")
    with (label (node_data n)) by (unfold orStr; by destruct (label (node_data n))).
  apply state_eq; try reflexivity.
  cbn [nodes updateNodeData withNodes]. apply map_id_on.
  intros x Hx. case_bool_decide as Hm; [|reflexivity].
  rewrite (Huniq x Hx Hm).
  destruct n as [i t p [l cs j jo]]. simpl in *. by subst.
Qed.

Lemma saveTable_round_trip_witness :
  let c := mkCanvas clientePedidoStore None false None false in
  NoDup (node_id <$> nodes (store c))
  ∧ pedidoNode ∈ nodes (store c)
  ∧ store (saveTable (TableEditor.seed "Pedido" [pkCol "p-id" "id" "INT" false])
                     (handleEditNode "p" c))
    = store c.
Proof.
  intros c.
  assert (NoDup (node_id <$> nodes (store c))) as Hnd
    by (apply (bool_decide_unpack _); vm_compute; exact I).
  assert (pedidoNode ∈ nodes (store c)) as Hin by (cbn; elem_of_list).
  split; [exact Hnd|]. split; [exact Hin|].
  pose proof (saveTable_round_trip pedidoNode c Hnd Hin
                ltac:(discriminate) eq_refl eq_refl eq_refl) as H.
  cbv zeta in H. destruct H as [_ Hstore]. exact Hstore.
Defined.

(** ** The file name of an export *)

Lemma isSlugChar_not_dash (c : ascii) : isSlugChar c = true → isDash c = false.
Proof. by destruct c as [[|] [|] [|] [|] [|] [|] [|] [|]]. Qed.

Lemma isSlugChar_lowerChar (c : ascii) : isSlugChar c = true → lowerChar c = c.
Proof. by destruct c as [[|] [|] [|] [|] [|] [|] [|] [|]]. Qed.

Lemma isDash_eq (c : ascii) : isDash c = true → c = "-"%char.
Proof. by destruct c as [[|] [|] [|] [|] [|] [|] [|] [|]]. Qed.

Lemma replaceNonSlugRunsFrom_shape (inRun : bool) (s : string) :
  singleDashes (replaceNonSlugRunsFrom inRun s) = true
  ∧ (inRun = true → headOk isDash (replaceNonSlugRunsFrom inRun s) = true).
Proof.
  revert inRun. induction s as [|c r IH]; intros inRun; [done|].
  cbn [replaceNonSlugRunsFrom]. destruct (isSlugChar c) eqn:Hc.
  - cbn [singleDashes headOk]. rewrite Hc, (isSlugChar_not_dash c Hc).
    split; [apply IH | done].
  - destruct inRun.
    + apply IH.
    + split; [|discriminate].
      destruct (IH true) as [Hs Hh].
      cbn [singleDashes]. by rewrite Hs, Hh.
Qed.

Lemma singleDashes_tail (c : ascii) (r : string) :
  singleDashes (String c r) = true → singleDashes r = true.
Proof.
  simpl. destruct (isSlugChar c); [done|].
  by intros [_ ?]%andb_prop.
Qed.

Lemma singleDashes_stripStart (s : string) :
  singleDashes s = true → singleDashes (stripStart isDash s) = true.
Proof.
  induction s as [|c r IH]; [done|]. intros Hs.
  cbn [stripStart]. destruct (isDash c); [|exact Hs].
  by apply IH, (singleDashes_tail c).
Qed.

Lemma singleDashes_stripEnd (s : string) :
  singleDashes s = true → singleDashes (stripEnd isDash s) = true.
Proof.
  induction s as [|c r IH]; [done|]. intros Hs.
  rewrite stripEnd_cons. destruct (allChars isDash (String c r)); [done|].
  pose proof (singleDashes_tail c r Hs) as Hr.
  cbn [singleDashes] in *. destruct (isSlugChar c); [by apply IH|].
  apply andb_prop in Hs as [[Hd Hh]%andb_prop _].
  by rewrite Hd, (stripEnd_head isDash r Hh), (IH Hr).
Qed.

Lemma slugifyName_is_Slug (value : string) : Slug (slugifyName value).
Proof.
  unfold slugifyName.
  set (t := replaceNonSlugRunsFrom false (toLowerCase value)).
  split; [|split].
  - apply singleDashes_stripEnd, singleDashes_stripStart.
    apply replaceNonSlugRunsFrom_shape.
  - apply stripEnd_head, stripStart_head.
  - apply stripEnd_idem.
Qed.

Lemma singleDashes_lower (s : string) :
  singleDashes s = true → toLowerCase s = s.
Proof.
  induction s as [|c r IH]; [done|]. intros Hs.
  pose proof (singleDashes_tail c r Hs) as Hr.
  cbn [toLowerCase]. rewrite (IH Hr). f_equal.
  cbn [singleDashes] in Hs. destruct (isSlugChar c) eqn:Hc.
  - by apply isSlugChar_lowerChar.
  - apply andb_prop in Hs as [[Hd _]%andb_prop _].
    by rewrite (isDash_eq c Hd).
Qed.

Lemma singleDashes_fixed (s : string) :
  singleDashes s = true →
  replaceNonSlugRunsFrom false s = s
  ∧ (headOk isDash s = true → replaceNonSlugRunsFrom true s = s).
Proof.
  induction s as [|c r IH]; [done|]. intros Hs.
  pose proof (singleDashes_tail c r Hs) as Hr.
  destruct (IH Hr) as [IH1 IH2].
  cbn [replaceNonSlugRunsFrom singleDashes headOk] in *.
  destruct (isSlugChar c) eqn:Hc.
  - rewrite IH1. done.
  - apply andb_prop in Hs as [[Hd Hh]%andb_prop _].
    rewrite Hd. split; [|done].
    by rewrite (IH2 Hh), (isDash_eq c Hd).
Qed.

Lemma Slug_fixed (s : string) : Slug s → slugifyName s = s.
Proof.
  intros (Hs & Hh & He). unfold slugifyName.
  rewrite (singleDashes_lower s Hs).
  rewrite (proj1 (singleDashes_fixed s Hs)).
  by rewrite (stripStart_fixed isDash s Hh).
Qed.

Lemma allSlug_Slug (s : string) : allChars isSlugChar s = true → Slug s.
Proof.
  intros Hs. split; [|split].
  - induction s as [|c r IH]; [done|]. simpl in *.
    apply andb_prop in Hs as [Hc Hr]. rewrite Hc. by apply IH.
  - destruct s as [|c r]; [done|]. simpl in *.
    apply andb_prop in Hs as [Hc _]. by rewrite (isSlugChar_not_dash c Hc).
  - induction s as [|c r IH]; [done|].
    rewrite stripEnd_cons. simpl in *.
    apply andb_prop in Hs as [Hc Hr].
    rewrite (isSlugChar_not_dash c Hc). simpl. by rewrite (IH Hr).
Qed.

Lemma singleDashes_class (s : string) :
  singleDashes s = true → allChars (λ c, isSlugChar c || isDash c) s = true.
Proof.
  induction s as [|c r IH]; [done|]. intros Hs.
  pose proof (singleDashes_tail c r Hs) as Hr.
  cbn [singleDashes allChars] in *. rewrite (IH Hr).
  destruct (isSlugChar c); [done|].
  apply andb_prop in Hs as [[Hd _]%andb_prop _]. by rewrite Hd.
Qed.

Lemma singleDashes_no_double (s : string) :
  singleDashes s = true → includes s "--" = false.
Proof.
  induction s as [|c r IH]; [done|]. intros Hs.
  pose proof (singleDashes_tail c r Hs) as Hr.
  cbn [includes]. rewrite (IH Hr), orb_false_r.
  cbn [singleDashes] in Hs.
  change (String.prefix "--" (String c r))
    with (if ascii_dec "-" c then String.prefix "-" r else false).
  destruct (ascii_dec "-" c) as [<-|]; [|reflexivity].
  simpl in Hs. apply andb_prop in Hs as [Hh _].
  destruct r as [|d r']; [reflexivity|].
  change (String.prefix "-" (String d r'))
    with (if ascii_dec "-" d then String.prefix "" r' else false).
  destruct (ascii_dec "-" d) as [<-|]; [discriminate Hh | reflexivity].
Qed.

(** X16. [slugifyName] yields a slug: only lower-case letters, digits and
    dashes, no dash at either end and no two dashes in a row. A slug is
    its own slug, so slugifying twice is slugifying once, and a name of
    lower-case letters and digits is kept as it is. *)
Theorem slugifyName_slug (value : string) :
  let slug := slugifyName value in
  Slug slug
  ∧ allChars (λ c, isSlugChar c || isDash c) slug = true
  ∧ startsWith slug "-" = false
  ∧ stripEnd isDash slug = slug
  ∧ includes slug "--" = false
  ∧ slugifyName slug = slug
  ∧ (Slug value → slug = value)
  ∧ (allChars isSlugChar value = true → slug = value).
Proof.
  intros slug. pose proof (slugifyName_is_Slug value) as Hslug. fold slug in Hslug.
  destruct Hslug as (Hs & Hh & He).
  split; [done|].
  split; [by apply singleDashes_class|].
  split.
  { unfold startsWith. destruct slug as [|c r]; [reflexivity|].
    change (String.prefix "-" (String c r))
      with (if ascii_dec "-" c then String.prefix "" r else false).
    destruct (ascii_dec "-" c) as [<-|]; [discriminate Hh | reflexivity]. }
  split; [exact He|].
  split; [by apply singleDashes_no_double|].
  split; [by apply Slug_fixed|].
  split; [apply Slug_fixed|].
  intros Hall. by apply Slug_fixed, allSlug_Slug.
Qed.

(** ** Exporting the diagram *)

Lemma truthy_nonempty (s : string) : truthy s = true ↔ s ≠ "".
Proof. by destruct s. Qed.

(** X17. The export handler. On a canvas without nodes it only warns; when
    the name dialog is dismissed or the name is blank it does nothing at
    all; in both cases no request is sent and the busy flag is as it was.
    Otherwise it posts the trimmed name with the nodes and edges of the
    store and ends with the busy flag cleared: on success a file is
    offered whose name is the slug of the project name, or "spring-export"
    when that is empty, followed by ".zip"; on failure an alert is shown
    and no file is offered. *)
Theorem handleExportSpringBoot_effects (answer : option string)
    (exported : Outcome unit) (exporting : bool) (c : CanvasState) :
  let name := trim (orDefault answer "") in
  let result := handleExportSpringBoot answer exported exporting c in
  (nodes (store c) = [] →
   result = (exporting,
             [Alert "Necesitas al menos una tabla para exportar el backend."]))
  ∧ (nodes (store c) ≠ [] → allSpace (orDefault answer "") = true →
     result = (exporting, []))
  ∧ (nodes (store c) ≠ [] → allSpace (orDefault answer "") = false →
     name ≠ ""
     ∧ result.1 = false
     ∧ match exported with
       | Resolved _ =>
           ∃ file, result.2 = [ PostExport name (nodes (store c)) (edges (store c));
                                Download (file +:+ ".zip") ]
                   ∧ file ≠ ""
                   ∧ allChars (λ ch, isSlugChar ch || isDash ch) file = true
                   ∧ (slugifyName name ≠ "" → file = slugifyName name)
                   ∧ (slugifyName name = "" → file = "spring-export")
       | Rejected _ =>
           result.2 = [ PostExport name (nodes (store c)) (edges (store c));
                        Alert "No se pudo generar el proyecto Spring Boot." ]
       end)
  ∧ (∀ file, Download file ∈ result.2 →
       ∃ n, PostExport n (nodes (store c)) (edges (store c)) ∈ result.2).
Proof.
  intros name result. subst result. unfold handleExportSpringBoot. fold name.
  split.
  { intros ->. reflexivity. }
  split.
  { intros Hne Hblank. destruct (nodes (store c)) as [|n ns] eqn:Hn; [done|].
    cbn [length Nat.eqb]. unfold name. by rewrite (trim_allSpace _ Hblank). }
  split.
  { intros Hne Hblank. destruct (nodes (store c)) as [|n ns] eqn:Hn; [done|].
    cbn [length Nat.eqb].
    pose proof (trim_not_allSpace _ Hblank) as Hname. fold name in Hname.
    rewrite (proj2 (truthy_nonempty name) Hname). cbn [negb].
    split; [exact Hname|].
    destruct exported as [[]|err]; cbn [fst snd].
    - split; [reflexivity|].
      exists (orStr (slugifyName name) "spring-export").
      split; [reflexivity|].
      split; [by apply orStr_nonempty|].
      split.
      { unfold orStr. destruct (truthy (slugifyName name)); [|reflexivity].
        apply singleDashes_class, slugifyName_is_Slug. }
      unfold orStr. split.
      + intros Hs. by rewrite (proj2 (truthy_nonempty _) Hs).
      + by intros ->.
    - done. }
  intros file.
  destruct (length (nodes (store c)) =? 0)%nat.
  { cbn [snd]. intros Hin. apply list_elem_of_singleton in Hin. discriminate. }
  destruct (negb (truthy name)).
  { cbn [snd]. by intros Hin%elem_of_nil. }
  destruct exported; cbn [snd]; intros _; eexists; apply list_elem_of_here.
Qed.

(** ** The history list and its pointer *)

Lemma occursIn_true (active : option Z) (mapped : list PromptHistoryEntry) :
  occursIn active mapped = true ↔
  ∃ a, active = Some a ∧ a ∈ entry_id <$> mapped.
Proof.
  destruct active as [a|]; simpl.
  - rewrite existsb_exists. split.
    + intros (entry & Hin & Hid). exists a. split; [done|].
      apply bool_decide_eq_true in Hid. rewrite <- Hid.
      apply list_elem_of_fmap_2. by apply list_elem_of_In.
    + intros (a' & [= <-] & (entry & -> & Hin)%list_elem_of_fmap).
      exists entry. split; [by apply list_elem_of_In|].
      by apply bool_decide_eq_true.
  - split; [done|]. by intros (a & Ha & _).
Qed.

Lemma firstId_elem (mapped : list PromptHistoryEntry) (a : Z) :
  firstId mapped = Some a → a ∈ entry_id <$> mapped.
Proof.
  destruct mapped as [|entry rest]; [done|]. intros [= <-].
  rewrite fmap_cons. apply list_elem_of_here.
Qed.

Lemma loadHistory_resolved (preserve : bool)
    (data : option (list ApiHistoryItem)) (w : World) :
  let mapped := map toEntry (orDefault data []) in
  let next := nextActive preserve (activeHistoryIdRef (chat w)) mapped in
  loadHistory preserve (Resolved data) w
  = (mapped,
     mkWorld (mkChat (prompt (chat w)) (isLoading (chat w)) (error (chat w))
                     mapped false None (deletingId (chat w))
                     (isClearingHistory (chat w)) next next)
             (diagram w) (sent w ++ [GetHistory HISTORY_LIMIT])).
Proof. reflexivity. Qed.

Lemma loadHistory_rejected (preserve : bool) (err : ApiError) (w : World) :
  loadHistory preserve (Rejected err) w
  = ([],
     mkWorld (mkChat (prompt (chat w)) (isLoading (chat w)) (error (chat w))
                     (history (chat w)) false
                     (Some "No se pudo cargar el historial.")
                     (deletingId (chat w)) (isClearingHistory (chat w))
                     (activeHistoryId (chat w)) (activeHistoryIdRef (chat w)))
             (diagram w) (sent w ++ [GetHistory HISTORY_LIMIT])).
Proof. reflexivity. Qed.

Lemma nextActive_valid (preserve : bool) (current : option Z)
    (mapped : list PromptHistoryEntry) :
  let next := nextActive preserve current mapped in
  (next = None ∨ ∃ a, next = Some a ∧ a ∈ entry_id <$> mapped)
  ∧ (∀ a, current = Some a → a ∈ entry_id <$> mapped → next = Some a)
  ∧ (current = None → preserve = true → next = None)
  ∧ (current = None → preserve = false → next = firstId mapped)
  ∧ (∀ a, current = Some a → (a ∉ entry_id <$> mapped) → next = firstId mapped).
Proof.
  intros next. subst next. unfold nextActive.
  destruct (occursIn current mapped) eqn:Hocc.
  - apply occursIn_true in Hocc as (a & -> & Hin).
    split; [right; by exists a|]. split; [by intros a' [= <-]|].
    split; [done|]. split; [done|]. by intros a' [= <-].
  - assert (∀ a, current = Some a → a ∉ entry_id <$> mapped) as Hout.
    { intros a -> Hin.
      assert (occursIn (Some a) mapped = true) as Habs
        by (apply occursIn_true; by exists a).
      congruence. }
    destruct current as [a|].
    + rewrite andb_false_r.
      split.
      { destruct (firstId mapped) as [b|] eqn:Hf; [|by left].
        right. exists b. split; [done|]. by apply firstId_elem. }
      split; [intros a' [= <-] Hin; by destruct (Hout a eq_refl)|].
      done.
    + rewrite andb_true_r. destruct preserve.
      * split; [by left|]. done.
      * split.
        { destruct (firstId mapped) as [b|] eqn:Hf; [|by left].
          right. exists b. split; [done|]. by apply firstId_elem. }
        done.
Qed.

(** X18. A history request. Whatever its outcome it sends exactly one
    request, ends with the loading flag cleared and touches neither the
    canvas nor the prompt, the error of the prompt, the busy flags of the
    other handlers. When it succeeds the list is the fetched one, the
    error of the list is cleared, the pointer and its reference agree, and
    the pointer never dangles: it is null or the id of a fetched entry. It
    stays where it was when that entry is still listed; a null pointer
    stays null under [preserveNullSelection]; in every other case it moves
    to the first fetched entry. When the request fails the list, the
    pointer and its reference are as before and the error of the list is
    set. *)
Theorem loadHistory_pointer (preserve : bool)
    (outcome : Outcome (option (list ApiHistoryItem))) (w : World) :
  let w' := exec (loadHistory preserve outcome) w in
  let mapped := result (loadHistory preserve outcome) w in
  sent w' = sent w ++ [GetHistory HISTORY_LIMIT]
  ∧ diagram w' = diagram w
  ∧ sameDraft (chat w) (chat w')
  ∧ isHistoryLoading (chat w') = false
  ∧ match outcome with
    | Resolved data =>
        mapped = map toEntry (orDefault data [])
        ∧ history (chat w') = mapped
        ∧ historyError (chat w') = None
        ∧ activeHistoryIdRef (chat w') = activeHistoryId (chat w')
        ∧ (activeHistoryId (chat w') = None
           ∨ ∃ a, activeHistoryId (chat w') = Some a ∧ a ∈ entry_id <$> mapped)
        ∧ (∀ a, activeHistoryIdRef (chat w) = Some a →
                a ∈ entry_id <$> mapped → activeHistoryId (chat w') = Some a)
        ∧ (activeHistoryIdRef (chat w) = None → preserve = true →
           activeHistoryId (chat w') = None)
        ∧ (activeHistoryIdRef (chat w) = None → preserve = false →
           activeHistoryId (chat w') = entry_id <$> head mapped)
        ∧ (∀ a, activeHistoryIdRef (chat w) = Some a →
                (a ∉ entry_id <$> mapped) →
                activeHistoryId (chat w') = entry_id <$> head mapped)
    | Rejected _ =>
        mapped = []
        ∧ history (chat w') = history (chat w)
        ∧ historyError (chat w') = Some "No se pudo cargar el historial."
        ∧ activeHistoryId (chat w') = activeHistoryId (chat w)
        ∧ activeHistoryIdRef (chat w') = activeHistoryIdRef (chat w)
    end.
Proof.
  intros w' mapped. subst w' mapped. unfold exec, result.
  destruct outcome as [data|err].
  - rewrite loadHistory_resolved. cbn [fst snd chat diagram sent].
    split; [done|]. split; [done|]. split; [done|]. split; [done|].
    cbn [history historyError activeHistoryId activeHistoryIdRef].
    split; [done|]. split; [done|]. split; [done|]. split; [done|].
    assert (∀ l : list PromptHistoryEntry, firstId l = entry_id <$> head l) as Hf
      by (by intros [|??]).
    rewrite <- Hf.
    apply nextActive_valid.
  - rewrite loadHistory_rejected. cbn [fst snd chat diagram sent].
    done.
Qed.

Lemma exec_bind {A B : Type} (m : Action A) (k : A → Action B) (w : World) :
  exec (m ≫= k) w = exec (k (result m w)) (exec m w).
Proof. unfold exec, result, mbind, Action_bind. by destruct (m w). Qed.

Lemma exec_discard {A : Type} (m : Action A) (w : World) :
  exec (discard m) w = exec m w.
Proof. unfold discard. rewrite exec_bind. reflexivity. Qed.

Lemma exec_loadHistory_resolved (preserve : bool)
    (data : option (list ApiHistoryItem)) (w : World) :
  let mapped := map toEntry (orDefault data []) in
  let next := nextActive preserve (activeHistoryIdRef (chat w)) mapped in
  exec (loadHistory preserve (Resolved data)) w
  = mkWorld (mkChat (prompt (chat w)) (isLoading (chat w)) (error (chat w))
                    mapped false None (deletingId (chat w))
                    (isClearingHistory (chat w)) next next)
            (diagram w) (sent w ++ [GetHistory HISTORY_LIMIT]).
Proof. reflexivity. Qed.

(** ** Deleting one entry of the history *)

(** X19. Deleting a history entry. When the confirmation is declined
    nothing happens at all. When the deletion fails only the deletion
    request was sent, the list and the pointer are as before and the error
    of the list says so. When it succeeds the list is refetched with
    [preserveNullSelection]: a null pointer stays null rather than jumping
    to another entry, a pointer to an entry that is still listed stays,
    and a pointer to the deleted entry moves to the first entry left. In
    every case the canvas is untouched and no deletion is marked as in
    progress afterwards. *)
Theorem handleDeleteEntry_outcomes (historyId : Z)
    (reloaded : Outcome (option (list ApiHistoryItem))) (w : World) :
  isClearingHistory (chat w) = false →
  (∀ deleted, exec (handleDeleteEntry historyId false deleted reloaded) w = w)
  ∧ (∀ err,
       let w' := exec (handleDeleteEntry historyId true (Rejected err) reloaded) w in
       sent w' = sent w ++ [DeleteHistoryEntry historyId]
       ∧ history (chat w') = history (chat w)
       ∧ activeHistoryId (chat w') = activeHistoryId (chat w)
       ∧ historyError (chat w') = Some "No se pudo eliminar la entrada."
       ∧ deletingId (chat w') = None
       ∧ diagram w' = diagram w)
  ∧ (∀ data,
       let w' := exec (handleDeleteEntry historyId true (Resolved tt)
                                         (Resolved data)) w in
       let mapped := map toEntry (orDefault data []) in
       sent w' = sent w ++ [DeleteHistoryEntry historyId; GetHistory HISTORY_LIMIT]
       ∧ history (chat w') = mapped
       ∧ deletingId (chat w') = None
       ∧ diagram w' = diagram w
       ∧ (activeHistoryIdRef (chat w) = None → activeHistoryId (chat w') = None)
       ∧ (∀ a, activeHistoryIdRef (chat w) = Some a →
               a ∈ entry_id <$> mapped → activeHistoryId (chat w') = Some a)
       ∧ (activeHistoryIdRef (chat w) = Some historyId →
          (historyId ∉ entry_id <$> mapped) →
          activeHistoryId (chat w') = entry_id <$> head mapped)).
Proof.
  intros Hc.
  split.
  { intros deleted. cbv [exec handleDeleteEntry mbind Action_bind getChat].
    rewrite Hc. reflexivity. }
  split.
  { intros err w'. subst w'.
    cbv [exec handleDeleteEntry mbind Action_bind getChat].
    rewrite Hc. cbn [negb]. simpl. done. }
  intros data w' mapped. subst w'.
  unfold handleDeleteEntry. rewrite exec_bind.
  change (result getChat w) with (chat w). change (exec getChat w) with w.
  rewrite Hc. cbn [negb]. rewrite !exec_bind, exec_discard.
  set (w1 := exec (send (DeleteHistoryEntry historyId))
               (exec (setHistoryError None)
                  (exec (setDeletingId (Some historyId)) w))).
  assert (activeHistoryIdRef (chat w1) = activeHistoryIdRef (chat w)) as Href
    by reflexivity.
  assert (diagram w1 = diagram w) as Hdiagram by reflexivity.
  assert (sent w1 = sent w ++ [DeleteHistoryEntry historyId]) as Hsent
    by reflexivity.
  rewrite exec_loadHistory_resolved. fold mapped.
  cbn [exec snd setDeletingId modifyChat chat diagram sent history deletingId
       activeHistoryId].
  rewrite Href, Hdiagram, Hsent, <- app_assoc.
  destruct (nextActive_valid true (activeHistoryIdRef (chat w)) mapped)
    as (_ & Hkeep & Hnull & _ & Hmove).
  split; [reflexivity|].
  split; [reflexivity|]. split; [reflexivity|]. split; [reflexivity|].
  split; [intros Hn; by apply Hnull|].
  split; [exact Hkeep|].
  intros Ha Hout.
  assert (∀ l : list PromptHistoryEntry, firstId l = entry_id <$> head l) as Hf
    by (by intros [|??]).
  rewrite <- Hf. by apply (Hmove historyId).
Qed.

(** Entry 7 of [activeWorld] is deleted while it is the active one. *)
Lemma handleDeleteEntry_outcomes_witness :
  let left := Some [mkItem 3 1 "Diagrama de un supermercado"
                      (rawGraph buildSupermarketDiagram) "2025-01-01T09:00:00"] in
  let w' := exec (handleDeleteEntry 7 true (Resolved tt) (Resolved left))
                 activeWorld in
  isClearingHistory (chat activeWorld) = false
  ∧ activeHistoryId (chat w') = Some 3%Z
  ∧ (entry_id <$> history (chat w')) = [3%Z]
  ∧ diagram w' = diagram activeWorld.
Proof.
  intros left w'.
  split; [reflexivity|]. split; [reflexivity|]. split; [reflexivity|].
  pose proof (handleDeleteEntry_outcomes 7 (Resolved left) activeWorld eq_refl)
    as (_ & _ & H).
  specialize (H left). cbv zeta in H.
  destruct H as (_ & _ & _ & Hd & _). exact Hd.
Defined.

(** ** Generation requests that do not reach the canvas *)

(** X20. When a generation request draws nothing. With a blank prompt the
    handler only reports that a prompt is needed: no request is sent and
    not even the loading flag changes. Otherwise one request is sent with
    the trimmed prompt, the graph on the canvas and the pointer; and the
    canvas, the history and the pointer stay as they were, the matching
    message is shown and the loading flag ends up cleared when the service
    answers with neither nodes nor edges, when it refuses with a detail
    (the detail is the message), and when it refuses without one and the
    prompt names none of the built-in diagrams (the message is the message
    of the error, or a fixed text). *)
Theorem handleGenerate_draws_nothing (rnd : nat → string)
    (reloaded : Outcome (option (list ApiHistoryItem))) (w : World) :
  let quiet (w' : World) (message : string) : Prop :=
    sent w' = sent w ++ [generateRequest w]
    ∧ diagram w' = diagram w
    ∧ history (chat w') = history (chat w)
    ∧ activeHistoryId (chat w') = activeHistoryId (chat w)
    ∧ prompt (chat w') = prompt (chat w)
    ∧ error (chat w') = Some message
    ∧ isLoading (chat w') = false in
  (allSpace (prompt (chat w)) = true →
   ∀ answered,
     let w' := exec (handleGenerate rnd answered reloaded) w in
     sent w' = sent w ∧ diagram w' = diagram w
     ∧ error (chat w') = Some "Escribe un prompt para generar el diagrama."
     ∧ isLoading (chat w') = isLoading (chat w)
     ∧ history (chat w') = history (chat w)
     ∧ activeHistoryId (chat w') = activeHistoryId (chat w))
  ∧ (allSpace (prompt (chat w)) = false →
     (∀ data, emptyResponse data = true →
        quiet (exec (handleGenerate rnd (Resolved data) reloaded) w)
              "La respuesta no contiene nodos ni relaciones.")
     ∧ (∀ err detail, err_isAxios err = true → err_detail err = Some detail →
          detail ≠ "" →
          quiet (exec (handleGenerate rnd (Rejected err) reloaded) w) detail)
     ∧ (∀ err,
          (if err_isAxios err then present (err_detail err) else None) = None →
          buildFallbackDiagram (trim (prompt (chat w))) = None →
          quiet (exec (handleGenerate rnd (Rejected err) reloaded) w)
                (orDefault (err_message err)
                           "No fue posible generar el diagrama."))).
Proof.
  intros quiet. split.
  { intros Hblank answered w'. subst w'.
    cbv [exec handleGenerate mbind Action_bind getChat].
    rewrite (trim_allSpace _ Hblank). repeat split; reflexivity. }
  intros Hblank.
  pose proof (trim_not_allSpace _ Hblank) as Hne.
  apply truthy_nonempty in Hne.
  assert (∀ c : ChatState,
            (if bool_decide (activeHistoryId c ≠ None)
             then activeHistoryId c else None) = activeHistoryId c) as Hactive.
  { intros c. destruct (activeHistoryId c); [|reflexivity].
    by rewrite bool_decide_eq_true_2. }
  split; [|split].
  - intros data Hempty. unfold emptyResponse in Hempty. subst quiet. cbv beta.
    cbv [exec handleGenerate mbind Action_bind getChat].
    rewrite Hne. cbn [negb]. simpl. rewrite Hempty. simpl.
    unfold generateRequest. rewrite Hactive. done.
  - intros err detail Hax Hd Hdne. subst quiet. cbv beta.
    cbv [exec handleGenerate mbind Action_bind getChat].
    rewrite Hne. cbn [negb]. simpl. rewrite Hax, Hd, (present_nonempty _ Hdne).
    simpl. unfold generateRequest. rewrite Hactive. done.
  - intros err Hnone Hfb. subst quiet. cbv beta.
    cbv [exec handleGenerate mbind Action_bind getChat].
    rewrite Hne. cbn [negb]. simpl. rewrite Hnone, Hfb.
    simpl. unfold generateRequest. rewrite Hactive. done.
Qed.

(** ** Vision requests that do not reach the canvas *)


(** ** Starting a new conversation *)

(** X22. A new conversation forgets the pointer but keeps the list and the
    canvas, and the next generation starts a conversation of its own: the
    request carries no history id however long the previous conversation
    was, and after a non-empty answer the history is refetched rather than
    patched. *)
Theorem handleNewConversation_then_generate (rnd : nat → string)
    (typed : string) (data : GenerateResponse)
    (reloaded : Outcome (option (list ApiHistoryItem))) (w : World) :
  allSpace typed = false →
  emptyResponse data = false →
  let w1 := exec handleNewConversation w in
  let w2 := exec (setPrompt typed) w1 in
  let w3 := exec (handleGenerate rnd (Resolved data) reloaded) w2 in
  (prompt (chat w1) = "" ∧ error (chat w1) = None
   ∧ activeHistoryId (chat w1) = None ∧ activeHistoryIdRef (chat w1) = None
   ∧ history (chat w1) = history (chat w)
   ∧ diagram w1 = diagram w ∧ sent w1 = sent w)
  ∧ sent w3
    = sent w ++ [ PostGenerate (trim typed)
                    (mkGraph (nodes (diagram w))
                             (map edgePayload (edges (diagram w)))) None;
                  GetHistory HISTORY_LIMIT ]
  ∧ history (chat w3) = history (chat (exec (loadHistory false reloaded) w2))
  ∧ activeHistoryId (chat w3)
    = activeHistoryId (chat (exec (loadHistory false reloaded) w2)).
Proof.
  intros Htyped Hne w1 w2 w3.
  split; [done|].
  pose proof (trim_not_allSpace _ Htyped) as Ht. apply truthy_nonempty in Ht.
  destruct (handleGenerate_fresh rnd data reloaded w2 Ht Hne eq_refl)
    as (Hsent & Hactive & Hhistory).
  fold w3 in Hsent, Hactive, Hhistory.
  split; [exact Hsent|]. split; [exact Hhistory | exact Hactive].
Qed.

Lemma handleNewConversation_then_generate_witness :
  let w3 := exec (handleGenerate noRandom (Resolved (generatedResponse None))
                                 (Resolved (Some sampleItems)))
              (exec (setPrompt "Agrega comentarios")
                 (exec handleNewConversation activeWorld)) in
  allSpace "Agrega comentarios" = false
  ∧ emptyResponse (generatedResponse None) = false
  ∧ activeHistoryId (chat activeWorld) = Some 7%Z
  ∧ sent w3
    = [ PostGenerate "Agrega comentarios"
          (mkGraph (nodes (diagram activeWorld))
                   (map edgePayload (edges (diagram activeWorld)))) None;
        GetHistory HISTORY_LIMIT ].
Proof.
  intros w3.
  split; [reflexivity|]. split; [reflexivity|]. split; [reflexivity|].
  pose proof (handleNewConversation_then_generate noRandom "Agrega comentarios"
                (generatedResponse None) (Resolved (Some sampleItems))
                activeWorld eq_refl eq_refl) as H.
  cbv zeta in H. destruct H as (_ & Hsent & _). exact Hsent.
Defined.

(** ** Putting a graph on the canvas *)

Lemma normalizeEdge_sanitizeEdge (rnd : nat → string) (i : nat) (e : DiagramEdge) :
  normalizeEdge (sanitizeEdge rnd i e)
  = withData e
      (mkRel (Some (orDefault (orElse (rel_id (givenData e)) (edge_id e))
                              ("edge-" +:+ rnd i)))
             (orElse (rel_source (givenData e)) (edge_source e))
             (orElse (rel_target (givenData e)) (edge_target e))
             (Some (storedKind (orDefault (rel_kind (givenData e)) "simple")))
             (Some (orDefault (rel_sourceMult (givenData e)) "1"))
             (Some (orDefault (rel_targetMult (givenData e)) "*"))
             (Some (orDefault (rel_label (givenData e)) ""))).
Proof.
  unfold normalizeEdge, sanitizeEdge, withData, givenData, storedKind.
  cbn [edge_id edge_source edge_target edge_sourceHandle edge_targetHandle
       edge_label edge_data orDefault rel_id rel_source rel_target rel_kind
       rel_sourceMult rel_targetMult rel_label].
  set (data := match edge_data e with Some x => x | None => emptyData end).
  f_equal. f_equal. f_equal.
  - by rewrite <- orElse_assoc, orElse_same.
  - by rewrite <- orElse_assoc, orElse_same.
  - by destruct (isRelationshipKind _).
Qed.

(** X23. [applyGraphToCanvas] replaces the diagram and nothing else. The
    nodes are those of the graph, or none when the graph has no node
    array; there is one edge per edge of the graph, in the same order, and
    none when there is no edge array. Every edge on the canvas is
    normalized and its bundle always has an id: the id of the given
    bundle, else the id of the edge, else a generated one. Source and
    target come from the bundle, else from the edge; the kind is the given
    one when valid and "simple" otherwise; multiplicities and label default
    to "1", "*" and the empty string. The top-level fields of the edges,
    the tool selection, the panel and the requests are untouched. *)
Theorem applyGraphToCanvas_sanitizes (rnd : nat → string) (graph : RawGraph)
    (w : World) :
  let w' := exec (applyGraphToCanvas rnd graph) w in
  chat w' = chat w ∧ sent w' = sent w
  ∧ nodes (diagram w') = orDefault (raw_nodes graph) []
  ∧ length (edges (diagram w')) = length (orDefault (raw_edges graph) [])
  ∧ Forall Normalized (edges (diagram w'))
  ∧ (∀ i e, orDefault (raw_edges graph) [] !! i = Some e →
       ∃ d, edges (diagram w') !! i = Some (withData e d)
         ∧ rel_id d = Some (orDefault (orElse (rel_id (givenData e)) (edge_id e))
                                      ("edge-" +:+ rnd i))
         ∧ rel_source d = orElse (rel_source (givenData e)) (edge_source e)
         ∧ rel_target d = orElse (rel_target (givenData e)) (edge_target e)
         ∧ rel_kind d
           = Some (storedKind (orDefault (rel_kind (givenData e)) "simple"))
         ∧ rel_sourceMult d = Some (orDefault (rel_sourceMult (givenData e)) "1")
         ∧ rel_targetMult d = Some (orDefault (rel_targetMult (givenData e)) "*")
         ∧ rel_label d = Some (orDefault (rel_label (givenData e)) ""))
  ∧ selectedRelationshipKind (diagram w') = selectedRelationshipKind (diagram w)
  ∧ selectedSourceMult (diagram w') = selectedSourceMult (diagram w)
  ∧ selectedTargetMult (diagram w') = selectedTargetMult (diagram w).
Proof.
  intros w'. subst w'.
  unfold exec, applyGraphToCanvas, modifyDiagram, setGraph.
  cbn [snd chat sent diagram nodes edges graph_nodes graph_edges
       selectedRelationshipKind selectedSourceMult selectedTargetMult].
  split; [done|]. split; [done|]. split; [done|].
  split; [by rewrite length_map, length_imap|].
  split; [apply Forall_Normalized_map|].
  split; [|done].
  intros i e Hi. eexists. split.
  - change (map ?f ?l) with (f <$> l).
    rewrite list_lookup_fmap, list_lookup_imap, Hi. simpl.
    by rewrite normalizeEdge_sanitizeEdge.
  - repeat split.
Qed.

(** ** The titles of the history list *)

Lemma length_string_app (s t : string) :
  String.length (s +:+ t) = (String.length s + String.length t)%nat.
Proof.
  induction s as [|c s IH]; [reflexivity|].
  change (String.length (String c s +:+ t)) with (S (String.length (s +:+ t))).
  rewrite IH. reflexivity.
Qed.

Lemma length_substring_0 (n : nat) (s : string) :
  (n ≤ String.length s)%nat → String.length (String.substring 0 n s) = n.
Proof.
  revert s. induction n as [|n IH]; intros s Hn.
  - by destruct s.
  - destruct s as [|c s]; simpl in *; [lia|]. rewrite IH; [done|lia].
Qed.

Lemma prefix_substring_0 (n : nat) (s : string) :
  String.prefix (String.substring 0 n s) s = true.
Proof.
  revert s. induction n as [|n IH]; intros s.
  - by destruct s.
  - destruct s as [|c s]; [reflexivity|].
    change (String.substring 0 (S n) (String c s))
      with (String c (String.substring 0 n s)).
    change (String.prefix (String c (String.substring 0 n s)) (String c s))
      with (if ascii_dec c c then String.prefix (String.substring 0 n s) s
            else false).
    destruct (ascii_dec c c); [apply IH | done].
Qed.

(** X24. The title of a history entry is never longer than 160 characters:
    a prompt of at most 160 characters is shown as it is, a longer one is
    cut to its first 157 characters followed by three dots. *)
Theorem truncatedPrompt_length (entry : PromptHistoryEntry) :
  (String.length (truncatedPrompt entry) ≤ 160)%nat
  ∧ ((String.length (entry_prompt entry) ≤ 160)%nat →
     truncatedPrompt entry = entry_prompt entry)
  ∧ ((160 < String.length (entry_prompt entry))%nat →
     ∃ pre, truncatedPrompt entry = pre +:+ "..."
            ∧ String.length pre = 157%nat
            ∧ String.prefix pre (entry_prompt entry) = true
            ∧ String.length (truncatedPrompt entry) = 160%nat).
Proof.
  unfold truncatedPrompt.
  destruct (160 <? String.length (entry_prompt entry))%nat eqn:Hlen.
  - apply Nat.ltb_lt in Hlen.
    assert (String.length (String.substring 0 157 (entry_prompt entry)) = 157%nat)
      as Hpre by (apply length_substring_0; lia).
    split; [rewrite length_string_app, Hpre; simpl; lia|].
    split; [lia|]. intros _.
    exists (String.substring 0 157 (entry_prompt entry)).
    split; [done|]. split; [done|].
    split; [apply prefix_substring_0|].
    rewrite length_string_app, Hpre. reflexivity.
  - apply Nat.ltb_ge in Hlen. split; [done|]. split; [done|]. lia.
Qed.

(** ** Dictation *)

Lemma string_app_assoc (a b c : string) : (a +:+ b) +:+ c = a +:+ (b +:+ c).
Proof.
  induction a as [|x a IH]; [reflexivity|].
  change (String x ((a +:+ b) +:+ c) = String x (a +:+ (b +:+ c))). by rewrite IH.
Qed.

Lemma string_app_nil_r (a : string) : a +:+ "" = a.
Proof.
  induction a as [|x a IH]; [reflexivity|].
  change (String x (a +:+ "") = String x a). by rewrite IH.
Qed.

Lemma finalText_fold (acc : string) (l : list SpeechResult) :
  foldl (λ text result,
           if speech_isFinal result
           then text +:+ orDefault (speech_transcript result) ""
           else text) acc l
  = acc +:+ foldr String.append ""
              ((λ r, orDefault (speech_transcript r) "")
                 <$> filter (λ r, speech_isFinal r = true) l).
Proof.
  revert acc. induction l as [|r l IH]; intros acc.
  - simpl. by rewrite string_app_nil_r.
  - cbn [foldl]. rewrite IH, filter_cons.
    destruct (speech_isFinal r) eqn:Hr.
    + rewrite decide_True by done. rewrite fmap_cons. cbn [foldr].
      by rewrite string_app_assoc.
    + by rewrite decide_False by done.
Qed.

Lemma headOk_app (p : ascii → bool) (a b : string) :
  a ≠ "" → headOk p (a +:+ b) = headOk p a.
Proof. by destruct a. Qed.

Lemma headOk_trim (s : string) : headOk isSpace (trim s) = true.
Proof. rewrite trim_strip. apply stripEnd_head, stripStart_head. Qed.

(** X25. Dictation. The text taken from a recognition event is the
    concatenation of the transcripts of its final results, counted from
    [resultIndex] on; interim results and earlier results are ignored.
    When that text is blank the panel is left as it is. Otherwise the
    trimmed text replaces a blank prompt and is appended to a non-blank
    one after its trimmed form and one space; the new prompt is never
    empty and never starts with white space; nothing but the prompt
    changes. *)
Theorem onresult_appends (resultIndex : nat) (results : list SpeechResult)
    (w : World) :
  let text := finalText resultIndex results in
  let w' := exec (onresult resultIndex results) w in
  text = foldr String.append "" (finalTranscripts resultIndex results)
  ∧ (allSpace text = true → w' = w)
  ∧ (allSpace text = false →
     prompt (chat w')
     = (if allSpace (prompt (chat w)) then trim text
        else trim (prompt (chat w)) +:+ " " +:+ trim text)
     ∧ prompt (chat w') ≠ ""
     ∧ headOk isSpace (prompt (chat w')) = true)
  ∧ diagram w' = diagram w ∧ sent w' = sent w
  ∧ history (chat w') = history (chat w)
  ∧ activeHistoryId (chat w') = activeHistoryId (chat w)
  ∧ error (chat w') = error (chat w)
  ∧ isLoading (chat w') = isLoading (chat w).
Proof.
  intros text w'.
  split.
  { unfold text, finalText, finalTranscripts. by rewrite finalText_fold. }
  destruct (allSpace text) eqn:Hblank.
  - assert (w' = w) as ->.
    { unfold w', exec, onresult. fold text.
      rewrite (trim_allSpace _ Hblank). by destruct w. }
    done.
  - pose proof (trim_not_allSpace _ Hblank) as Hne.
    assert (w' = exec (setPrompt
                         (if truthy (trim (prompt (chat w)))
                          then trim (prompt (chat w)) +:+ " " +:+ trim text
                          else trim text)) w) as ->.
    { unfold w', exec, onresult. fold text.
      rewrite (proj2 (truthy_nonempty _) Hne). reflexivity. }
    cbn [exec setPrompt modifyChat snd chat diagram sent prompt history
         activeHistoryId error isLoading].
    split; [done|]. split; [|done]. intros _.
    destruct (allSpace (prompt (chat w))) eqn:Hp.
    + rewrite (trim_allSpace _ Hp). cbn [truthy].
      split; [done|]. split; [done|]. apply headOk_trim.
    + pose proof (trim_not_allSpace _ Hp) as Hpne.
      rewrite (proj2 (truthy_nonempty _) Hpne).
      split; [done|]. split.
      * by destruct (trim (prompt (chat w))).
      * rewrite headOk_app by done. apply headOk_trim.
Qed.

(** ** The session *)

Lemma present_Some (v : option string) (s : string) :
  present v = Some s ↔ v = Some s ∧ s ≠ "".
Proof.
  destruct v as [[|c r]|]; cbn [present truthy].
  - split; [done|]. intros [[= <-] Hne]. by destruct Hne.
  - split; [intros [= <-]; done | intros [[= <-] _]; done].
  - split; [done | by intros [? _]].
Qed.

Lemma setFromResponse_ok (response : AuthStore.AuthResponse)
    (st : AuthStore.State) (t : string) :
  responseToken response = Some t →
  AuthStore.setFromResponse response st
  = inl (AuthStore.mkAuth (Some t) (AuthStore.mapUser (AuthStore.resp_user response))
                          true (Some ("Bearer " +:+ t)))
  ∧ t ≠ "".
Proof.
  unfold responseToken, AuthStore.setFromResponse. intros Ht.
  assert (t ≠ "") as Hne.
  { destruct (present (AuthStore.resp_token response)) as [v|] eqn:Hv.
    - injection Ht as <-. by apply present_Some in Hv as [_ ?].
    - by apply present_Some in Ht as [_ ?]. }
  rewrite Ht. unfold AuthStore.setAuthToken.
  rewrite (present_nonempty t Hne). done.
Qed.

Lemma setFromResponse_missing (response : AuthStore.AuthResponse)
    (st : AuthStore.State) :
  responseToken response = None →
  AuthStore.setFromResponse response st = inr AuthStore.MissingToken.
Proof.
  unfold responseToken, AuthStore.setFromResponse. by intros ->.
Qed.

(** X26. The session store. Signing in or registering sends one request
    (the e-mail address goes as the user name of a login) and, when the
    answer carries a non-empty [token] or else a non-empty [access_token],
    yields a session that holds that token, is authenticated, carries the
    user of the answer and has the header "Bearer <token>"; [token] wins
    over [access_token]. An answer without a usable token, or a refused
    request, yields an error and no new session. Signing out always gives
    the initial, signed-out session without header. The initial session,
    every session these operations yield, and a persisted session after
    rehydration keep session and header in agreement. *)
Theorem AuthStore_session (email password : string) (st : AuthStore.State) :
  SessionOk AuthStore.initial
  ∧ AuthStore.logout st = AuthStore.initial
  ∧ (∀ answered,
       fst (AuthStore.login email password answered st)
       = AuthStore.PostLogin email password
       ∧ fst (AuthStore.register email password answered st)
         = AuthStore.PostRegister email password
       ∧ snd (AuthStore.login email password answered st)
         = snd (AuthStore.register email password answered st))
  ∧ (∀ response t, responseToken response = Some t →
       ∃ st', snd (AuthStore.login email password (Resolved response) st) = inl st'
              ∧ AuthStore.token st' = Some t
              ∧ AuthStore.isAuthenticated st' = true
              ∧ AuthStore.user st' = AuthStore.mapUser (AuthStore.resp_user response)
              ∧ AuthStore.authorization st' = Some ("Bearer " +:+ t)
              ∧ SessionOk st'
              ∧ onRehydrateStorage (persisted st') = st')
  ∧ (∀ response t, AuthStore.resp_token response = Some t → t ≠ "" →
       responseToken response = Some t)
  ∧ (∀ response t,
       present (AuthStore.resp_token response) = None →
       AuthStore.resp_access_token response = Some t → t ≠ "" →
       responseToken response = Some t)
  ∧ (∀ response, responseToken response = None →
       snd (AuthStore.login email password (Resolved response) st)
       = inr AuthStore.MissingToken)
  ∧ (∀ err,
       snd (AuthStore.login email password (Rejected err) st)
       = inr (AuthStore.RequestFailed err))
  ∧ (SessionOk st → SessionOk (onRehydrateStorage (persisted st))).
Proof.
  split; [done|].
  split; [by destruct st|].
  split; [by intros [?|?]|].
  split.
  { intros response t Ht.
    destruct (setFromResponse_ok response st t Ht) as [Hset Hne].
    eexists. cbn [AuthStore.login snd]. split; [exact Hset|].
    cbn [AuthStore.token AuthStore.isAuthenticated AuthStore.user
         AuthStore.authorization].
    split; [done|]. split; [done|]. split; [done|]. split; [done|].
    split.
    { unfold SessionOk.
      cbn [AuthStore.token AuthStore.isAuthenticated AuthStore.user
           AuthStore.authorization].
      split; [done|]. split; [congruence|]. done. }
    unfold onRehydrateStorage, persisted, AuthStore.setAuthToken.
    cbn [AuthStore.token AuthStore.isAuthenticated AuthStore.user
         AuthStore.authorization].
    rewrite (present_nonempty t Hne). cbn iota beta.
    by rewrite (present_nonempty t Hne). }
  split.
  { intros response t Ht Hne. unfold responseToken.
    by rewrite Ht, (present_nonempty t Hne). }
  split.
  { intros response t Hnone Ht Hne. unfold responseToken.
    by rewrite Hnone, Ht, (present_nonempty t Hne). }
  split.
  { intros response Hnone. cbn [AuthStore.login snd].
    by apply setFromResponse_missing. }
  split; [done|].
  intros (Hauth & Hne & Hhdr & Huser).
  unfold onRehydrateStorage, persisted, AuthStore.setAuthToken, SessionOk.
  cbn [AuthStore.token]. destruct (AuthStore.token st) as [t|] eqn:Ht.
  - assert (t ≠ "") as Hne' by congruence.
    rewrite (present_nonempty t Hne'). cbn iota beta.
    rewrite (present_nonempty t Hne').
    cbn [AuthStore.token AuthStore.isAuthenticated AuthStore.user
         AuthStore.authorization].
    split; [exact Hauth|]. split; [exact Hne|]. split; [reflexivity|]. done.
  - cbn [present AuthStore.token AuthStore.isAuthenticated AuthStore.user
         AuthStore.authorization].
    split; [exact Hauth|]. split; [done|]. split; [reflexivity|]. exact Huser.
Qed.

(** ** The sign-in view *)

(** X27. Submitting the sign-in form. In register mode with two different
    passwords no request is sent, the session is untouched and the view
    asks for matching passwords. Otherwise exactly one request is sent, a
    login in login mode (whatever the confirmation field holds) and a
    registration in register mode, with the e-mail and password of the
    view, and the view is no longer loading: after a success the error is
    cleared and the session is the new one; after a failure the session is
    untouched and the error is the detail of the answer, or one fixed
    message when there is none or the answer only lacks its token.
    Switching the mode clears the error and keeps the fields, and switching
    twice restores the mode. *)
Theorem AuthView_handleSubmit (answered : Outcome AuthStore.AuthResponse)
    (v : AuthView.State) (session : AuthStore.State) :
  let '(v', session', request) := AuthView.handleSubmit answered v session in
  AuthView.email v' = AuthView.email v
  ∧ AuthView.password v' = AuthView.password v
  ∧ AuthView.mode v' = AuthView.mode v
  ∧ (AuthView.mode v = AuthView.Register →
     AuthView.password v ≠ AuthView.confirmPassword v →
     request = None ∧ session' = session
     ∧ AuthView.error v' = Some "Las contrasenas no coinciden."
     ∧ AuthView.isLoading v' = AuthView.isLoading v)
  ∧ (AuthView.mode v = AuthView.Login
     ∨ AuthView.password v = AuthView.confirmPassword v →
     request
     = Some (match AuthView.mode v with
             | AuthView.Login =>
                 AuthStore.PostLogin (AuthView.email v) (AuthView.password v)
             | AuthView.Register =>
                 AuthStore.PostRegister (AuthView.email v) (AuthView.password v)
             end)
     ∧ AuthView.isLoading v' = false
     ∧ match answered with
       | Resolved response =>
           match responseToken response with
           | Some t =>
               AuthView.error v' = None
               ∧ AuthStore.token session' = Some t
               ∧ AuthStore.isAuthenticated session' = true
               ∧ SessionOk session'
           | None =>
               session' = session
               ∧ AuthView.error v' = Some "No se pudo completar la solicitud."
           end
       | Rejected err =>
           session' = session
           ∧ AuthView.error v'
             = Some (AuthView.failureMessage (AuthStore.RequestFailed err))
           ∧ (err_isAxios err = false ∨ present (err_detail err) = None →
              AuthView.error v' = Some "No se pudo completar la solicitud.")
           ∧ (∀ detail, err_isAxios err = true →
                err_detail err = Some detail → detail ≠ "" →
                AuthView.error v' = Some detail)
       end)
  ∧ AuthView.error (AuthView.toggleMode v) = None
  ∧ AuthView.toggleMode (AuthView.toggleMode v)
    = AuthView.withStatus (AuthView.isLoading v) None v.
Proof.
  assert (∀ response,
            match responseToken response with
            | Some t =>
                ∃ st', AuthStore.setFromResponse response session = inl st'
                       ∧ AuthStore.token st' = Some t
                       ∧ AuthStore.isAuthenticated st' = true ∧ SessionOk st'
            | None =>
                AuthStore.setFromResponse response session
                = inr AuthStore.MissingToken
            end) as Hset.
  { intros response. destruct (responseToken response) as [t|] eqn:Ht.
    - destruct (setFromResponse_ok response session t Ht) as [Hok Hne].
      eexists. split; [exact Hok|]. split; [done|]. split; [done|].
      unfold SessionOk. cbn. split; [done|]. split; [congruence|]. done.
    - by apply setFromResponse_missing. }
  assert (AuthView.toggleMode (AuthView.toggleMode v)
          = AuthView.withStatus (AuthView.isLoading v) None v) as Htoggle
    by (destruct v as [[] ? ? ? ? ?]; reflexivity).
  unfold AuthView.handleSubmit.
  destruct (AuthView.mode v) eqn:Hmode.
  - (* login *)
    cbn [AuthStore.login].
    destruct answered as [response|err].
    + specialize (Hset response).
      destruct (responseToken response) as [t|].
      * destruct Hset as (st' & -> & Htok & Hauth & Hok).
        cbn [AuthView.withStatus AuthView.email AuthView.password AuthView.mode
             AuthView.error AuthView.isLoading].
        split; [done|]. split; [done|]. split; [done|].
        split; [intros ?; discriminate|].
        split; [intros _; done|]. done.
      * rewrite Hset.
        cbn [AuthView.withStatus AuthView.email AuthView.password AuthView.mode
             AuthView.error AuthView.isLoading AuthView.failureMessage].
        split; [done|]. split; [done|]. split; [done|].
        split; [intros ?; discriminate|].
        split; [intros _; done|]. done.
    + cbn [AuthView.withStatus AuthView.email AuthView.password AuthView.mode
           AuthView.error AuthView.isLoading].
      split; [done|]. split; [done|]. split; [done|].
      split; [intros ?; discriminate|].
      split; [|done]. intros _. split; [done|]. split; [done|].
      split; [done|]. split; [done|]. split.
      * intros [Hax|Hd]; cbn [AuthView.failureMessage].
        -- by rewrite Hax.
        -- rewrite Hd. by destruct (err_isAxios err).
      * intros detail Hax Hd Hne. cbn [AuthView.failureMessage].
        by rewrite Hax, Hd, (present_nonempty _ Hne).
  - (* register *)
    destruct (decide (AuthView.password v = AuthView.confirmPassword v))
      as [Heq|Hneq].
    + rewrite bool_decide_eq_true_2 by exact Heq. cbn [negb AuthStore.register].
      destruct answered as [response|err].
      * specialize (Hset response).
        destruct (responseToken response) as [t|].
        -- destruct Hset as (st' & -> & Htok & Hauth & Hok).
           cbn [AuthView.withStatus AuthView.email AuthView.password
                AuthView.mode AuthView.error AuthView.isLoading].
           split; [done|]. split; [done|]. split; [done|].
           split; [intros _ Hne; by destruct Hne|].
           split; [intros _; done|]. done.
        -- rewrite Hset.
           cbn [AuthView.withStatus AuthView.email AuthView.password
                AuthView.mode AuthView.error AuthView.isLoading
                AuthView.failureMessage].
           split; [done|]. split; [done|]. split; [done|].
           split; [intros _ Hne; by destruct Hne|].
           split; [intros _; done|]. done.
      * cbn [AuthView.withStatus AuthView.email AuthView.password AuthView.mode
             AuthView.error AuthView.isLoading].
        split; [done|]. split; [done|]. split; [done|].
        split; [intros _ Hne; by destruct Hne|].
        split; [|done]. intros _. split; [done|]. split; [done|].
        split; [done|]. split; [done|]. split.
        -- intros [Hax|Hd]; cbn [AuthView.failureMessage].
           ++ by rewrite Hax.
           ++ rewrite Hd. by destruct (err_isAxios err).
        -- intros detail Hax Hd Hne. cbn [AuthView.failureMessage].
           by rewrite Hax, Hd, (present_nonempty _ Hne).
    + rewrite bool_decide_eq_false_2 by exact Hneq. cbn [negb].
      cbn [AuthView.withStatus AuthView.email AuthView.password AuthView.mode
           AuthView.error AuthView.isLoading].
      split; [done|]. split; [done|]. split; [done|].
      split; [intros _ _; done|].
      split; [|done]. intros [?|?]; [discriminate | done].
Qed.

(** ** What was deleted stays deleted *)

Lemma updateNodeData_ids (id : string) (data : DatabaseNodeData)
    (state : DiagramState) :
  node_id <$> nodes (updateNodeData id data state) = node_id <$> nodes state.
Proof.
  cbn [updateNodeData withNodes nodes]. change (map ?f ?l) with (f <$> l).
  rewrite <- list_fmap_compose. apply list_fmap_ext.
  intros i n _. simpl. by case_bool_decide.
Qed.

Lemma map_no_hit (f : DiagramEdge → DiagramEdge) (id : string)
    (es : list DiagramEdge) :
  (Some id ∉ edge_id <$> es) →
  map (λ edge, if bool_decide (edge_id edge = Some id) then f edge else edge) es
  = es.
Proof.
  intros Hout. apply map_id_on. intros e He.
  rewrite bool_decide_eq_false_2; [reflexivity|].
  intros Heq. apply Hout. rewrite <- Heq. by apply list_elem_of_fmap_2.
Qed.

Lemma removeEdge_ids (id : string) (state : DiagramState) :
  Some id ∉ edge_id <$> edges (removeEdge id state).
Proof.
  cbn [removeEdge withEdges edges].
  intros (e & Heq & [Hne _]%list_elem_of_filter)%list_elem_of_fmap.
  by apply Hne.
Qed.

(** X28. What was deleted stays deleted. After a table is deleted its id is
    on no node and on no end of an edge, and the table editor is never
    left open on it: it is closed when it was editing that table and left
    as it was otherwise; so saving the table editor afterwards never
    brings the table back, and never touches the edges. After a
    relationship is deleted its id is on no edge; its editor may still be
    open on it, and saving that editor then changes nothing but closing
    it: the relationship is not brought back. *)
Theorem deleted_stays_deleted (c : CanvasState) :
  (∀ id form,
     let c1 := handleDeleteNode id c in
     let c2 := saveTable form c1 in
     (id ∉ node_id <$> nodes (store c1))
     ∧ Forall (λ e, edge_source e ≠ Some id ∧ edge_target e ≠ Some id)
              (edges (store c1))
     ∧ (∀ n, editingNode c1 = Some n → node_id n ≠ id)
     ∧ (node_id <$> editingNode c ≠ Some id →
        editingNode c1 = editingNode c ∧ isEditorOpen c1 = isEditorOpen c)
     ∧ (id ∉ node_id <$> nodes (store c2))
     ∧ edges (store c2) = edges (store c1))
  ∧ (∀ id form e,
       editingEdge c = Some e → edge_id e = Some id →
       let c1 := handleDeleteRelationship id c in
       let c2 := saveRelationship form c1 in
       (Some id ∉ edge_id <$> edges (store c1))
       ∧ editingEdge c1 = Some e
       ∧ store c2 = store c1
       ∧ editingEdge c2 = None ∧ isRelationshipEditorOpen c2 = false).
Proof.
  split.
  - intros id form c1 c2.
    assert (id ∉ node_id <$> nodes (store c1)) as Hgone.
    { assert (store c1 = removeNode id (store c)) as ->
        by (unfold c1, handleDeleteNode; by case_bool_decide).
      cbn [removeNode nodes].
      intros (n & Heq & [Hne _]%list_elem_of_filter)%list_elem_of_fmap.
      by apply Hne. }
    assert (∀ n, editingNode c1 = Some n → node_id n ≠ id) as Hedit.
    { intros n. unfold c1, handleDeleteNode.
      destruct (decide (node_id <$> editingNode c = Some id)) as [Heq|Hne].
      - by rewrite bool_decide_eq_true_2.
      - rewrite bool_decide_eq_false_2 by done. cbn [editingNode].
        intros Hn Hid. apply Hne. by rewrite Hn, <- Hid. }
    split; [exact Hgone|].
    split.
    { assert (store c1 = removeNode id (store c)) as ->
        by (unfold c1, handleDeleteNode; by case_bool_decide).
      cbn [removeNode edges]. apply Forall_forall.
      by intros e [He _]%list_elem_of_filter. }
    split; [exact Hedit|].
    split.
    { intros Hne. unfold c1, handleDeleteNode.
      by rewrite bool_decide_eq_false_2. }
    unfold c2, saveTable, handleSaveTable.
    destruct (editingNode c1) as [n|] eqn:Hn; [|done].
    specialize (Hedit n eq_refl). cbn [handleCloseEditor store].
    destruct (existsb _ (nodes (store c1))).
    + rewrite updateNodeData_ids. done.
    + split; [|done]. intros Hin. apply addNodes_ids in Hin as [Hin|Hin].
      * by apply Hgone.
      * rewrite fmap_cons in Hin. cbn [node_id] in Hin.
        apply list_elem_of_singleton in Hin. by apply Hedit.
  - intros id form e He Hid c1 c2.
    pose proof (removeEdge_ids id (store c)) as Hgone.
    split; [exact Hgone|].
    split; [exact He|].
    assert (c2 = handleSaveRelationship
                   (RelationshipEditor.handleSave
                      (RelationshipEditor.mkRelationship id
                         (edge_source e) (edge_target e)
                         (orDefault (edge_data e ≫= rel_kind) "simple")
                         (orDefault (edge_data e ≫= rel_sourceMult) "1")
                         (orDefault (edge_data e ≫= rel_targetMult) "*")
                         (orDefault (orElse (edge_data e ≫= rel_label)
                                            (edge_label e)) ""))
                      form) c1) as ->.
    { unfold c2, saveRelationship, c1, handleDeleteRelationship.
      cbn [editingEdge]. rewrite He. cbn [mbind option_bind].
      unfold relationshipProp. by rewrite Hid. }
    split; [|done].
    unfold handleSaveRelationship, updateEdgeData, updateEdge.
    cbn [store RelationshipEditor.handleSave RelationshipEditor.id
         withEdges edges nodes].
    assert (store c1 = removeEdge id (store c)) as Hstore by reflexivity.
    rewrite Hstore.
    rewrite (map_no_hit _ id _ Hgone).
    rewrite (map_no_hit _ id _ Hgone).
    by destruct (removeEdge id (store c)).
Qed.

(** ** Clearing the history: the other outcomes *)

Lemma exec_handleClearHistory (confirmed : bool) (cleared : Outcome unit)
    (w : World) :
  exec (handleClearHistory confirmed cleared) w
  = (if fst (handleClearHistory_begin confirmed w)
     then exec (handleClearHistory_settle cleared)
               (snd (handleClearHistory_begin confirmed w))
     else snd (handleClearHistory_begin confirmed w)).
Proof.
  unfold handleClearHistory, exec. cbv [mbind Action_bind].
  by destruct (handleClearHistory_begin confirmed w) as [[|] w1].
Qed.

Lemma handleClearHistory_begin_declined (w : World) :
  handleClearHistory_begin false w = (false, w).
Proof.
  unfold handleClearHistory_begin. cbv [mbind Action_bind getChat].
  by destruct (length (history (chat w)) =? 0)%nat.
Qed.

Lemma handleClearHistory_begin_empty (confirmed : bool) (w : World) :
  history (chat w) = [] → handleClearHistory_begin confirmed w = (false, w).
Proof.
  intros Hnil. unfold handleClearHistory_begin. cbv [mbind Action_bind getChat].
  by rewrite Hnil.
Qed.

Lemma handleClearHistory_begin_sent (w : World) :
  history (chat w) ≠ [] →
  handleClearHistory_begin true w
  = (true,
     mkWorld (mkChat (prompt (chat w)) (isLoading (chat w)) (error (chat w))
                     (history (chat w)) (isHistoryLoading (chat w)) None
                     (deletingId (chat w)) true
                     (activeHistoryId (chat w)) (activeHistoryIdRef (chat w)))
             (diagram w) (sent w ++ [DeleteHistory])).
Proof.
  intros Hne. unfold handleClearHistory_begin. cbv [mbind Action_bind getChat].
  by rewrite (length_zero_false _ Hne).
Qed.

(** X29. Clearing the history when it does not go through. Over an empty
    history, or when the confirmation is declined, nothing happens at all.
    When the request fails, only that request was sent, the list, the
    pointer and the prompt are as they were, the error of the list says
    so, and neither a clearing nor a deletion stays marked as in progress.
    The canvas is untouched in every case. *)
Theorem handleClearHistory_not_cleared (w : World) :
  (history (chat w) = [] →
   ∀ confirmed cleared, exec (handleClearHistory confirmed cleared) w = w)
  ∧ (∀ cleared, exec (handleClearHistory false cleared) w = w)
  ∧ (history (chat w) ≠ [] →
     ∀ err,
       let w' := exec (handleClearHistory true (Rejected err)) w in
       sent w' = sent w ++ [DeleteHistory]
       ∧ history (chat w') = history (chat w)
       ∧ activeHistoryId (chat w') = activeHistoryId (chat w)
       ∧ activeHistoryIdRef (chat w') = activeHistoryIdRef (chat w)
       ∧ prompt (chat w') = prompt (chat w)
       ∧ historyError (chat w') = Some "No se pudo limpiar el historial."
       ∧ isClearingHistory (chat w') = false
       ∧ deletingId (chat w') = None
       ∧ diagram w' = diagram w)
  ∧ (∀ confirmed cleared,
       diagram (exec (handleClearHistory confirmed cleared) w) = diagram w).
Proof.
  assert (∀ cleared, exec (handleClearHistory false cleared) w = w) as Hdeclined.
  { intros cleared. by rewrite exec_handleClearHistory, handleClearHistory_begin_declined. }
  assert (history (chat w) = [] →
          ∀ confirmed cleared, exec (handleClearHistory confirmed cleared) w = w)
    as Hempty.
  { intros Hnil confirmed cleared.
    by rewrite exec_handleClearHistory, handleClearHistory_begin_empty. }
  split; [exact Hempty|]. split; [exact Hdeclined|].
  split.
  - intros Hne err w'. subst w'.
    rewrite exec_handleClearHistory, (handleClearHistory_begin_sent w Hne).
    cbn [fst snd]. done.
  - intros confirmed cleared.
    destruct (history (chat w)) as [|entry rest] eqn:Hh.
    + by rewrite (Hempty eq_refl).
    + destruct confirmed; [|by rewrite Hdeclined].
      assert (history (chat w) ≠ []) as Hne by (by rewrite Hh).
      rewrite exec_handleClearHistory, (handleClearHistory_begin_sent w Hne).
      cbn [fst snd]. by destruct cleared.
Qed.

(** ** The built-in diagrams *)

Lemma WellFormed_sample : WellFormed buildSampleGraph.
Proof.
  split; [apply (bool_decide_unpack _); vm_compute; exact I|].
  split; [apply (bool_decide_unpack _); vm_compute; exact I|].
  split; [apply (bool_decide_unpack _); vm_compute; exact I|].
  split; [|reflexivity].
  repeat (apply Forall_cons; split; [reflexivity|]). apply Forall_nil_2.
Qed.

Lemma WellFormed_supermarket : WellFormed buildSupermarketDiagram.
Proof.
  split; [apply (bool_decide_unpack _); vm_compute; exact I|].
  split; [apply (bool_decide_unpack _); vm_compute; exact I|].
  split; [apply (bool_decide_unpack _); vm_compute; exact I|].
  split; [|reflexivity].
  repeat (apply Forall_cons; split; [reflexivity|]). apply Forall_nil_2.
Qed.

Lemma WellFormed_default : WellFormed buildDefaultDiagram.
Proof.
  split; [apply (bool_decide_unpack _); vm_compute; exact I|].
  split; [apply (bool_decide_unpack _); vm_compute; exact I|].
  split; [apply (bool_decide_unpack _); vm_compute; exact I|].
  split; [|reflexivity].
  repeat (apply Forall_cons; split; [reflexivity|]). apply Forall_nil_2.
Qed.

Lemma WellFormed_setGraph (g : DiagramGraph) (state : DiagramState) :
  WellFormed g →
  nodes (setGraph g state) = graph_nodes g
  ∧ edges (setGraph g state) = graph_edges g
  ∧ Integrity (setGraph g state)
  ∧ NoDup (node_id <$> nodes (setGraph g state))
  ∧ NoDup (edge_id <$> edges (setGraph g state)).
Proof.
  intros (Hn & He & Hint & _ & Hnorm).
  assert (Integrity (setGraph g state)) as Hint' by exact Hint.
  split; [reflexivity|].
  assert (edges (setGraph g state) = graph_edges g) as Hedges by exact Hnorm.
  split; [exact Hedges|]. split; [exact Hint'|].
  split; [exact Hn|]. by rewrite Hedges.
Qed.

(** X30. The built-in diagrams. The sample and the two diagrams of the
    offline generator are well formed: node ids and edge ids are pairwise
    distinct, every relationship runs between tables of the diagram, every
    table has a primary key, and the edges are already normalized, so the
    store keeps them exactly as written. Loading the sample replaces
    whatever was on the canvas by the four tables and three relationships
    of the sample, closes both editors and keeps the tool selection;
    loading it again, or after clearing, gives the same canvas; clearing
    leaves no node and no edge. Whatever the prompt, a diagram of the
    offline generator reaches the canvas unchanged. *)
Theorem builtin_diagrams_well_formed (c : CanvasState) :
  let loaded := handleLoadSample c in
  let cleared := handleClearDiagram c in
  WellFormed buildSampleGraph
  ∧ nodes (store loaded) = SAMPLE_NODES ∧ edges (store loaded) = SAMPLE_EDGES
  ∧ Integrity (store loaded)
  ∧ NoDup (node_id <$> nodes (store loaded))
  ∧ NoDup (edge_id <$> edges (store loaded))
  ∧ (editingNode loaded = None ∧ isEditorOpen loaded = false
     ∧ editingEdge loaded = None ∧ isRelationshipEditorOpen loaded = false)
  ∧ (selectedRelationshipKind (store loaded) = selectedRelationshipKind (store c)
     ∧ selectedSourceMult (store loaded) = selectedSourceMult (store c)
     ∧ selectedTargetMult (store loaded) = selectedTargetMult (store c))
  ∧ handleLoadSample loaded = loaded
  ∧ handleLoadSample cleared = loaded
  ∧ (nodes (store cleared) = [] ∧ edges (store cleared) = []
     ∧ editingNode cleared = None ∧ editingEdge cleared = None
     ∧ selectedRelationshipKind (store cleared) = selectedRelationshipKind (store c))
  ∧ (∀ p g, buildFallbackDiagram p = Some g →
       WellFormed g
       ∧ ∀ rnd w,
           let w' := exec (applyGraphToCanvas rnd (rawGraph g)) w in
           nodes (diagram w') = graph_nodes g
           ∧ edges (diagram w') = graph_edges g
           ∧ Integrity (diagram w')).
Proof.
  intros loaded cleared.
  pose proof WellFormed_sample as Hsample.
  destruct (WellFormed_setGraph buildSampleGraph (store c) Hsample)
    as (Hnodes & Hedges & Hint & Hnn & Hne).
  split; [exact Hsample|].
  split; [exact Hnodes|]. split; [exact Hedges|]. split; [exact Hint|].
  split; [exact Hnn|]. split; [exact Hne|].
  split; [done|]. split; [done|]. split; [done|]. split; [done|].
  split; [done|].
  intros p g Hg.
  assert (WellFormed g
          ∧ ∀ rnd, imap (sanitizeEdge rnd) (graph_edges g) = graph_edges g)
    as [Hwf Hsan].
  { unfold buildFallbackDiagram in Hg.
    destruct (_ || _) in Hg.
    - injection Hg as <-. split; [apply WellFormed_supermarket | done].
    - destruct (_ || _) in Hg; [|discriminate].
      injection Hg as <-. split; [apply WellFormed_default | done]. }
  split; [exact Hwf|]. intros rnd w w'.
  assert (diagram w' = setGraph g (diagram w)) as ->.
  { unfold w', exec, applyGraphToCanvas, modifyDiagram, rawGraph.
    cbn [snd diagram raw_nodes raw_edges orDefault]. rewrite Hsan.
    by destruct g. }
  destruct (WellFormed_setGraph g (diagram w) Hwf) as (Hn & He & Hi & _).
  done.
Qed.
